(** * Centris feed importer: extraction helpers and catalog reconciliation

    Shallow embedding of [core/management/commands/import_centris.py] (the
    Django management command) and of the helper copies carried by the
    standalone script [parse_centris_zip.py].

    Conventions.
    - A Python [str] is a list of Unicode code points ([pystr]).  Every text
      of the archive is decoded from cp1252, so the character predicates
      [isdecimal], [isdigit_char] and [tolower] are given on the repertoire
      that decoder can produce.  The index page of the feed comes from the
      network in any encoding; the decimal digits met there are those of
      Unicode ([decimal_value]).
    - A table is a list of rows, a row a list of fields.
    - Functions that can raise return [result]; code that mutates the
      database runs in the state-and-exception monad [M]. *)

From Stdlib Require Import ZArith NArith Lia Sorted Permutation.
From stdpp Require Import base option list strings gmap sets.

(** ** Python strings *)

Abbreviation pystr := (list N) (only parsing).
Abbreviation row := (list (list N)) (only parsing).

(** Decoding of a UTF-8 source literal into code points (three-byte
    sequences at most, enough for the texts of this development). *)
Fixpoint utf8_decode (bs : list N) : pystr :=
  match bs with
  | [] => []
  | b :: r =>
      if (b <? 128)%N then b :: utf8_decode r
      else if (b <? 224)%N then
        match r with
        | b2 :: r' => ((b - 192) * 64 + (b2 - 128))%N :: utf8_decode r'
        | [] => []
        end
      else
        match r with
        | b2 :: b3 :: r' =>
            ((b - 224) * 4096 + (b2 - 128) * 64 + (b3 - 128))%N :: utf8_decode r'
        | _ => []
        end
  end.

Definition py (s : String.string) : pystr :=
  utf8_decode (map Ascii.N_of_ascii (String.list_ascii_of_string s)).
Arguments py s%_string.

Definition QUOTE : N := 34%N.
Definition NEWLINE : N := 10%N.

(** [str.isspace] on one character: the whitespace table of CPython. *)
Definition isspace (c : N) : bool :=
  ((9 <=? c) && (c <=? 13) || (28 <=? c) && (c <=? 32)
   || (c =? 133) || (c =? 160) || (c =? 5760)
   || (8192 <=? c) && (c <=? 8202)
   || (c =? 8232) || (c =? 8233) || (c =? 8239) || (c =? 8287) || (c =? 12288))%N.

(** Decimal digits: the only ones in the cp1252 repertoire are 0-9. *)
Definition isdecimal (c : N) : bool := ((48 <=? c) && (c <=? 57))%N.

(** [str.isdigit] also accepts the superscript digits (U+00B2, U+00B3,
    U+00B9), which [int] rejects. *)
Definition isdigit_char (c : N) : bool :=
  (isdecimal c || (c =? 178) || (c =? 179) || (c =? 185))%N.

(** The decimal digits of Unicode come in runs of ten, 0 to 9;
    [DECIMAL_ZEROS] holds the zero of each run (Unicode 14.0, the tables of
    CPython 3.11). *)
Definition DECIMAL_ZEROS : list N :=
  [ 48; 1632; 1776; 1984; 2406; 2534; 2662; 2790; 2918; 3046; 3174; 3302;
    3430; 3558; 3664; 3792; 3872; 4160; 4240; 6112; 6160; 6470; 6608; 6784;
    6800; 6992; 7088; 7232; 7248; 42528; 43216; 43264; 43472; 43504; 43600;
    44016; 65296; 66720; 68912; 69734; 69872; 69942; 70096; 70384; 70736;
    70864; 71248; 71360; 71472; 71904; 72016; 72784; 73040; 73120; 92768;
    92864; 93008; 120782; 120792; 120802; 120812; 120822; 123200; 123632;
    125264; 130032 ]%N.

(** The value of a decimal digit ([Py_UNICODE_TODECIMAL]). *)
Definition decimal_value (c : N) : option Z :=
  (fun zero => Z.of_N (c - zero))
    <$> List.find (fun zero => (zero <=? c) && (c <=? zero + 9))%N DECIMAL_ZEROS.

(** What [\d] matches in a [str] pattern. *)
Definition unicode_isdecimal (c : N) : bool :=
  match decimal_value c with Some _ => true | None => false end.

(** Simple lower-case mapping: ASCII, Latin-1 and the four upper-case
    letters cp1252 adds. *)
Definition tolower (c : N) : N :=
  (if (65 <=? c) && (c <=? 90) then c + 32
   else if (192 <=? c) && (c <=? 222) && negb (c =? 215) then c + 32
   else if (c =? 352) || (c =? 338) || (c =? 381) then c + 1
   else if (c =? 376) then 255
   else c)%N.

Definition pystr_eqb (a b : pystr) : bool := bool_decide (a = b).

Fixpoint lstrip_by (p : N -> bool) (s : pystr) : pystr :=
  match s with
  | [] => []
  | c :: s' => if p c then lstrip_by p s' else s
  end.

Definition rstrip_by (p : N -> bool) (s : pystr) : pystr :=
  rev (lstrip_by p (rev s)).

Definition strip_by (p : N -> bool) (s : pystr) : pystr :=
  rstrip_by p (lstrip_by p s).

(** [s.strip()] *)
Definition strip (s : pystr) : pystr := strip_by isspace s.

(** [s.strip(chars)] *)
Definition strip_chars (chars : pystr) (s : pystr) : pystr :=
  strip_by (fun c => bool_decide (c ∈ chars)) s.

(** [s.rstrip(chars)] *)
Definition rstrip_chars (chars : pystr) (s : pystr) : pystr :=
  rstrip_by (fun c => bool_decide (c ∈ chars)) s.

(** [s.isdigit()] *)
Definition isdigit (s : pystr) : bool :=
  match s with [] => false | _ => forallb isdigit_char s end.

(** [s.startswith(prefix)] *)
Fixpoint startswith (s prefix : pystr) : bool :=
  match prefix, s with
  | [], _ => true
  | p :: prefix', c :: s' => (p =? c)%N && startswith s' prefix'
  | _ :: _, [] => false
  end.

(** [sep.join(parts)] *)
Fixpoint join (sep : pystr) (parts : list pystr) : pystr :=
  match parts with
  | [] => []
  | [p] => p
  | p :: rest => p ++ sep ++ join sep rest
  end.

(** Python truthiness of a string, and [x or default]. *)
Definition truthy (s : pystr) : bool :=
  match s with [] => false | _ => true end.

Definition or_else {A} (o : option A) (d : A) : A := default d o.

(** [s or None] *)
Definition nonempty_or_none (s : pystr) : option pystr :=
  if truthy s then Some s else None.

(** *** [int(s)] on a string

    Whitespace is dropped at both ends, one sign is allowed, and single
    underscores may separate digits.  For [int] the controls U+001C to
    U+001F are not whitespace, although [str.strip] takes them off.  A text
    of more than [INT_MAX_STR_DIGITS] digits is refused (the default limit
    of CPython 3.11 and later). *)
Definition int_space (c : N) : bool :=
  (isspace c && negb ((28 <=? c) && (c <=? 31)))%N.

Definition INT_MAX_STR_DIGITS : N := 4300%N.

Fixpoint int_digits (acc : Z) (prev_digit : bool) (s : pystr) : option Z :=
  match s with
  | [] => if prev_digit then Some acc else None
  | c :: s' =>
      if isdecimal c then int_digits (acc * 10 + (Z.of_N c - 48))%Z true s'
      else if (c =? 95)%N then
        if prev_digit then
          match s' with
          | [] => None
          | _ => int_digits acc false s'
          end
        else None
      else None
  end.

Definition py_int (s : pystr) : option Z :=
  match strip_by int_space s with
  | [] => None
  | c :: r =>
      let body := if (c =? 43)%N || (c =? 45)%N then r else c :: r in
      if (INT_MAX_STR_DIGITS
          <? N.of_nat (length (filter (fun d => isdecimal d = true) body)))%N
      then None
      else if (c =? 43)%N then int_digits 0 false r
      else if (c =? 45)%N then Z.opp <$> int_digits 0 false r
      else int_digits 0 false (c :: r)
  end.

(** Exceptions raised inside the importer. *)
Inductive exn :=
  | ValueError
  | IndexError
  | RuntimeError
  | CommandError
  | StoreError.

Inductive result (A : Type) :=
  | Ok (a : A)
  | Raise (e : exn).
Arguments Ok {A} a.
Arguments Raise {A} e.

Definition rbind {A B} (r : result A) (f : A -> result B) : result B :=
  match r with
  | Ok a => f a
  | Raise e => Raise e
  end.

Definition of_option {A} (e : exn) (o : option A) : result A :=
  match o with
  | Some a => Ok a
  | None => Raise e
  end.

(** [clean(s)]: every field is a [str], so the [isinstance] test is true. *)
Definition clean (s : pystr) : pystr :=
  strip_chars [QUOTE] (strip s).

(** [row[i]] with Python's bounds check, for [i >= 0]. *)
Definition field (r : row) (i : nat) : result pystr :=
  of_option IndexError (r !! i).

(** [r[i]] under a length guard of the source ([len(r) > i] was tested just
    before); the default is never reached there. *)
Definition get (r : row) (i : nat) : pystr := default [] (r !! i).

(** ** Regular expressions

    A backtracking matcher in continuation-passing style, for the fragment
    of [re] the importer uses: literals, [.], [\s], [\d], character sets,
    greedy and lazy repetition of one atom, one optional atom, a capture
    group and [$]. *)

Record flags := { IGNORECASE : bool; DOTALL : bool }.

Inductive atom :=
  | Lit (c : N)
  | Dot
  | Space
  | Digit
  | OneOf (cs : list N).

Inductive regex :=
  | Eps
  | Atom (a : atom)
  | Star (a : atom)
  | StarLazy (a : atom)
  | Plus (a : atom)
  | Opt (a : atom)
  | Seq (r1 r2 : regex)
  | Group (r : regex)
  | End.

Definition atom_match (fl : flags) (a : atom) (c : N) : bool :=
  match a with
  | Lit l => if IGNORECASE fl then (tolower c =? tolower l)%N else (c =? l)%N
  | Dot => DOTALL fl || negb (c =? NEWLINE)%N
  | Space => isspace c
  | Digit => unicode_isdecimal c
  | OneOf cs =>
      if IGNORECASE fl then existsb (fun l => (tolower c =? tolower l)%N) cs
      else existsb (fun l => (c =? l)%N) cs
  end.

Fixpoint star_greedy {R} (p : N -> bool) (s : pystr) (k : pystr -> option R)
    : option R :=
  match s with
  | [] => k []
  | c :: s' =>
      if p c then
        match star_greedy p s' k with
        | Some r => Some r
        | None => k s
        end
      else k s
  end.

Fixpoint star_lazy {R} (p : N -> bool) (s : pystr) (k : pystr -> option R)
    : option R :=
  match k s with
  | Some r => Some r
  | None =>
      match s with
      | [] => None
      | c :: s' => if p c then star_lazy p s' k else None
      end
  end.

Fixpoint rmatch {R} (fl : flags) (r : regex) (s : pystr) (caps : list pystr)
    (k : pystr -> list pystr -> option R) : option R :=
  match r with
  | Eps => k s caps
  | Atom a =>
      match s with
      | c :: s' => if atom_match fl a c then k s' caps else None
      | [] => None
      end
  | Star a => star_greedy (atom_match fl a) s (fun s' => k s' caps)
  | StarLazy a => star_lazy (atom_match fl a) s (fun s' => k s' caps)
  | Plus a =>
      match s with
      | c :: s' =>
          if atom_match fl a c
          then star_greedy (atom_match fl a) s' (fun s'' => k s'' caps)
          else None
      | [] => None
      end
  | Opt a =>
      match s with
      | c :: s' =>
          if atom_match fl a c then
            match k s' caps with
            | Some x => Some x
            | None => k s caps
            end
          else k s caps
      | [] => k s caps
      end
  | Seq r1 r2 => rmatch fl r1 s caps (fun s' caps' => rmatch fl r2 s' caps' k)
  | Group r0 =>
      rmatch fl r0 s caps
        (fun s' caps' => k s' (caps' ++ [take (length s - length s') s]))
  | End =>
      match s with
      | [] => k s caps
      | [c] => if (c =? NEWLINE)%N then k s caps else None
      | _ => None
      end
  end.

(** A match anchored at the start of [s]: the captured groups and the text
    left after the match. *)
Definition match_at (fl : flags) (r : regex) (s : pystr)
    : option (list pystr * pystr) :=
  rmatch fl r s [] (fun s' caps => Some (caps, s')).

(** [re.search(r, s)]: the groups of the leftmost match. *)
Fixpoint re_search (fl : flags) (r : regex) (s : pystr) : option (list pystr) :=
  match match_at fl r s with
  | Some (caps, _) => Some caps
  | None =>
      match s with
      | [] => None
      | _ :: s' => re_search fl r s'
      end
  end.

(** [m.group(1)] *)
Definition group1 (caps : list pystr) : pystr := default [] (caps !! 0%nat).

(** Number of characters a match at the start of [s] consumes. *)
Definition match_len (fl : flags) (r : regex) (s : pystr) : option nat :=
  (fun '(_, rest) => length s - length rest) <$> match_at fl r s.

(** [re.sub(r, repl, s)]: the leftmost non-overlapping matches are
    replaced; [skip] counts the characters of the current match still to be
    dropped. *)
Fixpoint re_sub_aux (fl : flags) (r : regex) (repl : pystr) (skip : nat)
    (s : pystr) : pystr :=
  match s with
  | [] =>
      match skip, match_len fl r [] with
      | O, Some _ => repl
      | _, _ => []
      end
  | c :: s' =>
      match skip with
      | S n => re_sub_aux fl r repl n s'
      | O =>
          match match_len fl r s with
          | Some O => repl ++ c :: re_sub_aux fl r repl 0 s'
          | Some (S n) => repl ++ re_sub_aux fl r repl n s'
          | None => c :: re_sub_aux fl r repl 0 s'
          end
      end
  end.

Definition re_sub (fl : flags) (r : regex) (repl s : pystr) : pystr :=
  re_sub_aux fl r repl 0 s.

(** [re.split(r, s)]: [cur] is the piece being read, in reverse. *)
Fixpoint re_split_aux (fl : flags) (r : regex) (skip : nat) (cur : pystr)
    (s : pystr) : list pystr :=
  match s with
  | [] =>
      match skip, match_len fl r [] with
      | O, Some _ => [rev cur; []]
      | _, _ => [rev cur]
      end
  | c :: s' =>
      match skip with
      | S n => re_split_aux fl r n cur s'
      | O =>
          match match_len fl r s with
          | Some O => rev cur :: re_split_aux fl r 0 [c] s'
          | Some (S n) => rev cur :: re_split_aux fl r n [] s'
          | None => re_split_aux fl r 0 (c :: cur) s'
          end
      end
  end.

Definition re_split (fl : flags) (r : regex) (s : pystr) : list pystr :=
  re_split_aux fl r 0 [] s.

(** A literal string as a pattern. *)
Definition lits (s : pystr) : regex :=
  foldr (fun c r => Seq (Atom (Lit c)) r) Eps s.

Declare Scope regex_scope.
Delimit Scope regex_scope with re.
Infix "⋅" := Seq (at level 40, left associativity) : regex_scope.

(** ** Sorting

    [sorted] and [list.sort] are stable; the keys are computed for every
    element before any comparison, and an exception from the key function
    leaves the list as it was. *)

Fixpoint insert_by {A} (key : A -> Z) (x : A) (l : list A) : list A :=
  match l with
  | [] => [x]
  | y :: l' =>
      if (key x <=? key y)%Z then x :: l else y :: insert_by key x l'
  end.

Definition sort_by {A} (key : A -> Z) (l : list A) : list A :=
  foldr (insert_by key) [] l.

(** The order a list sorted by [key] is in. *)
Definition key_le {A} (key : A -> Z) (a b : A) : Prop := (key a <= key b)%Z.

Fixpoint decorate {A} (key : A -> result Z) (l : list A) : result (list (Z * A)) :=
  match l with
  | [] => Ok []
  | x :: l' =>
      rbind (key x) (fun kx =>
      rbind (decorate key l') (fun d => Ok ((kx, x) :: d)))
  end.

(** [sorted(l, key=key)] *)
Definition sorted {A} (key : A -> result Z) (l : list A) : result (list A) :=
  rbind (decorate key l) (fun d => Ok (map snd (sort_by fst d))).

(** [try: l.sort(key=key) / except Exception: pass] *)
Definition try_sort {A} (key : A -> result Z) (l : list A) : list A :=
  match sorted key l with
  | Ok l' => l'
  | Raise _ => l
  end.

(** The key as a total function (0 where the key raises), and the
    elements whose key does not raise. *)
Definition key_or_zero {A} (key : A -> result Z) (x : A) : Z :=
  match key x with
  | Ok n => n
  | Raise _ => 0%Z
  end.

Definition key_ok {A} (key : A -> result Z) (x : A) : Prop :=
  exists n, key x = Ok n.

(** ** Dictionaries keyed by strings *)

(** [d.get(k, k)] *)
Definition dict_get_or_key (d : gmap (list N) (list N)) (k : pystr) : pystr :=
  default k (d !! k).

(** [by = defaultdict(list); [by[clean(r[0])].append(r) for r in rows if r]] *)
Definition group_by_id (rows : list row) : gmap (list N) (list row) :=
  foldl (fun m r =>
           match r with
           | [] => m
           | f0 :: _ => <[clean f0 := default [] (m !! clean f0) ++ [r]]> m
           end) ∅ rows.

(** [by.get(id_, [])] *)
Definition rows_of (by_id : gmap (list N) (list row)) (id_ : pystr) : list row :=
  default [] (by_id !! id_).

(** ** [core/management/commands/import_centris.py]: parsing helpers *)

Module import_centris.

Definition CAT_LABEL : gmap (list N) (list N) :=
  list_to_map
    [ (py "ALLE", py "Allée");
      (py "CHAU", py "Mode de chauffage");
      (py "EAU", py "Approvisionnement en eau");
      (py "ENER", py "Énergie pour chauffage");
      (py "FENE", py "Fenestration");
      (py "FOND", py "Fondation");
      (py "PARE", py "Revêtement extérieur");
      (py "SS", py "Sous-sol");
      (py "SYEG", py "Système d'égout");
      (py "TFEN", py "Type de fenestration");
      (py "VUE", py "Vue");
      (py "ZONG", py "Zonage");
      (py "PROX", py "Proximité") ].

Definition VAL_LABEL : gmap (list N) (list N) :=
  list_to_map
    [ (py "NPAV", py "Non pavé");
      (py "PELC", py "Plinthes électriques");
      (py "AMU", py "Municipal");
      (py "ELEC", py "Électricité");
      (py "BOIS", py "BOIS");
      (py "PVC", py "PVC");
      (py "BETO", py "Béton");
      (py "AU", py "Autre");
      (py "VSAN", py "Vide sanitaire");
      (py "EGMU", py "Égout municipal");
      (py "COUL", py "COUL");
      (py "PFEN", py "PFEN");
      (py "EAU", py "Vue sur l'eau");
      (py "RES", py "Résidentiel");
      (py "AUTO", py "Autoroute");
      (py "PCYC", py "Piste cyclable");
      (py "PRIM", py "École primaire");
      (py "SEC", py "École secondaire");
      (py "TRSP", py "Transport en commun") ].

Definition PROX : pystr := Eval vm_compute in py "PROX".
Definition SPACE : pystr := Eval vm_compute in py " ".
Definition COMMA_SPACE : pystr := Eval vm_compute in py ", ".

(** [r'<br\s*/?>'], used with [re.I] *)
Definition BR_RE : regex :=
  (lits (py "<br") ⋅ Star Space ⋅ Opt (Lit 47) ⋅ Atom (Lit 62))%re.
Definition BR_FLAGS : flags := {| IGNORECASE := true; DOTALL := false |}.

(** [r'À\s*proximité\s*:?\s*(.+)$'], used with [re.I | re.S] *)
Definition PROX_RE : regex :=
  (Atom (Lit 192) ⋅ Star Space ⋅ lits (py "proximité") ⋅ Star Space
   ⋅ Opt (Lit 58) ⋅ Star Space ⋅ Group (Plus Dot) ⋅ End)%re.
Definition PROX_FLAGS : flags := {| IGNORECASE := true; DOTALL := true |}.

(** [r'[;,]\s*'] and [r'<.*?>'], used without flags *)
Definition SEP_RE : regex := (Atom (OneOf [59%N; 44%N]) ⋅ Star Space)%re.
Definition TAG_RE : regex := (Atom (Lit 60) ⋅ StarLazy Dot ⋅ Atom (Lit 62))%re.
Definition NO_FLAGS : flags := {| IGNORECASE := false; DOTALL := false |}.

Fixpoint extract_year (values : row) : result (option Z) :=
  match values with
  | [] => Ok None
  | v :: rest =>
      let vs := clean v in
      if truthy vs && isdigit vs && (length vs =? 4)%nat then
        rbind (of_option ValueError (py_int vs)) (fun y =>
          if (1800 <=? y)%Z && (y <=? 2035)%Z then Ok (Some y)
          else extract_year rest)
      else extract_year rest
  end.

Definition extract_address (r : row) : option pystr :=
  let civic := if (25 <? length r)%nat then clean (get r 25) else [] in
  let street := if (27 <? length r)%nat then clean (get r 27) else [] in
  let postal := if (29 <? length r)%nat then clean (get r 29) else [] in
  let parts := filter (fun p => truthy p = true) [civic; street; postal] in
  match parts with
  | [] => None
  | _ => Some (join COMMA_SPACE parts)
  end.

Definition extract_price (r : row) : result (option Z) :=
  if (6 <? length r)%nat && isdigit (clean (get r 6))
  then rbind (of_option ValueError (py_int (clean (get r 6)))) (fun n => Ok (Some n))
  else Ok None.

(** The rows [extract_description] keeps: seven columns at least and the
    marker [F] in the third. *)
Definition is_marked (r : row) : bool :=
  (7 <=? length r)%nat && pystr_eqb (clean (get r 2)) (py "F").

(** [int(clean(r[1]) or 0)] on a row that has a second column *)
Definition remark_key (r : row) : result Z :=
  let s := clean (get r 1) in
  if truthy s then of_option ValueError (py_int s) else Ok 0%Z.

(** [clean(r[-1])] *)
Definition text_of (r : row) : pystr := clean (default [] (last r)).

Definition extract_description (remarques_rows : list row) : option pystr :=
  let chosen := filter (fun r => is_marked r = true) remarques_rows in
  let chosen := try_sort remark_key chosen in
  let text :=
    join SPACE (filter (fun t => truthy t = true) (map text_of chosen)) in
  let text := re_sub BR_FLAGS BR_RE SPACE text in
  nonempty_or_none (strip text).

(** The archive's [ADDENDA.TXT], when present, as parsed rows. *)
Definition extract_addenda (addenda : option (list row)) (id_ : pystr)
    : option pystr :=
  match addenda with
  | None => None
  | Some reader =>
      let chunks :=
        omap (fun r =>
                match r with
                | [] => None
                | f0 :: _ =>
                    if pystr_eqb (clean f0) id_ && truthy (default [] (last r))
                    then Some (text_of r) else None
                end) reader in
      match chunks with
      | [] => None
      | _ => Some (re_sub BR_FLAGS BR_RE SPACE (join SPACE chunks))
      end
  end.

(** The loop commented [# unique, preserve order]. *)
Fixpoint unique (seen : gset (list N)) (prox : list pystr) : list pystr :=
  match prox with
  | [] => []
  | p :: rest =>
      if truthy p && negb (bool_decide (p ∈ seen))
      then p :: unique ({[p]} ∪ seen) rest
      else unique seen rest
  end.

(** The [PROX] rows of the characteristics table, label-mapped. *)
Definition prox_of_rows (carac_rows : list row) : list pystr :=
  omap (fun r =>
          if (3 <=? length r)%nat && pystr_eqb (clean (get r 1)) PROX
          then Some (dict_get_or_key VAL_LABEL (clean (get r 2)))
          else None) carac_rows.

(** The items the loop over [re.split(r'[;,]\s*', seg)] appends. *)
Definition items_of (seg : pystr) : list pystr :=
  filter (fun item => truthy item = true)
    (map (fun item => strip (re_sub NO_FLAGS TAG_RE [] item))
       (re_split NO_FLAGS SEP_RE seg)).

(** The items read from the addenda text, in the [re.search] branch. *)
Definition prox_of_addenda (addenda_text : pystr) : list pystr :=
  match re_search PROX_FLAGS PROX_RE addenda_text with
  | Some m => items_of (group1 m)
  | None => []
  end.

(** The list [prox] when the de-duplication loop starts. *)
Definition prox_candidates (addenda_text : pystr) (carac_rows : list row)
    : list pystr :=
  match prox_of_rows carac_rows with
  | [] => if truthy addenda_text then prox_of_addenda addenda_text else []
  | prox => prox
  end.

Definition extract_proximites (addenda_text : pystr) (carac_rows : list row)
    : pystr * list pystr :=
  let out := unique ∅ (prox_candidates addenda_text carac_rows) in
  (match out with [] => [] | _ => join COMMA_SPACE out end, out).

(** The list [res] of [extract_photos] before it is sorted. *)
Definition photo_pairs (photo_rows : list row) : list (Z * pystr) :=
  omap (fun r =>
          if (7 <=? length r)%nat then
            let seq := clean (get r 1) in
            let url := clean (get r 6) in
            if truthy url && startswith url (py "http") then
              let seq_i :=
                if truthy seq && isdigit seq
                then default 0%Z (py_int seq)
                else 0%Z in
              Some (seq_i, url)
            else None
          else None) photo_rows.

Definition extract_photos (photo_rows : list row) : list (Z * pystr) :=
  sort_by fst (photo_pairs photo_rows).

(** [int(clean(r[1]) or 999)] *)
Definition unit_key (r : row) : result Z :=
  rbind (field r 1) (fun f1 =>
    let s := clean f1 in
    if truthy s then of_option ValueError (py_int s) else Ok 999%Z).

(** The [for ... break] loop over the sorted rows. *)
Fixpoint find_principal (rows : list row) : result (option row) :=
  match rows with
  | [] => Ok None
  | r :: rest =>
      rbind (field r 1) (fun f1 =>
        if pystr_eqb (clean f1) (py "1") then Ok (Some r)
        else find_principal rest)
  end.

Definition select_principal (units_rows : list row) : option row :=
  match rbind (sorted unit_key units_rows) find_principal with
  | Ok principal => principal
  | Raise _ => head units_rows
  end.

(** [int(p) if (p and p.isdigit()) else None] *)
Definition int_if_digits (p : pystr) : result (option Z) :=
  if truthy p && isdigit p
  then rbind (of_option ValueError (py_int p)) (fun n => Ok (Some n))
  else Ok None.

(** [n or None] for a count *)
Definition count_or_none (n : nat) : option Z :=
  match n with O => None | _ => Some (Z.of_nat n) end.

Definition extract_units (units_rows pieces_rows : list row)
    : result (option Z * option Z * option Z) :=
  let principal := select_principal units_rows in
  let sdb :=
    count_or_none
      (length (filter (fun r => ((4 <=? length r)%nat
                                 && pystr_eqb (clean (get r 1)) (py "1")
                                 && pystr_eqb (clean (get r 3)) (py "SDB")) = true)
                 pieces_rows)) in
  match principal with
  | Some pr =>
      if (5 <=? length pr)%nat then
        rbind (int_if_digits (clean (get pr 3))) (fun pieces =>
        rbind (int_if_digits (clean (get pr 4))) (fun chambres =>
        Ok (pieces, chambres, sdb)))
      else Ok (None, None, sdb)
  | None => Ok (None, None, sdb)
  end.

Record carac := { cat : pystr; val : pystr }.

(** One characteristics row: its rendered piece and its entry, when the
    row is neither short nor a [PROX] row. *)
Definition carac_of_row (r : row) : option (pystr * carac) :=
  if (length r <? 3)%nat then None
  else
    let cat0 := clean (get r 1) in
    let val0 := clean (get r 2) in
    if pystr_eqb cat0 PROX then None
    else
      let car_label := dict_get_or_key CAT_LABEL cat0 in
      let label := dict_get_or_key VAL_LABEL val0 in
      let extra := if (3 <? length r)%nat then clean (get r 3) else [] in
      let suffix := if truthy extra then py " (" ++ extra ++ py ")" else [] in
      Some (car_label ++ py ": " ++ label ++ suffix,
            {| cat := car_label; val := label |}).

Definition build_caracteristiques (carac_rows : list row)
    : pystr * list carac :=
  let both := omap carac_of_row carac_rows in
  let descs := map fst both in
  (match descs with [] => [] | _ => join COMMA_SPACE descs end, map snd both).

End import_centris.

(** ** [parse_centris_zip.py]: the helper copies of the standalone script

    The script carries its own copies of the parsing helpers.  In three of
    its raw-string patterns the backslash is written twice, so that each
    [\\s] stands for a literal backslash followed by the letter [s]. *)

Module parse_centris_zip.

(** [r'<br\\s*/?>'], used with [re.I] *)
Definition BR_RE : regex :=
  (lits (py "<br") ⋅ Atom (Lit 92) ⋅ Star (Lit 115) ⋅ Opt (Lit 47)
   ⋅ Atom (Lit 62))%re.

(** [r'À\\s*proximité\\s*:?\\s*(.+)$'], used with [re.I|re.S] *)
Definition PROX_RE : regex :=
  (Atom (Lit 192) ⋅ Atom (Lit 92) ⋅ Star (Lit 115) ⋅ lits (py "proximité")
   ⋅ Atom (Lit 92) ⋅ Star (Lit 115) ⋅ Opt (Lit 58)
   ⋅ Atom (Lit 92) ⋅ Star (Lit 115) ⋅ Group (Plus Dot) ⋅ End)%re.

(** [r'[;,]\\s*'] *)
Definition SEP_RE : regex :=
  (Atom (OneOf [59%N; 44%N]) ⋅ Atom (Lit 92) ⋅ Star (Lit 115))%re.

Definition extract_description (remarques_rows : list row) : option pystr :=
  let chosen := filter (fun r => import_centris.is_marked r = true) remarques_rows in
  let chosen := try_sort import_centris.remark_key chosen in
  let text :=
    join import_centris.SPACE
      (filter (fun t => truthy t = true) (map import_centris.text_of chosen)) in
  let text := re_sub import_centris.BR_FLAGS BR_RE import_centris.SPACE text in
  nonempty_or_none (strip text).

Definition prox_of_addenda (addenda_text : pystr) : list pystr :=
  match re_search import_centris.PROX_FLAGS PROX_RE addenda_text with
  | Some m =>
      let seg := group1 m in
      filter (fun item => truthy item = true)
        (map (fun item => strip (re_sub import_centris.NO_FLAGS
                                   import_centris.TAG_RE [] item))
           (re_split import_centris.NO_FLAGS SEP_RE seg))
  | None => []
  end.

(** This copy returns the rendered text only, or [None]. *)
Definition extract_proximites (addenda_text : pystr) (carac_rows : list row)
    : option pystr :=
  let prox := import_centris.prox_of_rows carac_rows in
  let prox :=
    match prox with
    | [] => if truthy addenda_text then prox_of_addenda addenda_text else []
    | _ => prox
    end in
  let out := import_centris.unique ∅ prox in
  match out with
  | [] => None
  | _ => Some (join import_centris.COMMA_SPACE out)
  end.

(** The script's [extract_units] is the command's, line for line. *)
Definition extract_units := import_centris.extract_units.

(** So are its [extract_year] and [extract_price]; its [extract_address]
    differs by a list written where the command has a tuple. *)
Definition extract_year := import_centris.extract_year.
Definition extract_address := import_centris.extract_address.
Definition extract_price := import_centris.extract_price.

(** The script's [extract_addenda], with its own line-break pattern. *)
Definition extract_addenda (addenda : option (list row)) (id_ : pystr)
    : option pystr :=
  match addenda with
  | None => None
  | Some reader =>
      let chunks :=
        omap (fun r =>
                match r with
                | [] => None
                | f0 :: _ =>
                    if pystr_eqb (clean f0) id_ && truthy (default [] (last r))
                    then Some (import_centris.text_of r) else None
                end) reader in
      match chunks with
      | [] => None
      | _ => Some (re_sub import_centris.BR_FLAGS BR_RE import_centris.SPACE
                     (join import_centris.SPACE chunks))
      end
  end.

(** The list [urls] of the script's [extract_photos]: the test is made on
    the raw seventh column, the value kept is the cleaned one. *)
Definition photo_urls (photo_rows : list row) : list pystr :=
  omap (fun r =>
          if (7 <=? length r)%nat && startswith (get r 6) (py "http")
          then Some (clean (get r 6)) else None) photo_rows.

Definition extract_photos (photo_rows : list row) : option pystr :=
  match photo_urls photo_rows with
  | [] => None
  | urls => Some (join import_centris.COMMA_SPACE urls)
  end.

(** The loop of [parse_zipfile_to_json] that renders the characteristics:
    the second and third columns are read before any length test. *)
Fixpoint car_descs (carac_rows : list row) : result (list pystr) :=
  match carac_rows with
  | [] => Ok []
  | r :: rest =>
      rbind (field r 1) (fun f1 =>
      rbind (field r 2) (fun f2 =>
        let cat0 := clean f1 in
        let val0 := clean f2 in
        let label := dict_get_or_key import_centris.VAL_LABEL val0 in
        if pystr_eqb cat0 import_centris.PROX then car_descs rest
        else
          let car_label := dict_get_or_key import_centris.CAT_LABEL cat0 in
          let extra := if (3 <? length r)%nat then clean (get r 3) else [] in
          let suffix := if truthy extra then py " (" ++ extra ++ py ")" else [] in
          rbind (car_descs rest) (fun descs =>
          Ok ((car_label ++ py ": " ++ label ++ suffix) :: descs))))
  end.

End parse_centris_zip.

(** ** Feed discovery and download *)

(** A [date] is its day number, counted from 1970-01-01; [today - timedelta(days=n)]
    is a subtraction. *)
Abbreviation date := Z (only parsing).

(** Civil date of a day number counted from 1970-01-01. *)
Definition civil_of_days (z : Z) : Z * Z * Z :=
  let z := (z + 719468)%Z in
  let era := (z / 146097)%Z in
  let doe := (z - era * 146097)%Z in
  let yoe := ((doe - doe / 1460 + doe / 36524 - doe / 146096) / 365)%Z in
  let y := (yoe + era * 400)%Z in
  let doy := (doe - (365 * yoe + yoe / 4 - yoe / 100))%Z in
  let mp := ((5 * doy + 2) / 153)%Z in
  let d := (doy - (153 * mp + 2) / 5 + 1)%Z in
  let m := (if (mp <? 10)%Z then mp + 3 else mp - 9)%Z in
  ((if (m <=? 2)%Z then y + 1 else y)%Z, m, d).

Fixpoint digits_fuel (fuel : nat) (n : Z) (acc : pystr) : pystr :=
  match fuel with
  | O => acc
  | S fuel' =>
      let acc' := Z.to_N (48 + n mod 10)%Z :: acc in
      if (n <? 10)%Z then acc' else digits_fuel fuel' (n / 10)%Z acc'
  end.

(** Decimal rendering padded with zeros to [width] digits. *)
Definition zero_pad (width : nat) (n : Z) : pystr :=
  let ds := digits_fuel 20 n [] in
  replicate (width - length ds) 48%N ++ ds.

(** [d.strftime('%Y%m%d')]: the C library writes the year as it is, without
    padding (glibc), the month and the day on two digits. *)
Definition strftime_ymd (d : date) : pystr :=
  let '(y, m, dd) := civil_of_days d in
  digits_fuel 20 y [] ++ zero_pad 2 m ++ zero_pad 2 dd.

(** The requests a session sends. *)
Inductive request :=
  | GetIndex (url : pystr)
  | Head (url : pystr)
  | Download (url : pystr).

(** What the network answers during one attempt: the dates
    [list_zip_dates_from_index] reads off the index page (or the exception
    of that request), whether a [HEAD] gets status 200, and the body of a
    download. *)
Record session := {
  list_zip_dates_from_index : pystr -> result (list Z);
  try_head : pystr -> bool;
  download_bytes : pystr -> result (list N)
}.

Definition compose_url_for_date (base_url : pystr) (d : date) : pystr :=
  rstrip_chars (py "/") base_url ++ py "/NOMADESMARKETING" ++ strftime_ymd d
  ++ py ".zip".

(** [max(dates)] over a non-empty list *)
Definition max_date (d0 : Z) (ds : list Z) : Z := foldr Z.max d0 ds.

(** The [for delta in range(0, 3)] loop over the remaining deltas. *)
Fixpoint probe (s : session) (base_url : pystr) (today : date)
    (deltas : list Z) : list request * result (pystr * Z) :=
  match deltas with
  | [] => ([], Raise RuntimeError)
  | delta :: rest =>
      let d := (today - delta)%Z in
      let url := compose_url_for_date base_url d in
      if try_head s url then ([Head url], Ok (url, d))
      else
        let '(reqs, res) := probe s base_url today rest in
        (Head url :: reqs, res)
  end.

Definition find_latest_available (s : session) (base_url : pystr) (today : date)
    : list request * result (pystr * Z) :=
  match list_zip_dates_from_index s base_url with
  | Ok (d0 :: ds) =>
      let dates := d0 :: ds in
      let best :=
        match filter (fun d => (d <= today)%Z) dates with
        | e0 :: es => max_date e0 es
        | [] => max_date d0 ds
        end in
      ([GetIndex base_url], Ok (compose_url_for_date base_url best, best))
  | _ =>
      let '(reqs, res) := probe s base_url today [0; 1; 2]%Z in
      (GetIndex base_url :: reqs, res)
  end.

(** The body of the [try] in the fetch loop of [Command.handle]: resolve,
    then download. *)
Definition fetch_attempt (s : session) (base_url : pystr) (today : date)
    : list request * result (pystr * Z * list N) :=
  match find_latest_available s base_url today with
  | (reqs, Ok (url, d)) =>
      (reqs ++ [Download url],
       rbind (download_bytes s url) (fun data => Ok (url, d, data)))
  | (reqs, Raise e) => (reqs, Raise e)
  end.

(** ** The catalog ([core/models.py]) *)

Inductive Status := STATUS_ACTIVE | STATUS_SOLD.

(** A [Listing] row without its primary key [centris_id], which is the key
    of the table.  [first_seen_at] and [updated_at] are filled by the
    storage layer from its own clock ([auto_now_add], [auto_now]) and are
    left out. *)
Record Listing := {
  slug : pystr;
  prix : option Z;
  adresse : pystr;
  nombre_pieces : option Z;
  nombre_chambres : option Z;
  nombre_sdb : option Z;
  superficie_habitable : option Z;
  superficie_terrain : option Z;
  annee_construction : option Z;
  inclus : pystr;
  description : pystr;
  proximites_text : pystr;
  proximites : list pystr;
  caracteristiques_text : pystr;
  caracteristiques : list import_centris.carac;
  status : Status;
  sold_at : option Z;
  last_seen_at : option Z
}.

Record ListingPhoto := {
  listing : pystr;
  sequence : nat;
  url : pystr
}.

(** [duration_seconds] holds a reading of the monotonic clock; no
    arithmetic is done on it here. *)
Record FetchLog := {
  file_date : option Z;
  source_url : pystr;
  source_name : pystr;
  items_total : nat;
  items_added : nat;
  items_updated : nat;
  items_marked_sold : nat;
  duration_seconds : Z
}.

Record DB := {
  listings : gmap (list N) Listing;
  photos : list ListingPhoto;
  fetch_logs : list FetchLog
}.

#[global] Instance carac_eq_dec : EqDecision import_centris.carac.
Proof. solve_decision. Defined.
#[global] Instance Status_eq_dec : EqDecision Status.
Proof. solve_decision. Defined.
#[global] Instance Listing_eq_dec : EqDecision Listing.
Proof. solve_decision. Defined.
#[global] Instance ListingPhoto_eq_dec : EqDecision ListingPhoto.
Proof. solve_decision. Defined.
#[global] Instance FetchLog_eq_dec : EqDecision FetchLog.
Proof. solve_decision. Defined.
#[global] Instance DB_eq_dec : EqDecision DB.
Proof. solve_decision. Defined.
#[global] Instance exn_eq_dec : EqDecision exn.
Proof. solve_decision. Defined.

(** *** Database access

    A computation runs against the database and a count of the storage
    calls made so far; [faults n] tells whether the [n]-th storage call
    raises instead of executing.  An exception leaves in place whatever was
    written before it, unless [atomic] intervenes. *)

Record World := { db : DB; calls : nat }.

Definition M (A : Type) : Type := World -> World * result A.

Definition ret {A} (a : A) : M A := fun w => (w, Ok a).

Definition bind {A B} (m : M A) (f : A -> M B) : M B :=
  fun w =>
    match m w with
    | (w', Ok a) => f a w'
    | (w', Raise e) => (w', Raise e)
    end.

Definition lift {A} (r : result A) : M A := fun w => (w, r).

Declare Scope M_scope.
Delimit Scope M_scope with M.
Notation "x <- m ;; k" := (bind m (fun x => k))
  (at level 100, m at next level, right associativity) : M_scope.
Notation "m ;;; k" := (bind m (fun _ => k))
  (at level 100, right associativity) : M_scope.

(** [with transaction.atomic(): body]: an exception leaving the block
    restores the database as it was on entry. *)
Definition atomic {A} (body : M A) : M A :=
  fun w =>
    match body w with
    | (w', Ok a) => (w', Ok a)
    | (w', Raise e) => ({| db := db w; calls := calls w' |}, Raise e)
    end.

Section Storage.

Variable faults : nat -> bool.

Definition store_call {A} (op : DB -> DB * A) : M A :=
  fun w =>
    if faults (calls w)
    then ({| db := db w; calls := S (calls w) |}, Raise StoreError)
    else
      let '(d, a) := op (db w) in
      ({| db := d; calls := S (calls w) |}, Ok a).

Definition set_listings (d : DB) (ls : gmap (list N) Listing) : DB :=
  {| listings := ls; photos := photos d; fetch_logs := fetch_logs d |}.

Definition set_photos (d : DB) (ps : list ListingPhoto) : DB :=
  {| listings := listings d; photos := ps; fetch_logs := fetch_logs d |}.

(** [Listing.objects.get_or_create(centris_id=id_, defaults=...)] *)
Definition get_or_create (id_ : pystr) (defaults : Listing) : M (Listing * bool) :=
  store_call (fun d =>
    match listings d !! id_ with
    | Some obj => (d, (obj, false))
    | None => (set_listings d (<[id_ := defaults]> (listings d)), (defaults, true))
    end).

Definition with_slug (obj : Listing) (s : pystr) : Listing :=
  {| slug := s; prix := prix obj; adresse := adresse obj;
     nombre_pieces := nombre_pieces obj; nombre_chambres := nombre_chambres obj;
     nombre_sdb := nombre_sdb obj;
     superficie_habitable := superficie_habitable obj;
     superficie_terrain := superficie_terrain obj;
     annee_construction := annee_construction obj; inclus := inclus obj;
     description := description obj; proximites_text := proximites_text obj;
     proximites := proximites obj;
     caracteristiques_text := caracteristiques_text obj;
     caracteristiques := caracteristiques obj; status := status obj;
     sold_at := sold_at obj; last_seen_at := last_seen_at obj |}.

(** [obj.save(update_fields=["slug"])] *)
Definition save_slug (id_ : pystr) (obj : Listing) : M unit :=
  store_call (fun d =>
    (set_listings d (alter (fun row => with_slug row (slug obj)) id_ (listings d)), tt)).

(** [obj.save()] *)
Definition save (id_ : pystr) (obj : Listing) : M unit :=
  store_call (fun d => (set_listings d (<[id_ := obj]> (listings d)), tt)).

(** [ListingPhoto.objects.filter(listing=obj).delete()] *)
Definition delete_photos (id_ : pystr) : M unit :=
  store_call (fun d =>
    (set_photos d (filter (fun p => listing p ≠ id_) (photos d)), tt)).

(** [ListingPhoto.objects.bulk_create(new)] *)
Definition bulk_create (new : list ListingPhoto) : M unit :=
  store_call (fun d => (set_photos d (photos d ++ new), tt)).

Definition sold (now : Z) (obj : Listing) : Listing :=
  {| slug := slug obj; prix := prix obj; adresse := adresse obj;
     nombre_pieces := nombre_pieces obj; nombre_chambres := nombre_chambres obj;
     nombre_sdb := nombre_sdb obj;
     superficie_habitable := superficie_habitable obj;
     superficie_terrain := superficie_terrain obj;
     annee_construction := annee_construction obj; inclus := inclus obj;
     description := description obj; proximites_text := proximites_text obj;
     proximites := proximites obj;
     caracteristiques_text := caracteristiques_text obj;
     caracteristiques := caracteristiques obj; status := STATUS_SOLD;
     sold_at := Some now; last_seen_at := last_seen_at obj |}.

(** The rows selected by
    [filter(status=ACTIVE).exclude(centris_id__in=seen_ids)]. *)
Definition to_retire (seen_ids : gset (list N)) (id_ : pystr) (obj : Listing) : bool :=
  bool_decide (status obj = STATUS_ACTIVE) && negb (bool_decide (id_ ∈ seen_ids)).

(** [sold_qs.update(status=SOLD, sold_at=now)], which returns the number of
    rows matched. *)
Definition mark_sold (seen_ids : gset (list N)) (now : Z) : M nat :=
  store_call (fun d =>
    (set_listings d
       (map_imap (fun id_ obj =>
                    Some (if to_retire seen_ids id_ obj then sold now obj else obj))
          (listings d)),
     size (filter (fun kv => to_retire seen_ids kv.1 kv.2 = true) (listings d)))).

(** [FetchLog.objects.create(...)] *)
Definition create_fetch_log (entry : FetchLog) : M unit :=
  store_call (fun d =>
    ({| listings := listings d; photos := photos d;
        fetch_logs := fetch_logs d ++ [entry] |}, tt)).

End Storage.

(** ** [Command.handle]: parse and import *)

(** The tables decoded from the archive.  A missing table reads as the
    empty list; [ADDENDA.TXT] is opened again for every listing and may be
    absent. *)
Record Bundle := {
  rows_ins : list row;
  rows_rem : list row;
  rows_car : list row;
  rows_pho : list row;
  rows_uni : list row;
  rows_pie : list row;
  addenda_rows : option (list row)
}.

(** The values [handle] derives from one primary row. *)
Record Extracted := {
  x_prix : option Z;
  x_adresse : pystr;
  x_annee : option Z;
  x_descr : pystr;
  x_proximites_text : pystr;
  x_proximites_arr : list pystr;
  x_car_text : pystr;
  x_car_arr : list import_centris.carac;
  x_n_pieces : option Z;
  x_n_chambres : option Z;
  x_n_sdb : option Z
}.

(** The local variables the loop of [handle] updates. *)
Record Locals := {
  l_items_total : nat;
  l_added : nat;
  l_updated : nat;
  l_seen_ids : gset (list N)
}.

(** What one fetch hands over to the import, and the clock readings. *)
Record RunInfo := {
  r_base_url : pystr;
  r_source_name : pystr;
  r_file_date : option Z;
  r_now : Z;
  r_duration : Z;
  r_do_mark_sold : bool
}.

Record Totals := {
  t_items_total : nat;
  t_added : nat;
  t_updated : nat;
  t_marked_sold : nat
}.

#[global] Instance Totals_eq_dec : EqDecision Totals.
Proof. solve_decision. Defined.

Section Command.

Import import_centris.

(** [django.utils.text.slugify] *)
Variable slugify : pystr -> pystr.
Variable faults : nat -> bool.

Local Open Scope M_scope.

(** [Listing.ensure_slug] *)
Definition ensure_slug (id_ : pystr) (obj : Listing) : Listing :=
  if truthy (slug obj) then obj
  else with_slug obj (take 64 (slugify (py "listing-" ++ id_))).

Definition extract_row (b : Bundle) (r : row) (id_ : pystr) : result Extracted :=
  rbind (extract_price r) (fun prix_ =>
  let adresse_ := or_else (extract_address r) [] in
  rbind (extract_year r) (fun annee =>
  let descr :=
    or_else (extract_description (rows_of (group_by_id (rows_rem b)) id_)) [] in
  let addenda_txt := or_else (extract_addenda (addenda_rows b) id_) [] in
  let '(proximites_text_, proximites_arr) :=
    extract_proximites addenda_txt (rows_of (group_by_id (rows_car b)) id_) in
  let '(car_text, car_arr) :=
    build_caracteristiques (rows_of (group_by_id (rows_car b)) id_) in
  rbind (extract_units (rows_of (group_by_id (rows_uni b)) id_)
           (rows_of (group_by_id (rows_pie b)) id_)) (fun '(n_pieces, n_chambres, n_sdb) =>
  Ok {| x_prix := prix_; x_adresse := adresse_; x_annee := annee;
        x_descr := descr; x_proximites_text := proximites_text_;
        x_proximites_arr := proximites_arr; x_car_text := car_text;
        x_car_arr := car_arr; x_n_pieces := n_pieces;
        x_n_chambres := n_chambres; x_n_sdb := n_sdb |}))).

(** The [defaults] of [get_or_create]. *)
Definition new_listing (id_ : pystr) (e : Extracted) (now : Z) : Listing :=
  {| slug := py "listing-" ++ id_; prix := x_prix e; adresse := x_adresse e;
     nombre_pieces := x_n_pieces e; nombre_chambres := x_n_chambres e;
     nombre_sdb := x_n_sdb e; superficie_habitable := None;
     superficie_terrain := None; annee_construction := x_annee e;
     inclus := []; description := x_descr e;
     proximites_text := x_proximites_text e; proximites := x_proximites_arr e;
     caracteristiques_text := x_car_text e; caracteristiques := x_car_arr e;
     status := STATUS_ACTIVE; sold_at := None; last_seen_at := Some now |}.

(** The assignments of the [else] branch, before [ensure_slug]. *)
Definition refreshed (obj : Listing) (e : Extracted) (now : Z) : Listing :=
  {| slug := slug obj; prix := x_prix e; adresse := x_adresse e;
     nombre_pieces := x_n_pieces e; nombre_chambres := x_n_chambres e;
     nombre_sdb := x_n_sdb e; superficie_habitable := None;
     superficie_terrain := None; annee_construction := x_annee e;
     inclus := []; description := x_descr e;
     proximites_text := x_proximites_text e; proximites := x_proximites_arr e;
     caracteristiques_text := x_car_text e; caracteristiques := x_car_arr e;
     status := STATUS_ACTIVE; sold_at := None; last_seen_at := Some now |}.

(** [[ListingPhoto(listing=obj, sequence=(i + 1), url=u)
      for i, (_, u) in enumerate(photos)]] *)
Definition numbered (id_ : pystr) (found : list (Z * pystr)) : list ListingPhoto :=
  imap (fun i su => {| listing := id_; sequence := S i; url := su.2 |}) found.

(** One iteration of [for row in rows_ins]. *)
Definition import_row (b : Bundle) (now : Z) (r : row) (st : Locals) : M Locals :=
  match r with
  | [] => ret st
  | f0 :: _ =>
      if negb (truthy (clean f0)) then ret st
      else
        let id_ := clean f0 in
        let st :=
          {| l_items_total := S (l_items_total st); l_added := l_added st;
             l_updated := l_updated st;
             l_seen_ids := {[id_]} ∪ l_seen_ids st |} in
        e <- lift (extract_row b r id_) ;;
        oc <- get_or_create faults id_ (new_listing id_ e now) ;;
        let '(obj, created) := oc in
        st' <- (if created : bool then
                  let obj := ensure_slug id_ obj in
                  save_slug faults id_ obj ;;;
                  ret {| l_items_total := l_items_total st;
                         l_added := S (l_added st);
                         l_updated := l_updated st;
                         l_seen_ids := l_seen_ids st |}
                else
                  let obj := ensure_slug id_ (refreshed obj e now) in
                  save faults id_ obj ;;;
                  ret {| l_items_total := l_items_total st;
                         l_added := l_added st;
                         l_updated := S (l_updated st);
                         l_seen_ids := l_seen_ids st |}) ;;
        let found := extract_photos (rows_of (group_by_id (rows_pho b)) id_) in
        match found with
        | [] => ret st'
        | _ =>
            delete_photos faults id_ ;;;
            bulk_create faults (numbered id_ found) ;;;
            ret st'
        end
  end.

Fixpoint import_rows (b : Bundle) (now : Z) (rows : list row) (st : Locals)
    : M Locals :=
  match rows with
  | [] => ret st
  | r :: rest =>
      st' <- import_row b now r st ;;
      import_rows b now rest st'
  end.

(** The block under [with transaction.atomic():]. *)
Definition import_body (b : Bundle) (info : RunInfo) : M Totals :=
  st <- import_rows b (r_now info) (rows_ins b)
          {| l_items_total := 0; l_added := 0; l_updated := 0; l_seen_ids := ∅ |} ;;
  marked_sold <- (if r_do_mark_sold info
                  then mark_sold faults (l_seen_ids st) (r_now info)
                  else ret 0%nat) ;;
  create_fetch_log faults
    {| file_date := r_file_date info; source_url := r_base_url info;
       source_name := r_source_name info; items_total := l_items_total st;
       items_added := l_added st; items_updated := l_updated st;
       items_marked_sold := marked_sold;
       duration_seconds := r_duration info |} ;;;
  ret {| t_items_total := l_items_total st; t_added := l_added st;
         t_updated := l_updated st; t_marked_sold := marked_sold |}.

(** [Command.handle] from the comment [# Parse + import] on, given the
    tables read from the archive. *)
Definition handle (b : Bundle) (info : RunInfo) : M Totals :=
  atomic (import_body b info).

(** A run of [handle] on a database, counting storage calls from zero. *)
Definition run (b : Bundle) (info : RunInfo) (d : DB) : DB * result Totals :=
  let '(w, res) := handle b info {| db := d; calls := 0 |} in
  (db w, res).

End Command.

(** ** Derived notions used by the statements below *)

(** The cleaned identifier of a primary row, when the loop of [handle]
    does not skip the row. *)
Definition row_id (r : row) : option pystr :=
  match r with
  | [] => None
  | f0 :: _ => if truthy (clean f0) then Some (clean f0) else None
  end.

(** The identifiers a primary table puts into [seen_ids]. *)
Definition seen_of (rows : list row) : gset (list N) :=
  list_to_set (omap row_id rows).

(** The stored photos of one listing, in table order. *)
Definition photos_of (id_ : pystr) (ps : list ListingPhoto) : list ListingPhoto :=
  filter (fun p => listing p = id_) ps.

(** The photos [handle] extracts for a listing. *)
Definition found_photos (b : Bundle) (id_ : pystr) : list (Z * pystr) :=
  import_centris.extract_photos (rows_of (group_by_id (rows_pho b)) id_).

Section Effects.

Variable slugify : pystr -> pystr.

(** Effect of the create-or-update step on the listings table. *)
Definition upsert (id_ : pystr) (e : Extracted) (now : Z)
    (ls : gmap (list N) Listing) : gmap (list N) Listing :=
  match ls !! id_ with
  | Some obj => <[id_ := ensure_slug slugify id_ (refreshed obj e now)]> ls
  | None => <[id_ := ensure_slug slugify id_ (new_listing id_ e now)]> ls
  end.

(** Effect of the photo step on the photo table. *)
Definition replace_photos (id_ : pystr) (found : list (Z * pystr))
    (ps : list ListingPhoto) : list ListingPhoto :=
  match found with
  | [] => ps
  | _ => filter (fun p => listing p ≠ id_) ps ++ numbered id_ found
  end.

(** Effect of one loop iteration that raises nothing. *)
Definition after_row (b : Bundle) (now : Z) (r : row) (d : DB) : DB :=
  match row_id r with
  | None => d
  | Some id_ =>
      match extract_row b r id_ with
      | Ok e =>
          {| listings := upsert id_ e now (listings d);
             photos := replace_photos id_ (found_photos b id_) (photos d);
             fetch_logs := fetch_logs d |}
      | Raise _ => d
      end
  end.

Definition after_rows (b : Bundle) (now : Z) (rows : list row) (d : DB) : DB :=
  foldl (fun d r => after_row b now r d) d rows.

(** Effect of the retirement step on the listings table. *)
Definition retire (seen_ids : gset (list N)) (now : Z)
    (ls : gmap (list N) Listing) : gmap (list N) Listing :=
  map_imap (fun id_ obj =>
              Some (if to_retire seen_ids id_ obj then sold now obj else obj)) ls.

End Effects.

(** The columns of a catalog entry other than [last_seen_at]. *)
Definition same_content (a b : Listing) : Prop :=
  slug a = slug b /\ prix a = prix b /\ adresse a = adresse b
  /\ nombre_pieces a = nombre_pieces b
  /\ nombre_chambres a = nombre_chambres b
  /\ nombre_sdb a = nombre_sdb b
  /\ superficie_habitable a = superficie_habitable b
  /\ superficie_terrain a = superficie_terrain b
  /\ annee_construction a = annee_construction b
  /\ inclus a = inclus b /\ description a = description b
  /\ proximites_text a = proximites_text b /\ proximites a = proximites b
  /\ caracteristiques_text a = caracteristiques_text b
  /\ caracteristiques a = caracteristiques b
  /\ status a = status b /\ sold_at a = sold_at b.

(** ** Data for the statements on discovery *)

(** The three candidate dates of the fallback, in probing order. *)
Definition candidates (today : Z) : list Z := [today; today - 1; today - 2]%Z.


(** Three sessions: an index listing a past and a
    future date, an unreachable index with yesterday's file in place, and
    an unreachable index with nothing to find. *)
Definition session_listed : session :=
  {| list_zip_dates_from_index := fun _ => Ok [20390; 20394; 20400]%Z;
     try_head := fun _ => false;
     download_bytes := fun _ => Ok [] |}.

Definition session_yesterday : session :=
  {| list_zip_dates_from_index := fun _ => Raise RuntimeError;
     try_head := fun u => bool_decide (u = py "https://feed/centris/NOMADESMARKETING20251102.zip");
     download_bytes := fun _ => Ok [] |}.

Definition session_nothing : session :=
  {| list_zip_dates_from_index := fun _ => Ok [];
     try_head := fun _ => false;
     download_bytes := fun _ => Ok [] |}.

Definition feed_url : pystr := Eval vm_compute in py "https://feed/centris/".

(** ** Data for the statements on the import *)

(** A bundle with two listings; the first one comes twice, and has one
    proximity row and two photos listed out of order. *)
Definition demo_bundle : Bundle :=
  {| rows_ins :=
       [ [py "1001"; []; []; []; []; []; py "250000"];
         [py "1002"];
         [];
         [py " "];
         [py "1001"; []; []; []; []; []; py "255000"] ];
     rows_rem := [];
     rows_car := [[py "1001"; py "PROX"; py "AUTO"]];
     rows_pho :=
       [ [py "1001"; py "2"; []; []; []; []; py "http://img/b.jpg"];
         [py "1001"; py "1"; []; []; []; []; py "http://img/a.jpg"] ];
     rows_uni := [];
     rows_pie := [];
     addenda_rows := None |}.

Definition demo_info (now : Z) (mark : bool) : RunInfo :=
  {| r_base_url := feed_url;
     r_source_name := py "NOMADESMARKETING20251103.zip";
     r_file_date := Some 20395%Z;
     r_now := now;
     r_duration := 2%Z;
     r_do_mark_sold := mark |}.

Definition blank_listing (s : pystr) (st : Status) (sold_time : option Z)
    : Listing :=
  {| slug := s; prix := None; adresse := []; nombre_pieces := None;
     nombre_chambres := None; nombre_sdb := None; superficie_habitable := None;
     superficie_terrain := None; annee_construction := None; inclus := [];
     description := []; proximites_text := []; proximites := [];
     caracteristiques_text := []; caracteristiques := [];
     status := st; sold_at := sold_time; last_seen_at := Some 1%Z |}.

(** A catalog holding an active listing absent from [demo_bundle], a sold
    one present in it, each under a slug of its own, and a photo of each. *)
Definition demo_db : DB :=
  {| listings :=
       <[py "0900" := blank_listing (py "maison-0900") STATUS_ACTIVE None]>
         (<[py "1002" := blank_listing (py "condo-1002") STATUS_SOLD (Some 5%Z)]> ∅);
     photos :=
       [ {| listing := py "0900"; sequence := 1; url := py "http://img/old.jpg" |};
         {| listing := py "1002"; sequence := 1; url := py "http://img/kept.jpg" |} ];
     fetch_logs := [] |}.

Definition no_faults : nat -> bool := fun _ => false.
Definition fault_at (n : nat) : nat -> bool := fun k => bool_decide (k = n).

(** [slugify] on the identifiers used here, which are already slugs. *)
Definition demo_slugify : pystr -> pystr := fun s => s.

(** ** Counting, for the statements on the totals *)

(** The local variables after an iteration that raises nothing, given the
    listings table the iteration starts from. *)
Definition count_row (ls : gmap (list N) Listing) (r : row) (st : Locals) : Locals :=
  match row_id r with
  | None => st
  | Some id_ =>
      {| l_items_total := S (l_items_total st);
         l_added := match ls !! id_ with
                    | None => S (l_added st)
                    | Some _ => l_added st
                    end;
         l_updated := match ls !! id_ with
                      | None => l_updated st
                      | Some _ => S (l_updated st)
                      end;
         l_seen_ids := {[id_]} ∪ l_seen_ids st |}
  end.

Definition start_locals : Locals :=
  {| l_items_total := 0; l_added := 0; l_updated := 0; l_seen_ids := ∅ |}.

Section Counting.

Variable slugify : pystr -> pystr.

(** The locals after a whole table, by the same count. *)
Fixpoint count_rows_from (b : Bundle) (now : Z) (rows : list row)
    (d : DB) (st : Locals) : Locals :=
  match rows with
  | [] => st
  | r :: rest =>
      count_rows_from b now rest (after_row slugify b now r d)
        (count_row (listings d) r st)
  end.

End Counting.

(** ** Closed forms, for the statements on the catalog after a run *)

Section ClosedForms.

Variable slugify : pystr -> pystr.

(** The slug [ensure_slug] leaves in place of [s]. *)
Definition fix_slug (id_ : pystr) (s : pystr) : pystr :=
  if truthy s then s else take 64 (slugify (py "listing-" ++ id_)).

(** The row written for a listing seen in a run: every column comes from
    the extracted values, except the slug. *)
Definition entry (id_ : pystr) (e : Extracted) (now : Z) (s : pystr) : Listing :=
  with_slug (new_listing id_ e now) s.

(** The slug a listing enters the run with: the stored one, or the default
    of [get_or_create]. *)
Definition start_slug (ls : gmap (list N) Listing) (id_ : pystr) : pystr :=
  match ls !! id_ with
  | Some obj => slug obj
  | None => py "listing-" ++ id_
  end.

(** The values extracted from the last primary row carrying [id_]. *)
Fixpoint last_extracted (b : Bundle) (rows : list row) (id_ : pystr)
    : option Extracted :=
  match rows with
  | [] => None
  | r :: rest =>
      match last_extracted b rest id_ with
      | Some e => Some e
      | None =>
          if bool_decide (row_id r = Some id_) then
            match extract_row b r id_ with
            | Ok e => Some e
            | Raise _ => None
            end
          else None
      end
  end.

(** Every row of the table that is not skipped extracts without raising. *)
Definition extract_ok (b : Bundle) (rows : list row) : Prop :=
  Forall (fun r => forall id_, row_id r = Some id_ ->
                               exists e, extract_row b r id_ = Ok e) rows.

(** The [FetchLog] row a run writes for its totals. *)
Definition log_of (info : RunInfo) (t : Totals) : FetchLog :=
  {| file_date := r_file_date info; source_url := r_base_url info;
     source_name := r_source_name info; items_total := t_items_total t;
     items_added := t_added t; items_updated := t_updated t;
     items_marked_sold := t_marked_sold t;
     duration_seconds := r_duration info |}.

End ClosedForms.

(** A run of [demo_bundle] over [demo_db] at time 100 with retirement
    enabled and a storage that never fails, and the totals it reports. *)
Definition demo_run : DB * result Totals :=
  run demo_slugify no_faults demo_bundle (demo_info 100 true) demo_db.

Definition demo_totals : Totals :=
  {| t_items_total := 3; t_added := 1; t_updated := 2; t_marked_sold := 1 |}.

(** ** The claims' wording, for comparison with the code

    The definitions of this section are written from the words of the
    claims, without the patterns and the helpers of the importer. *)

(** The elements of a list, each at the place where it comes first. *)
Fixpoint first_occurrences (l : list pystr) : list pystr :=
  match l with
  | [] => []
  | x :: l' => x :: filter (fun y => y <> x) (first_occurrences l')
  end.

(** The pieces of a text between the characters [sep] accepts. *)
Fixpoint split_on (sep : N -> bool) (s : pystr) : list pystr :=
  match s with
  | [] => [[]]
  | c :: s' =>
      if sep c then [] :: split_on sep s'
      else
        match split_on sep s' with
        | p :: ps => (c :: p) :: ps
        | [] => [[c]]
        end
  end.

(** A semicolon or a comma. *)
Definition is_separator (c : N) : bool := ((c =? 59) || (c =? 44))%N.

(** A text in which every tag is replaced by [repl], from left to right;
    [tag_length] gives the length of the tag a text starts with, and [skip]
    counts the characters of the current tag still to be passed. *)
Fixpoint replace_tags (tag_length : pystr -> option nat) (repl : pystr)
    (skip : nat) (s : pystr) : pystr :=
  match s with
  | [] => []
  | c :: s' =>
      match skip with
      | S n => replace_tags tag_length repl n s'
      | O =>
          match tag_length s with
          | Some (S n) => repl ++ replace_tags tag_length repl n s'
          | _ => c :: replace_tags tag_length repl 0 s'
          end
      end
  end.

(** The number of characters up to the first [>] of a text, that one
    included, when no line end comes before it. *)
Fixpoint to_closing (s : pystr) : option nat :=
  match s with
  | [] => None
  | c :: s' =>
      if (c =? 62)%N then Some 1%nat
      else if (c =? NEWLINE)%N then None
      else S <$> to_closing s'
  end.

(** Embedded markup: [<] and what follows on the line up to the first
    [>]. *)
Definition markup_length (s : pystr) : option nat :=
  match s with
  | [] => None
  | c :: s' => if (c =? 60)%N then S <$> to_closing s' else None
  end.

Definition without_markup (s : pystr) : pystr :=
  replace_tags markup_length [] 0 s.

(** Line-break markup: [<br] in either case, whitespace, [>] or [/>]. *)
Definition line_break_length (s : pystr) : option nat :=
  match s with
  | c :: b :: r :: t =>
      if ((c =? 60) && (tolower b =? 98) && (tolower r =? 114))%N then
        let t' := lstrip_by isspace t in
        let ws := (length t - length t')%nat in
        match t' with
        | c1 :: t1 =>
            if (c1 =? 62)%N then Some (ws + 4)%nat
            else if (c1 =? 47)%N then
              match t1 with
              | c2 :: _ => if (c2 =? 62)%N then Some (ws + 5)%nat else None
              | [] => None
              end
            else None
        | [] => None
        end
      else None
  | _ => None
  end.

Definition breaks_to_spaces (s : pystr) : pystr :=
  replace_tags line_break_length [32%N] 0 s.

(** *** The description *)

(** The remarks rows flagged with the marker: seven columns at least and
    [F] in the third. *)
Definition flagged (r : row) : Prop :=
  (7 <= length r)%nat /\ clean (get r 2) = py "F".

#[global] Instance flagged_dec (r : row) : Decision (flagged r).
Proof. unfold flagged. apply _. Defined.

(** The sequence column of a remarks row read as a number and nothing
    else: an empty value is not a number. *)
Definition numeric_key (r : row) : result Z :=
  of_option ValueError (py_int (clean (get r 1))).

(** The number of a remarks row when an empty sequence value counts as 0,
    and [None] when the value does not read as an integer. *)
Definition sequence_number (r : row) : option Z :=
  match clean (get r 1) with
  | [] => Some 0%Z
  | s => py_int s
  end.

(** The text column of a remarks row: its last column, cleaned. *)
Definition remark_text (r : row) : pystr := clean (default [] (last r)).

(** The description made of rows taken in a given order: their non-empty
    texts joined with single spaces, each line-break tag replaced by a
    space, the result trimmed, an empty result being no description. *)
Definition description_of (ordered : list row) : option pystr :=
  let text :=
    strip (breaks_to_spaces
             (join [32%N] (filter (fun t => t <> []) (map remark_text ordered)))) in
  match text with
  | [] => None
  | _ => Some text
  end.

(** The description as first worded: the flagged rows, ordered by their
    sequence number when every sequence value is a number and left in
    encounter order otherwise. *)
Definition description_as_worded (remarques_rows : list row) : option pystr :=
  let chosen := filter flagged remarques_rows in
  description_of (try_sort numeric_key chosen).

(** *** The proximity fallback *)

(** Case-insensitive equality of two texts, character by character. *)
Definition ci_eq (a b : pystr) : Prop :=
  Forall2 (fun c l => tolower c = tolower l) a b.

(** The marker of the proximity fallback, as worded. *)
Definition MARKER : pystr := Eval vm_compute in py "À proximité:".

Fixpoint ci_startswith (s prefix : pystr) : bool :=
  match prefix, s with
  | [], _ => true
  | p :: prefix', c :: s' => (tolower c =? tolower p)%N && ci_startswith s' prefix'
  | _ :: _, [] => false
  end.

(** The text that follows the first case-insensitive occurrence of
    [MARKER]. *)
Fixpoint after_marker (text : pystr) : option pystr :=
  if ci_startswith text MARKER then Some (drop (length MARKER) text)
  else
    match text with
    | [] => None
    | _ :: rest => after_marker rest
    end.

(** A mention of the proximity at the start of a text: [à] in either
    case, whitespace, the word [proximité] in either case, and something
    after it. *)
Definition mention_at_start (s : pystr) : Prop :=
  exists a ws w tail,
    s = a :: ws ++ w ++ tail /\ tolower a = 224%N
    /\ Forall (fun c => isspace c = true) ws
    /\ ci_eq w (py "proximité") /\ tail <> [].

(** The items of a text: its pieces between semicolons and commas, each
    without its markup and its surrounding whitespace, the empty ones left
    out, each kept where it comes first. *)
Definition items_as_worded (seg : pystr) : list pystr :=
  first_occurrences
    (filter (fun item => item <> [])
       (map (fun piece => strip (without_markup piece))
          (split_on is_separator seg))).

(** The proximity list of the fallback as worded: the items of the text
    that follows the marker. *)
Definition proximity_as_worded (addenda_text : pystr) : list pystr :=
  match after_marker addenda_text with
  | Some rest => items_as_worded rest
  | None => []
  end.

(** The text group 1 captures when the pattern of the fallback matches a
    marker followed by [rest]: [rest] without its leading whitespace, or
    its last character when it is all whitespace. *)
Definition segment_of (rest : pystr) : pystr :=
  match lstrip_by isspace rest with
  | [] =>
      match last rest with
      | Some c => [c]
      | None => []
      end
  | seg => seg
  end.

(** *** The characteristics *)

(** The entry of a characteristics row: the labels of its category and of
    its value, or the codes themselves where the tables have no label. *)
Definition entry_of_row (r : row) : import_centris.carac :=
  {| import_centris.cat :=
       dict_get_or_key import_centris.CAT_LABEL (clean (get r 1));
     import_centris.val :=
       dict_get_or_key import_centris.VAL_LABEL (clean (get r 2)) |}.

(** A row of the characteristics table that carries a proximity, and one
    that carries a characteristic. *)
Definition proximity_row (r : row) : Prop :=
  (3 <= length r)%nat /\ clean (get r 1) = import_centris.PROX.

Definition characteristic_row (r : row) : Prop :=
  (3 <= length r)%nat /\ clean (get r 1) <> import_centris.PROX.

#[global] Instance proximity_row_dec (r : row) : Decision (proximity_row r).
Proof. unfold proximity_row. apply _. Defined.

#[global] Instance characteristic_row_dec (r : row) : Decision (characteristic_row r).
Proof. unfold characteristic_row. apply _. Defined.


(** ** Dates written as [%Y%m%d] *)

(** Day number, counted from 1970-01-01, of a civil date. *)
Definition days_of_civil (y m d : Z) : Z :=
  let y := (if m <=? 2 then y - 1 else y)%Z in
  let era := (y / 400)%Z in
  let yoe := (y - era * 400)%Z in
  let mp := (if 2 <? m then m - 3 else m + 9)%Z in
  let doy := ((153 * mp + 2) / 5 + d - 1)%Z in
  let doe := (yoe * 365 + yoe / 4 - yoe / 100 + doy)%Z in
  (era * 146097 + doe - 719468)%Z.

Definition is_leap (y : Z) : bool :=
  ((y mod 4 =? 0) && (negb (y mod 100 =? 0) || (y mod 400 =? 0)))%Z.

Definition days_in_month (y m : Z) : Z :=
  if (m =? 2)%Z then (if is_leap y then 29 else 28)%Z
  else if ((m =? 4) || (m =? 6) || (m =? 9) || (m =? 11))%Z then 30%Z
  else 31%Z.

(** A month from 1 to 12 and a day of that month. *)
Definition valid_date (y m d : Z) : Prop :=
  (1 <= m <= 12)%Z /\ (1 <= d <= days_in_month y m)%Z.

(** An ASCII digit from [lo] to [hi], with its value. *)
Definition ascii_digit (lo hi : N) (c : N) : option Z :=
  if ((lo <=? c) && (c <=? hi))%N then Some (Z.of_N c - 48)%Z else None.

(** The first alternative that matches. *)
Fixpoint first_of {A} (alts : list (option A)) : option A :=
  match alts with
  | [] => None
  | Some a :: _ => Some a
  | None :: rest => first_of rest
  end.

(** Two characters at the start of a text, read by [f1] and [f2] into the
    number [10 * v1 + v2], and the text left. *)
Definition two_chars (f1 f2 : N -> option Z) (s : list N) : option (Z * list N) :=
  match s with
  | c1 :: c2 :: rest =>
      match f1 c1, f2 c2 with
      | Some v1, Some v2 => Some (10 * v1 + v2, rest)%Z
      | _, _ => None
      end
  | _ => None
  end.

Definition one_char (f : N -> option Z) (s : list N) : option (Z * list N) :=
  match s with
  | c :: rest => (fun v => (v, rest)) <$> f c
  | [] => None
  end.

(** A space, read as 0. *)
Definition blank (c : N) : option Z := if (c =? 32)%N then Some 0%Z else None.

(** [%m] is the pattern [1[0-2]|0[1-9]|[1-9]]: the alternatives that match
    at the start of a text, in their order, each with the month it reads
    and the text it leaves. *)
Definition month_matches (s : list N) : list (Z * list N) :=
  omap id [ two_chars (ascii_digit 49 49) (ascii_digit 48 50) s;
            two_chars (ascii_digit 48 48) (ascii_digit 49 57) s;
            one_char (ascii_digit 49 57) s ].

(** [%d] is the pattern [3[0-1]|[1-2]\d|0[1-9]|[1-9]| [1-9]]: the first
    alternative that matches at the start of a text. *)
Definition day_match (s : list N) : option (Z * list N) :=
  first_of [ two_chars (ascii_digit 51 51) (ascii_digit 48 49) s;
             two_chars (ascii_digit 49 50) decimal_value s;
             two_chars (ascii_digit 48 48) (ascii_digit 49 57) s;
             one_char (ascii_digit 49 57) s;
             two_chars blank (ascii_digit 49 57) s ].

(** The month and the day read after the year, and the text left: the
    alternatives of the month are tried in their order until the day
    matches after one of them. *)
Definition month_and_day (s : list N) : option (Z * Z * list N) :=
  head (omap (fun '(m, s') => (fun '(dd, s'') => (m, dd, s'')) <$> day_match s')
          (month_matches s)).

(** [datetime.strptime(ymd, "%Y%m%d").date()]: the text is matched against
    [(?P<Y>\d\d\d\d)(?P<m>...)(?P<d>...)]; characters left after the match,
    a day the month does not have, and the year 0 are a [ValueError], as is
    a text that does not match. *)
Definition strptime_ymd (ymd : list N) : result Z :=
  match ymd with
  | y1 :: y2 :: y3 :: y4 :: s =>
      match decimal_value y1, decimal_value y2, decimal_value y3, decimal_value y4 with
      | Some a, Some b, Some c, Some d =>
          let y := (((a * 10 + b) * 10 + c) * 10 + d)%Z in
          match month_and_day s with
          | Some (m, dd, []) =>
              if ((1 <=? y) && (dd <=? days_in_month y m))%Z
              then Ok (days_of_civil y m dd) else Raise ValueError
          | _ => Raise ValueError
          end
      | _, _, _, _ => Raise ValueError
      end
  | _ => Raise ValueError
  end.

(** The character of a digit. *)
Definition digit_char (k : Z) : N := Z.to_N (48 + k).

(** The first and the last day of the years [strftime] writes on four
    digits: 1000-01-01 and 9999-12-31. *)
Definition FIRST_DAY : Z := (-354285)%Z.
Definition LAST_DAY : Z := 2932896%Z.


(** ** Further notions on the catalog *)

(** The columns of a catalog entry other than [status] and [sold_at]. *)
Definition same_but_status (a b : Listing) : Prop :=
  slug a = slug b /\ prix a = prix b /\ adresse a = adresse b
  /\ nombre_pieces a = nombre_pieces b
  /\ nombre_chambres a = nombre_chambres b
  /\ nombre_sdb a = nombre_sdb b
  /\ superficie_habitable a = superficie_habitable b
  /\ superficie_terrain a = superficie_terrain b
  /\ annee_construction a = annee_construction b
  /\ inclus a = inclus b /\ description a = description b
  /\ proximites_text a = proximites_text b /\ proximites a = proximites b
  /\ caracteristiques_text a = caracteristiques_text b
  /\ caracteristiques a = caracteristiques b
  /\ last_seen_at a = last_seen_at b.

(** [sold_at] is set on the sold entries and on no other. *)
Definition sold_at_iff_sold (ls : gmap (list N) Listing) : Prop :=
  forall id_ l, ls !! id_ = Some l -> (status l = STATUS_SOLD <-> sold_at l <> None).

(** The columns of a catalog entry that [handle] assigns from the values
    extracted for a row. *)
Definition carries (l : Listing) (e : Extracted) : Prop :=
  prix l = x_prix e /\ adresse l = x_adresse e
  /\ nombre_pieces l = x_n_pieces e /\ nombre_chambres l = x_n_chambres e
  /\ nombre_sdb l = x_n_sdb e
  /\ superficie_habitable l = None /\ superficie_terrain l = None
  /\ annee_construction l = x_annee e /\ inclus l = []
  /\ description l = x_descr e
  /\ proximites_text l = x_proximites_text e
  /\ proximites l = x_proximites_arr e
  /\ caracteristiques_text l = x_car_text e
  /\ caracteristiques l = x_car_arr e.

(** The run of [demo_bundle] over [demo_db] with retirement switched off. *)
Definition demo_run_off : DB * result Totals :=
  run demo_slugify no_faults demo_bundle (demo_info 100 false) demo_db.

Definition demo_totals_off : Totals :=
  {| t_items_total := 3; t_added := 1; t_updated := 2; t_marked_sold := 0 |}.

(** [demo_bundle] with a price written in superscript digits on the row of
    listing 1002: [isdigit] accepts the column and [int] rejects it. *)
Definition superscript_row : list (list N) :=
  [py "1002"; []; []; []; []; []; [178%N; 185%N]].

Definition superscript_bundle : Bundle :=
  {| rows_ins :=
       [ [py "1001"; []; []; []; []; []; py "250000"]; superscript_row ];
     rows_rem := rows_rem demo_bundle;
     rows_car := rows_car demo_bundle;
     rows_pho := rows_pho demo_bundle;
     rows_uni := rows_uni demo_bundle;
     rows_pie := rows_pie demo_bundle;
     addenda_rows := addenda_rows demo_bundle |}.

(** ** Further notions on the extraction helpers *)

(** A field [extract_year] takes for the year [y]: four characters that
    [isdigit] accepts, read by [int] as a number from 1800 to 2035. *)
Definition year_field (v : list N) (y : Z) : Prop :=
  length (clean v) = 4%nat /\ isdigit (clean v) = true
  /\ py_int (clean v) = Some y /\ (1800 <= y <= 2035)%Z.

(** A character [clean] may take off the ends of a field. *)
Definition trimmed_char (c : N) : Prop := isspace c = true \/ c = QUOTE.

(** ** The index page *)

(** [r'NOMADESMARKETING(\d{8})\.zip'], used without flags *)
Definition INDEX_RE : regex :=
  (lits (py "NOMADESMARKETING")
   ⋅ Group (Atom Digit ⋅ Atom Digit ⋅ Atom Digit ⋅ Atom Digit
            ⋅ Atom Digit ⋅ Atom Digit ⋅ Atom Digit ⋅ Atom Digit)
   ⋅ Atom (Lit 46) ⋅ lits (py "zip"))%re.

(** [re.finditer(r, s)]: the groups of the leftmost non-overlapping
    matches; [skip] counts the characters of the current match still to be
    passed. *)
Fixpoint re_finditer_aux (fl : flags) (r : regex) (skip : nat) (s : list N)
    : list (list (list N)) :=
  match s with
  | [] =>
      match skip, match_at fl r [] with
      | O, Some (caps, _) => [caps]
      | _, _ => []
      end
  | c :: s' =>
      match skip with
      | S n => re_finditer_aux fl r n s'
      | O =>
          match match_at fl r s with
          | Some (caps, rest) =>
              caps :: re_finditer_aux fl r (pred (length s - length rest)) s'
          | None => re_finditer_aux fl r 0 s'
          end
      end
  end.

Definition re_finditer (fl : flags) (r : regex) (s : list N)
    : list (list (list N)) :=
  re_finditer_aux fl r 0 s.

(** The name of the archive for the digits [ymd]. *)
Definition zip_name (ymd : list N) : list N :=
  py "NOMADESMARKETING" ++ ymd ++ py ".zip".

(** [list_zip_dates_from_index] from the text of the page on: the dates
    that parse are collected in a set, which is returned sorted. *)
Definition index_dates (text : list N) : list Z :=
  let dates :=
    foldl (fun (dates : gset Z) m =>
             match strptime_ymd (group1 m) with
             | Ok d => {[d]} ∪ dates
             | Raise _ => dates
             end) ∅ (re_finditer import_centris.NO_FLAGS INDEX_RE text) in
  sort_by (fun d => d) (elements dates).

(** What the server answers: the text of a page ([session.get] followed by
    [raise_for_status], or the exception either raises), the status of a
    [HEAD] request ([None] for a [RequestException]), the body of a
    download (or the exception of the request). *)
Record network := {
  get_text : list N -> result (list N);
  head_status : list N -> option nat;
  get_bytes : list N -> result (list N)
}.

(** [list_zip_dates_from_index], [try_head] and [download_bytes] over a
    network. *)
Definition session_on (net : network) : session :=
  {| list_zip_dates_from_index :=
       fun base_url => rbind (get_text net base_url) (fun text => Ok (index_dates text));
     try_head :=
       fun url => match head_status net url with
                  | Some code => (code =? 200)%nat
                  | None => false
                  end;
     download_bytes := get_bytes net |}.

(** [url.rsplit("/", 1)[-1]]: what follows the last [sep], or all of the
    text when it has none. *)
Fixpoint after_last (sep : N) (s : list N) : list N :=
  match s with
  | [] => []
  | c :: s' =>
      if bool_decide (sep ∈ s') then after_last sep s'
      else if (c =? sep)%N then s' else s
  end.

Definition SLASH : N := 47%N.

(** ** [Command.handle]: options and fetch loop *)

(** The options of the command, as [add_arguments] declares them. *)
Record Options := {
  opt_base_url : list N;
  opt_retries : Z;
  opt_retry_seconds : Z;
  opt_save_zip_dir : list N;
  opt_no_mark_sold : bool
}.

(** What [handle] does outside the database; console output is left
    out. *)
Inductive event :=
  | Sent (r : request)
  | Slept (seconds : Z)
  | Wrote (path : list N).

(** The world outside the database during one run: the network as it
    answers during each attempt, and what creating the directory and
    writing the archive does at that attempt. *)
Record outside := {
  net_at : nat -> network;
  write_at : nat -> list N -> result unit
}.

(** The variables the fetch loop assigns. *)
Record Fetched := {
  f_last_err : option exn;
  f_source_name : list N;
  f_file_date : option Z;
  f_data_bytes : option (list N)
}.

Definition failed (st : Fetched) (e : exn) : Fetched :=
  {| f_last_err := Some e; f_source_name := f_source_name st;
     f_file_date := f_file_date st; f_data_bytes := f_data_bytes st |}.

(** One pass through the body of the [for attempt in range(1, retries + 1)]
    loop, up to the [break] ([true]) or to the end of the [except] clause
    without its [sleep] ([false]). *)
Definition try_fetch (out : outside) (base_url : list N) (today : Z)
    (save_zip_dir : list N) (attempt : nat) (st : Fetched)
    : list event * Fetched * bool :=
  let s := session_on (net_at out attempt) in
  match find_latest_available s base_url today with
  | (reqs, Raise e) => (map Sent reqs, failed st e, false)
  | (reqs, Ok (url, d)) =>
      let st1 :=
        {| f_last_err := f_last_err st; f_source_name := after_last SLASH url;
           f_file_date := Some d; f_data_bytes := f_data_bytes st |} in
      match download_bytes s url with
      | Raise e => (map Sent reqs ++ [Sent (Download url)], failed st1 e, false)
      | Ok data =>
          let st2 :=
            {| f_last_err := f_last_err st1; f_source_name := f_source_name st1;
               f_file_date := f_file_date st1; f_data_bytes := Some data |} in
          if truthy save_zip_dir then
            let path :=
              rstrip_chars [SLASH] save_zip_dir ++ [SLASH] ++ f_source_name st1 in
            match write_at out attempt path with
            | Ok _ =>
                (map Sent reqs ++ [Sent (Download url); Wrote path], st2, true)
            | Raise e =>
                (map Sent reqs ++ [Sent (Download url)], failed st2 e, false)
            end
          else (map Sent reqs ++ [Sent (Download url)], st2, true)
      end
  end.

(** The loop from [attempt] on, with [todo] passes left. *)
Fixpoint fetch_loop (out : outside) (base_url : list N) (today : Z)
    (retries retry_seconds : Z) (save_zip_dir : list N)
    (attempt todo : nat) (st : Fetched) : list event * Fetched :=
  match todo with
  | O => ([], st)
  | S todo' =>
      let '(evs, st', stop) :=
        try_fetch out base_url today save_zip_dir attempt st in
      if stop : bool then (evs, st')
      else
        let nap :=
          if (Z.of_nat attempt <? retries)%Z then [Slept retry_seconds] else [] in
        let '(evs', st'') :=
          fetch_loop out base_url today retries retry_seconds save_zip_dir
            (S attempt) todo' st' in
        (evs ++ nap ++ evs', st'')
  end.

Definition not_fetched : Fetched :=
  {| f_last_err := None; f_source_name := []; f_file_date := None;
     f_data_bytes := None |}.

(** [handle] up to the test [if data_bytes is None]. *)
Definition fetch (out : outside) (o : Options) (today : Z)
    : list event * result (Fetched * list N) :=
  let base_url := strip (opt_base_url o) in
  let retries := Z.max 1 (opt_retries o) in
  let retry_seconds := Z.max 0 (opt_retry_seconds o) in
  let save_zip_dir := strip (opt_save_zip_dir o) in
  let '(evs, st) :=
    fetch_loop out base_url today retries retry_seconds save_zip_dir
      1 (Z.to_nat retries) not_fetched in
  match f_data_bytes st with
  | None => (evs, Raise CommandError)
  | Some data => (evs, Ok (st, data))
  end.

Section WholeCommand.

Variable slugify : list N -> list N.
Variable faults : nat -> bool.

(** [zipfile.ZipFile(BytesIO(data_bytes))] and the [read_csv_from_zip]
    calls: the tables of an archive, or the exception the archive library
    raises on its bytes. *)
Variable read_archive : list N -> result Bundle.

(** [Command.handle] as a whole on a database, given the readings of the
    clock ([today] is [now.date()]); storage calls are counted from zero. *)
Definition command (out : outside) (o : Options) (now : Z) (today : Z)
    (duration : Z) (d : DB) : list event * (DB * result Totals) :=
  match fetch out o today with
  | (evs, Raise e) => (evs, (d, Raise e))
  | (evs, Ok (st, data)) =>
      match read_archive data with
      | Raise e => (evs, (d, Raise e))
      | Ok b =>
          (evs,
           run slugify faults b
             {| r_base_url := strip (opt_base_url o);
                r_source_name := f_source_name st;
                r_file_date := f_file_date st;
                r_now := now;
                r_duration := duration;
                r_do_mark_sold := negb (opt_no_mark_sold o) |} d)
      end
  end.

End WholeCommand.

(** The requests and the naps among the events of a run. *)
Definition is_index_request (e : event) : bool :=
  match e with Sent (GetIndex _) => true | _ => false end.

Definition is_download (e : event) : bool :=
  match e with Sent (Download _) => true | _ => false end.

Definition is_nap (e : event) : bool :=
  match e with Slept _ => true | _ => false end.

(** The attempts from [k] on, [n] of them. *)
Definition attempts (k n : nat) : list nat := seq k n.

(** ** Data for the statements on discovery over a network *)

(** A page naming the archive of 2025-11-03 and an archive whose digits
    are no date. *)
Definition page_listed : list N :=
  py "<a href=NOMADESMARKETING20251103.zip>3</a> <a href=NOMADESMARKETING20251301.zip>x</a>".

Definition net_listed : network :=
  {| get_text := fun _ => Ok page_listed;
     head_status := fun _ => None;
     get_bytes := fun _ => Ok [80; 75]%N |}.

(** A page naming the archive of 2025-11-03 with its year in Arabic-Indic
    digits. *)
Definition page_arabic : list N :=
  py "<a href=NOMADESMARKETING٢٠٢٥1103.zip>3</a>".

Definition net_arabic : network :=
  {| get_text := fun _ => Ok page_arabic;
     head_status := fun _ => None;
     get_bytes := fun _ => Ok [80; 75]%N |}.

(** A page naming no archive, on a server where yesterday's archive
    answers 200 and today's 404. *)
Definition net_unlisted : network :=
  {| get_text := fun _ => Ok (py "<html>no archive yet</html>");
     head_status :=
       fun u => if bool_decide (u = py "https://feed/centris/NOMADESMARKETING20251102.zip")
                then Some 200%nat else Some 404%nat;
     get_bytes := fun _ => Ok [80; 75]%N |}.

(** A server that answers nothing. *)
Definition net_down : network :=
  {| get_text := fun _ => Raise RuntimeError;
     head_status := fun _ => None;
     get_bytes := fun _ => Raise RuntimeError |}.

(** The number of events of one kind. *)
Definition count_events (kind : event -> bool) (evs : list event) : nat :=
  length (filter (fun e => kind e = true) evs).

(** The outcome of the attempt numbered [k]: resolution, then download. *)
Definition attempt_outcome (out : outside) (base_url : list N) (today : Z)
    (k : nat) : result (list N * Z * list N) :=
  snd (fetch_attempt (session_on (net_at out k)) base_url today).

(** The recorded name is the name of the archive of the recorded date, and
    data are held only together with a date. *)
Definition names_its_date (st : Fetched) : Prop :=
  (forall d, f_file_date st = Some d ->
             f_source_name st = zip_name (strftime_ymd d))
  /\ (f_data_bytes st <> None -> f_file_date st <> None).

(** ** Data for the statements on the fetch loop *)

(** Two attempts against a server that answers nothing, then the page of
    [net_listed]. *)
Definition out_late : outside :=
  {| net_at := fun k => if (k <=? 2)%nat then net_down else net_listed;
     write_at := fun _ _ => Ok tt |}.

Definition out_down : outside :=
  {| net_at := fun _ => net_down; write_at := fun _ _ => Ok tt |}.

Definition demo_options (n : Z) : Options :=
  {| opt_base_url := py " https://feed/centris/ ";
     opt_retries := n;
     opt_retry_seconds := 300;
     opt_save_zip_dir := [];
     opt_no_mark_sold := false |}.

(** A server whose page names the archive of 2025-11-04 and whose
    downloads fail. *)
Definition page_next : list N :=
  py "<a href=NOMADESMARKETING20251104.zip>4</a>".

Definition net_next_down : network :=
  {| get_text := fun _ => Ok page_next;
     head_status := fun _ => None;
     get_bytes := fun _ => Raise RuntimeError |}.

(** A first attempt that downloads the archive of 2025-11-03 and cannot
    save its copy, then attempts against [net_next_down]. *)
Definition out_unsaved : outside :=
  {| net_at := fun k => if (k <=? 1)%nat then net_listed else net_next_down;
     write_at := fun _ _ => Raise RuntimeError |}.

Definition save_options : Options :=
  {| opt_base_url := py "https://feed/centris/";
     opt_retries := 2;
     opt_retry_seconds := 0;
     opt_save_zip_dir := py "/var/zips";
     opt_no_mark_sold := false |}.

(** The archive library on the bytes [net_listed] serves. *)
Definition demo_read_archive (data : list N) : result Bundle :=
  if bool_decide (data = [80; 75]%N) then Ok demo_bundle else Raise RuntimeError.

(** ** [parse_centris_zip.py]: [parse_zipfile_to_json] *)

(** One entry of the list [parse_zipfile_to_json] returns: an
    [OrderedDict] with these keys, in this order. *)
Record Rec := {
  rec_id : list N;
  rec_slug : list N;
  rec_prix : option Z;
  rec_adresse : option (list N);
  rec_nombre_pieces : option Z;
  rec_nombre_chambres : option Z;
  rec_nombre_sdb : option Z;
  rec_superficie_habitable : option Z;
  rec_superficie_terrain : option Z;
  rec_annee_construction : option Z;
  rec_inclus : option (list N);
  rec_description : option (list N);
  rec_proximites : option (list N);
  rec_photos : option (list N);
  rec_caracteristiques : option (list N)
}.

(** The body of the loop over the primary table, for a row that is not
    skipped; the values are computed in the order of the assignments. *)
Definition record_of (b : Bundle) (r : list (list N)) (id_ : list N) : result Rec :=
  rbind (parse_centris_zip.extract_price r) (fun prix_ =>
  let adresse_ := parse_centris_zip.extract_address r in
  rbind (parse_centris_zip.extract_units
           (rows_of (group_by_id (rows_uni b)) id_)
           (rows_of (group_by_id (rows_pie b)) id_)) (fun '(pieces, chambres, sdb) =>
  rbind (parse_centris_zip.extract_year r) (fun annee =>
  let descr :=
    parse_centris_zip.extract_description (rows_of (group_by_id (rows_rem b)) id_) in
  let prox :=
    parse_centris_zip.extract_proximites
      (or_else (parse_centris_zip.extract_addenda (addenda_rows b) id_) [])
      (rows_of (group_by_id (rows_car b)) id_) in
  let photos_ :=
    parse_centris_zip.extract_photos (rows_of (group_by_id (rows_pho b)) id_) in
  rbind (parse_centris_zip.car_descs (rows_of (group_by_id (rows_car b)) id_))
    (fun descs =>
  Ok {| rec_id := id_; rec_slug := py "listing-" ++ id_; rec_prix := prix_;
        rec_adresse := adresse_; rec_nombre_pieces := pieces;
        rec_nombre_chambres := chambres; rec_nombre_sdb := sdb;
        rec_superficie_habitable := None; rec_superficie_terrain := None;
        rec_annee_construction := annee; rec_inclus := None;
        rec_description := descr; rec_proximites := prox; rec_photos := photos_;
        rec_caracteristiques :=
          match descs with
          | [] => None
          | _ => Some (join import_centris.COMMA_SPACE descs)
          end |})))).

Fixpoint records_of (b : Bundle) (rows : list (list (list N))) : result (list Rec) :=
  match rows with
  | [] => Ok []
  | r :: rest =>
      match row_id r with
      | None => records_of b rest
      | Some id_ =>
          rbind (record_of b r id_) (fun rec =>
          rbind (records_of b rest) (fun recs => Ok (rec :: recs)))
      end
  end.

(** [parse_zipfile_to_json] on the tables of the archive. *)
Definition parse_zipfile_to_json (b : Bundle) : result (list Rec) :=
  records_of b (rows_ins b).


(** * Properties *)

(** ** Filters *)

Lemma filter_all {A} (P : A -> Prop) `{forall x, Decision (P x)} (l : list A) :
  Forall P l -> filter P l = l.
Proof.
  induction 1 as [|x l Hx _ IH]; [done|]. by rewrite filter_cons_True, IH.
Qed.

Lemma filter_none {A} (P : A -> Prop) `{forall x, Decision (P x)} (l : list A) :
  Forall (fun x => ~ P x) l -> filter P l = [].
Proof.
  induction 1 as [|x l Hx _ IH]; [done|]. by rewrite filter_cons_False, IH.
Qed.

(** ** Sorting by key *)

Section SortBy.

Context {A : Type} (key : A -> Z).

Lemma insert_by_perm (x : A) (l : list A) : insert_by key x l ≡ₚ x :: l.
Proof.
  induction l as [|y l IH]; simpl; [done|].
  destruct (key x <=? key y)%Z; [done|].
  rewrite IH. apply Permutation_swap.
Qed.

Lemma sort_by_perm (l : list A) : sort_by key l ≡ₚ l.
Proof.
  induction l as [|x l IH]; [done|].
  unfold sort_by in *. simpl. rewrite insert_by_perm. by constructor.
Qed.

Lemma insert_by_hd (x : A) (l : list A) (a : A) :
  (key_le key) a x -> HdRel (key_le key) a l -> HdRel (key_le key) a (insert_by key x l).
Proof.
  intros Hax Hl. destruct l as [|y l]; simpl; [by constructor|].
  destruct (key x <=? key y)%Z; constructor; [done|].
  by apply HdRel_inv in Hl.
Qed.

Lemma insert_by_sorted (x : A) (l : list A) :
  Sorted (key_le key) l -> Sorted (key_le key) (insert_by key x l).
Proof.
  induction 1 as [|y l Hs IH Hhd]; simpl.
  - repeat constructor.
  - destruct (key x <=? key y)%Z eqn:Hxy.
    + constructor; [by constructor|]. constructor. unfold key_le. lia.
    + constructor; [done|]. apply insert_by_hd; [|done]. unfold key_le. lia.
Qed.

Lemma sort_by_sorted (l : list A) : Sorted (key_le key) (sort_by key l).
Proof.
  induction l as [|x l IH]; [constructor|].
  unfold sort_by in *. simpl. by apply insert_by_sorted.
Qed.

(** Stability: elements with the same key keep their relative order. *)
Lemma insert_by_filter_key (k : Z) (x : A) (l : list A) :
  Sorted (key_le key) l ->
  filter (fun a => key a = k) (insert_by key x l)
  = filter (fun a => key a = k) (x :: l).
Proof.
  induction 1 as [|y l Hs IH Hhd]; simpl; [done|].
  destruct (key x <=? key y)%Z eqn:Hxy; [done|].
  rewrite (filter_cons _ y), IH, !filter_cons.
  destruct (decide (key y = k)) as [Hy|Hy]; [|done].
  destruct (decide (key x = k)) as [Hx|Hx]; [|done].
  lia.
Qed.

Lemma sort_by_stable (k : Z) (l : list A) :
  filter (fun a => key a = k) (sort_by key l) = filter (fun a => key a = k) l.
Proof.
  induction l as [|x l IH]; [done|].
  unfold sort_by in *. simpl.
  rewrite insert_by_filter_key by apply sort_by_sorted.
  by rewrite !filter_cons, IH.
Qed.

Lemma sort_by_length (l : list A) : length (sort_by key l) = length l.
Proof. apply Permutation_length, sort_by_perm. Qed.

Lemma sort_by_nil_inv (l : list A) : sort_by key l = [] -> l = [].
Proof.
  intros H. apply length_zero_iff_nil. by rewrite <- sort_by_length, H.
Qed.

End SortBy.

(** ** Sorting with a key that may raise *)

Section TrySort.

Context {A : Type} (key : A -> result Z).

Lemma decorate_all_ok (l : list A) :
  Forall (key_ok key) l ->
  decorate key l = Ok (map (fun x => ((key_or_zero key) x, x)) l).
Proof.
  induction 1 as [|x l [n Hx] _ IH]; [done|].
  simpl. unfold key_or_zero at 1. rewrite Hx. simpl. by rewrite IH.
Qed.

Lemma decorate_some_raise (l : list A) :
  Exists (fun x => ~ (key_ok key) x) l -> exists e, decorate key l = Raise e.
Proof.
  induction 1 as [x l Hx|x l _ [e IH]]; simpl.
  - destruct (key x) as [n|e] eqn:Hk; [|by exists e].
    exfalso. apply Hx. by exists n.
  - destruct (key x) as [n|e']; [|by exists e']. simpl. rewrite IH. by exists e.
Qed.

Lemma undecorate_insert (f : A -> Z) (x : A) (d : list (Z * A)) :
  Forall (fun p => p.1 = f p.2) d ->
  map snd (insert_by fst (f x, x) d) = insert_by f x (map snd d).
Proof.
  induction 1 as [|[k y] d Hy _ IH]; [done|].
  simpl in *. subst k. destruct (f x <=? f y)%Z; [done|].
  simpl. by rewrite IH.
Qed.

Lemma insert_by_decorated (f : A -> Z) (x : A) (d : list (Z * A)) :
  Forall (fun p => p.1 = f p.2) d ->
  Forall (fun p => p.1 = f p.2) (insert_by fst (f x, x) d).
Proof.
  induction 1 as [|[k y] d Hy Hd IH]; simpl.
  - by repeat constructor.
  - destruct (f x <=? k)%Z; repeat constructor; done.
Qed.

Lemma sort_decorated (f : A -> Z) (l : list A) :
  Forall (fun p => p.1 = f p.2) (sort_by fst (map (fun x => (f x, x)) l))
  /\ map snd (sort_by fst (map (fun x => (f x, x)) l)) = sort_by f l.
Proof.
  induction l as [|x l [IHd IH]]; [by split|].
  unfold sort_by in *. simpl. split.
  - by apply insert_by_decorated.
  - by rewrite undecorate_insert, IH.
Qed.

Lemma try_sort_all_ok (l : list A) :
  Forall (key_ok key) l -> try_sort key l = sort_by (key_or_zero key) l.
Proof.
  intros Hok. unfold try_sort, sorted. rewrite decorate_all_ok by done.
  simpl. apply sort_decorated.
Qed.

Lemma try_sort_some_raise (l : list A) :
  Exists (fun x => ~ (key_ok key) x) l -> try_sort key l = l.
Proof.
  intros [e He]%decorate_some_raise. unfold try_sort, sorted. by rewrite He.
Qed.

Lemma key_ok_dec (x : A) : {key_ok key x} + {~ key_ok key x}.
Proof.
  unfold key_ok. destruct (key x) as [n|e].
  - left. by exists n.
  - right. by intros [n ?].
Qed.

Lemma sorted_all_ok (l : list A) :
  Forall (key_ok key) l -> sorted key l = Ok (sort_by (key_or_zero key) l).
Proof.
  intros Hok. unfold sorted. rewrite decorate_all_ok by done.
  simpl. f_equal. apply sort_decorated.
Qed.

End TrySort.


(** ** De-duplication in [extract_proximites] *)

Section Unique.

Import import_centris.

Lemma truthy_true (s : list N) : truthy s = true <-> s ≠ [].
Proof. destruct s; simpl; split; congruence. Qed.

Lemma unique_elem_of (seen : gset (list N)) (l : list (list N)) (x : list N) :
  x ∈ unique seen l <-> x ∈ l /\ x ≠ [] /\ x ∉ seen.
Proof.
  revert seen. induction l as [|p rest IH]; intros seen; simpl.
  - split; [intros H; by apply elem_of_nil in H|intros [H _]; by apply elem_of_nil in H].
  - destruct (truthy p) eqn:Hp; simpl.
    + apply truthy_true in Hp.
      case_bool_decide as Hin; simpl; rewrite ?elem_of_cons, IH, ?elem_of_union,
        ?elem_of_singleton.
      * split; [tauto|]. intros ([->|?] & ? & ?); [done|tauto].
      * split.
        -- intros [->|(? & ? & ?)]; [tauto|]. split; [tauto|]. split; tauto.
        -- intros ([->|?] & ? & ?); [tauto|].
           destruct (decide (x = p)); [tauto|]. right. tauto.
    + destruct p; [|discriminate]. rewrite IH, elem_of_cons.
      split; [tauto|]. intros ([->|?] & ? & ?); [done|tauto].
Qed.

Lemma unique_NoDup (seen : gset (list N)) (l : list (list N)) :
  NoDup (unique seen l).
Proof.
  revert seen. induction l as [|p rest IH]; intros seen; simpl.
  - constructor.
  - destruct (truthy p && negb (bool_decide (p ∈ seen))); [|apply IH].
    constructor; [|apply IH].
    rewrite unique_elem_of, elem_of_union, elem_of_singleton. tauto.
Qed.

(** Every element of a list has a first position. *)
Lemma first_position (l : list (list N)) (y : list N) :
  y ∈ l -> exists j, l !! j = Some y /\ forall k, (k < j)%nat -> l !! k ≠ Some y.
Proof.
  induction l as [|p rest IH]; intros Hy; [by apply elem_of_nil in Hy|].
  destruct (decide (p = y)) as [->|Hne].
  - exists 0%nat. split; [done|]. intros k Hk. lia.
  - apply elem_of_cons in Hy as [->|Hy]; [done|].
    destruct (IH Hy) as (j & Hj & Hfirst).
    exists (S j). split; [done|].
    intros [|k] Hk; simpl; [congruence|]. apply Hfirst. lia.
Qed.

(** Entries come out in the order in which they are first met. *)
Lemma unique_order (seen : gset (list N)) (l : list (list N)) i j x y :
  unique seen l !! i = Some x -> unique seen l !! j = Some y -> (i < j)%nat ->
  exists i' j', (i' < j')%nat /\ l !! i' = Some x /\ l !! j' = Some y
                /\ forall k, (k < j')%nat -> l !! k ≠ Some y.
Proof.
  revert seen i j. induction l as [|p rest IH]; intros seen i j Hi Hj Hlt; simpl in *.
  - by rewrite lookup_nil in Hi.
  - destruct (truthy p && negb (bool_decide (p ∈ seen))) eqn:Hkeep.
    + destruct j as [|j]; [lia|]. simpl in Hj.
      assert (Hy : y ∈ unique ({[p]} ∪ seen) rest) by (eapply list_elem_of_lookup_2; eauto).
      apply unique_elem_of in Hy as (Hyr & _ & Hys).
      assert (Hpy : p ≠ y).
      { intros ->. apply Hys, elem_of_union. left. by apply elem_of_singleton. }
      destruct i as [|i]; simpl in Hi.
      * injection Hi as <-.
        destruct (first_position rest y Hyr) as (m & Hm & Hfirst).
        exists 0%nat, (S m). (split; [lia|]); (split; [done|]); (split; [done|]).
        intros [|k] Hk; simpl; [congruence|]. apply Hfirst. lia.
      * destruct (IH _ _ _ Hi Hj ltac:(lia)) as (i' & j' & Hlt' & Hx' & Hy' & Hfirst).
        exists (S i'), (S j'). (split; [lia|]); (split; [done|]); (split; [done|]).
        intros [|k] Hk; simpl; [congruence|]. apply Hfirst. lia.
    + destruct (IH _ _ _ Hi Hj Hlt) as (i' & j' & Hlt' & Hx' & Hy' & Hfirst).
      assert (Hy : y ∈ unique seen rest) by (eapply list_elem_of_lookup_2; eauto).
      apply unique_elem_of in Hy as (_ & Hyne & Hys).
      assert (Hpy : p ≠ y).
      { intros ->. apply andb_false_iff in Hkeep as [Hk|Hk].
        - destruct y; [done|discriminate].
        - apply negb_false_iff, bool_decide_eq_true in Hk. done. }
      exists (S i'), (S j'). (split; [lia|]); (split; [done|]); (split; [done|]).
      intros [|k] Hk; simpl; [congruence|]. apply Hfirst. lia.
Qed.

(** The loop keeps each non-empty candidate at its first place. *)
Lemma unique_first_occurrences (seen : gset (list N)) (l : list (list N)) :
  unique seen l
  = filter (fun x => x ∉ seen)
      (first_occurrences (filter (fun x => x <> []) l)).
Proof.
  revert seen. induction l as [|p rest IH]; intros seen; [done|].
  cbn [unique]. rewrite filter_cons.
  destruct (truthy p) eqn:Hp.
  - apply truthy_true in Hp. rewrite decide_True by done.
    cbn [first_occurrences andb]. rewrite filter_cons.
    case_bool_decide as Hin; cbn [negb].
    + rewrite decide_False by tauto. rewrite IH, list_filter_filter.
      apply list_filter_iff. intros x. split; [|tauto].
      intros Hx. split; [done|]. intros ->. done.
    + rewrite decide_True by done. f_equal.
      rewrite IH, list_filter_filter. apply list_filter_iff. intros x.
      rewrite elem_of_union, elem_of_singleton. tauto.
  - destruct p; [|discriminate]. rewrite decide_False by tauto. apply IH.
Qed.

Lemma omap_cons {A B} (f : A -> option B) (x : A) (l : list A) :
  omap f (x :: l) = match f x with Some y => y :: omap f l | None => omap f l end.
Proof. reflexivity. Qed.

Lemma prox_of_rows_filter (carac_rows : list (list (list N))) :
  prox_of_rows carac_rows
  = map (fun r => dict_get_or_key VAL_LABEL (clean (get r 2)))
      (filter proximity_row carac_rows).
Proof.
  unfold prox_of_rows. induction carac_rows as [|r rows IH]; [done|].
  rewrite omap_cons, filter_cons. unfold pystr_eqb.
  destruct (decide (proximity_row r)) as [[Hlen Hcat]|Hno].
  - apply Nat.leb_le in Hlen. rewrite Hlen, (bool_decide_eq_true_2 _ Hcat).
    cbn [andb map]. f_equal. exact IH.
  - destruct (Nat.leb_spec 3 (length r)) as [Hlen|Hlen]; cbn [andb]; [|exact IH].
    case_bool_decide as Hcat; [|exact IH]. destruct Hno. by split.
Qed.

Lemma build_caracteristiques_filter (carac_rows : list (list (list N))) :
  snd (build_caracteristiques carac_rows)
  = map entry_of_row (filter characteristic_row carac_rows).
Proof.
  unfold build_caracteristiques. cbn [snd].
  induction carac_rows as [|r rows IH]; [done|].
  rewrite omap_cons, filter_cons. unfold carac_of_row at 1. unfold pystr_eqb.
  destruct (decide (characteristic_row r)) as [[Hlen Hcat]|Hno].
  - destruct (Nat.ltb_spec (length r) 3) as [?|_]; [lia|].
    rewrite (bool_decide_eq_false_2 _ Hcat). cbn [map snd]. f_equal. exact IH.
  - destruct (Nat.ltb_spec (length r) 3) as [Hlen|Hlen]; [exact IH|].
    case_bool_decide as Hcat; [exact IH|]. destruct Hno. by split.
Qed.

End Unique.

(** ** Proximity and characteristics lists (C3) *)

(** C3, counterexample: two identical characteristics rows give two
    identical entries, so the characteristics list can hold duplicates. *)
Lemma C3_characteristics_can_repeat :
  snd (import_centris.build_caracteristiques
         [[py "1001"; py "CHAU"; py "PELC"]; [py "1001"; py "CHAU"; py "PELC"]])
  = [ {| import_centris.cat := py "Mode de chauffage";
         import_centris.val := py "Plinthes électriques" |};
      {| import_centris.cat := py "Mode de chauffage";
         import_centris.val := py "Plinthes électriques" |} ]
  /\ ~ NoDup (snd (import_centris.build_caracteristiques
         [[py "1001"; py "CHAU"; py "PELC"]; [py "1001"; py "CHAU"; py "PELC"]])).
Proof.
  assert (E : snd (import_centris.build_caracteristiques
         [[py "1001"; py "CHAU"; py "PELC"]; [py "1001"; py "CHAU"; py "PELC"]])
    = [ {| import_centris.cat := py "Mode de chauffage";
           import_centris.val := py "Plinthes électriques" |};
        {| import_centris.cat := py "Mode de chauffage";
           import_centris.val := py "Plinthes électriques" |} ])
    by (vm_compute; reflexivity).
  split; [exact E|].
  rewrite E. intros Hnd. apply NoDup_cons in Hnd as [Hnotin _].
  apply Hnotin. apply elem_of_cons. by left.
Qed.

(** C3, amended: the proximity list has no duplicates, holds exactly the
    non-empty candidates, and lists them in the order in which they are
    first met -- it is the list of the candidates, each non-empty one kept
    at its first place --, the candidates being the labels of the proximity
    rows of the table as soon as there is one; the characteristics list has
    one entry, made of the two labels, per row of three columns or more
    whose category is not the proximity code, in row order (so it repeats an
    entry when rows repeat). *)
Theorem C3_lists_follow_first_encounter (addenda_text : list N) (carac_rows : list (list (list N))) :
  let cand := import_centris.prox_candidates addenda_text carac_rows in
  let out := snd (import_centris.extract_proximites addenda_text carac_rows) in
  let labels :=
    map (fun r => dict_get_or_key import_centris.VAL_LABEL (clean (get r 2)))
      (filter proximity_row carac_rows) in
  NoDup out
  /\ (forall x, x ∈ out <-> x ∈ cand /\ x ≠ [])
  /\ (forall i j x y,
        out !! i = Some x -> out !! j = Some y -> (i < j)%nat ->
        exists i' j', (i' < j')%nat /\ cand !! i' = Some x /\ cand !! j' = Some y
                      /\ forall k, (k < j')%nat -> cand !! k ≠ Some y)
  /\ out = first_occurrences (filter (fun x => x <> []) cand)
  /\ (labels <> [] -> cand = labels)
  /\ snd (import_centris.build_caracteristiques carac_rows)
     = map entry_of_row (filter characteristic_row carac_rows)
  /\ (forall rows1 rows2,
        snd (import_centris.build_caracteristiques (rows1 ++ rows2))
        = snd (import_centris.build_caracteristiques rows1)
          ++ snd (import_centris.build_caracteristiques rows2)).
Proof.
  intros cand out labels. subst cand out labels.
  change (snd (import_centris.extract_proximites addenda_text carac_rows))
    with (import_centris.unique ∅ (import_centris.prox_candidates addenda_text carac_rows)).
  split; [apply unique_NoDup|].
  split.
  { intros x. rewrite unique_elem_of. split; [tauto|].
    intros [? ?]. split; [done|]. split; [done|]. apply not_elem_of_empty. }
  split; [intros i j x y; apply unique_order|].
  split.
  { rewrite unique_first_occurrences. apply filter_all, Forall_forall.
    intros x _. apply not_elem_of_empty. }
  split.
  { rewrite <- prox_of_rows_filter. unfold import_centris.prox_candidates.
    by destruct (import_centris.prox_of_rows carac_rows). }
  split; [apply build_caracteristiques_filter|].
  intros rows1 rows2. rewrite !build_caracteristiques_filter.
  by rewrite filter_app, map_app.
Qed.

(** ** The principal unit (C4) *)

(** C4: with a single unit-details row of sequence 2 the sort succeeds, no
    row matches, and no row is selected: both counts are null although a row
    exists.  The first-row fallback is taken only when the sort raises, as
    with the non-numeric sequence of the second input.  The script's copy
    behaves alike. *)
Lemma C4_no_fallback_when_sort_succeeds :
  import_centris.extract_units [[py "1001"; py "2"; []; py "5"; py "3"]] []
  = Ok (None, None, None)
  /\ import_centris.extract_units [[py "1001"; py "x"; []; py "5"; py "3"]] []
     = Ok (Some 5%Z, Some 3%Z, None)
  /\ parse_centris_zip.extract_units [[py "1001"; py "2"; []; py "5"; py "3"]] []
     = Ok (None, None, None).
Proof. repeat split; vm_compute; reflexivity. Qed.

Lemma filter_ext_Forall {A} (P Q : A -> Prop)
    `{!forall x, Decision (P x), !forall x, Decision (Q x)} (l : list A) :
  Forall (fun x => P x <-> Q x) l -> filter P l = filter Q l.
Proof.
  induction 1 as [|x l Hx _ IH]; [done|].
  rewrite !filter_cons, IH.
  destruct (decide (P x)), (decide (Q x)); tauto.
Qed.

(** When the sort succeeds, the row selected is the first row of the table
    whose cleaned sequence is "1", if there is one, and no row otherwise. *)
Lemma select_principal_when_sorted (units_rows : list (list (list N))) :
  Forall (key_ok import_centris.unit_key) units_rows ->
  import_centris.select_principal units_rows
  = head (filter (fun r => clean (get r 1) = py "1") units_rows).
Proof.
  intros Hok. unfold import_centris.select_principal.
  rewrite sorted_all_ok by done. cbn [rbind].
  set (number := key_or_zero import_centris.unit_key).
  assert (Hfind : forall l,
            Forall (key_ok import_centris.unit_key) l ->
            import_centris.find_principal l
            = Ok (head (filter (fun r => clean (get r 1) = py "1") l))).
  { induction 1 as [|r l [n Hr] _ IH]; [done|].
    cbn [import_centris.find_principal]. unfold import_centris.unit_key in Hr.
    unfold get, field in *. destruct (r !! 1%nat) as [f1|] eqn:Hf1; [|discriminate].
    cbn [of_option rbind default]. unfold pystr_eqb. rewrite filter_cons, Hf1.
    cbn [default].
    case_bool_decide as Hone.
    - by rewrite decide_True.
    - by rewrite decide_False, IH. }
  rewrite Hfind.
  2:{ apply Forall_forall. intros r Hr.
      apply (proj1 (Forall_forall _ _) Hok).
      apply list_elem_of_In. apply list_elem_of_In in Hr.
      eapply Permutation_in; [apply sort_by_perm|done]. }
  f_equal.
  assert (Hone : forall l,
            Forall (key_ok import_centris.unit_key) l ->
            filter (fun r => clean (get r 1) = py "1") l
            = filter (fun r => clean (get r 1) = py "1")
                (filter (fun r => number r = 1%Z) l)).
  { intros l Hl. rewrite list_filter_filter. apply filter_ext_Forall.
    apply (Forall_impl _ _ _ Hl). intros r [n Hr]. split; [|tauto].
    intros H1. split; [done|].
    unfold number, key_or_zero, import_centris.unit_key, get, field in *.
    destruct (r !! 1%nat) as [f1|]; [|discriminate].
    cbn [of_option rbind default] in *. unfold id in H1. rewrite H1. by vm_compute. }
  rewrite Hone, sort_by_stable, <- Hone; [done|done|].
  apply Forall_forall. intros r Hr.
  apply (proj1 (Forall_forall _ _) Hok).
  apply list_elem_of_In. apply list_elem_of_In in Hr.
  eapply Permutation_in; [apply sort_by_perm|done].
Qed.


(** ** Feed discovery (C9) *)

Lemma max_date_elem_of (d0 : Z) (ds : list Z) : max_date d0 ds ∈ d0 :: ds.
Proof.
  induction ds as [|d ds IH]; simpl; [by apply list_elem_of_singleton|].
  destruct (Z.max_spec d (max_date d0 ds)) as [[_ ->]|[_ ->]].
  - apply elem_of_cons in IH as [->|IH]; [by left|]. right. by right.
  - right. by left.
Qed.

Lemma max_date_upper (d0 : Z) (ds : list Z) (d : Z) :
  d ∈ d0 :: ds -> (d <= max_date d0 ds)%Z.
Proof.
  induction ds as [|d1 ds IH]; simpl; intros Hd.
  - apply list_elem_of_singleton in Hd. lia.
  - apply elem_of_cons in Hd as [->|Hd].
    + assert (d0 <= max_date d0 ds)%Z by (apply IH; by left). lia.
    + apply elem_of_cons in Hd as [->|Hd]; [lia|].
      assert (d <= max_date d0 ds)%Z by (apply IH; by right). lia.
Qed.

Lemma probe_first_hit (s : session) (base_url : list N) (today : Z) (n : nat) (d : Z) :
  candidates today !! n = Some d ->
  try_head s (compose_url_for_date base_url d) = true ->
  (forall m d', (m < n)%nat -> candidates today !! m = Some d' ->
                try_head s (compose_url_for_date base_url d') = false) ->
  probe s base_url today [0; 1; 2]%Z
  = (map (fun d' => Head (compose_url_for_date base_url d')) (take (S n) (candidates today)),
     Ok (compose_url_for_date base_url d, d)).
Proof.
  intros Hn Hhit Hmiss. unfold candidates in *.
  destruct n as [|[|[|n]]]; simpl in Hn; try discriminate; injection Hn as <-.
  - simpl. rewrite Z.sub_0_r. by rewrite Hhit.
  - simpl. rewrite Z.sub_0_r.
    rewrite (Hmiss 0%nat today) by (done || lia). by rewrite Hhit.
  - simpl. rewrite Z.sub_0_r.
    rewrite (Hmiss 0%nat today) by (done || lia).
    rewrite (Hmiss 1%nat (today - 1)%Z) by (done || lia). by rewrite Hhit.
Qed.

Lemma probe_all_miss (s : session) (base_url : list N) (today : Z) :
  (forall d, d ∈ candidates today ->
             try_head s (compose_url_for_date base_url d) = false) ->
  probe s base_url today [0; 1; 2]%Z
  = (map (fun d' => Head (compose_url_for_date base_url d')) (candidates today),
     Raise RuntimeError).
Proof.
  intros Hmiss. unfold candidates in *. simpl. rewrite Z.sub_0_r.
  rewrite !Hmiss; [done|..]; set_solver.
Qed.

(** C9: with a non-empty index, discovery resolves to the greatest listed
    date not after today, or to the greatest listed date when all lie after
    today; with an empty or unreachable index it probes today, the day
    before and two days before, in that order, and resolves to the first one
    whose existence check succeeds; when none does, discovery raises and the
    attempt sends no download request. *)
Theorem C9_discovery (s : session) (base_url : list N) (today : Z) :
  (forall dates,
      list_zip_dates_from_index s base_url = Ok dates -> dates ≠ [] ->
      exists best,
        find_latest_available s base_url today
        = ([GetIndex base_url], Ok (compose_url_for_date base_url best, best))
        /\ best ∈ dates
        /\ ((exists d, d ∈ dates /\ (d <= today)%Z) ->
            (best <= today)%Z
            /\ forall d, d ∈ dates -> (d <= today)%Z -> (d <= best)%Z)
        /\ ((forall d, d ∈ dates -> (today < d)%Z) ->
            forall d, d ∈ dates -> (d <= best)%Z))
  /\ ((list_zip_dates_from_index s base_url = Ok []
       \/ exists e, list_zip_dates_from_index s base_url = Raise e) ->
      (forall n d,
          candidates today !! n = Some d ->
          try_head s (compose_url_for_date base_url d) = true ->
          (forall m d', (m < n)%nat -> candidates today !! m = Some d' ->
                        try_head s (compose_url_for_date base_url d') = false) ->
          find_latest_available s base_url today
          = (GetIndex base_url
               :: map (fun d' => Head (compose_url_for_date base_url d'))
                    (take (S n) (candidates today)),
             Ok (compose_url_for_date base_url d, d)))
      /\ ((forall d, d ∈ candidates today ->
                     try_head s (compose_url_for_date base_url d) = false) ->
          find_latest_available s base_url today
          = (GetIndex base_url
               :: map (fun d' => Head (compose_url_for_date base_url d'))
                    (candidates today),
             Raise RuntimeError)
          /\ snd (fetch_attempt s base_url today) = Raise RuntimeError
          /\ forall u, Download u ∉ fst (fetch_attempt s base_url today))).
Proof.
  split.
  - intros dates Hidx Hne. unfold find_latest_available. rewrite Hidx.
    destruct dates as [|d0 ds]; [done|].
    destruct (filter (fun d => (d <= today)%Z) (d0 :: ds)) as [|e0 es] eqn:Hf.
    + exists (max_date d0 ds). split; [done|].
      split; [apply max_date_elem_of|].
      split.
      * intros (d & Hd & Hle).
        assert (Hin : d ∈ filter (fun d => (d <= today)%Z) (d0 :: ds))
          by (apply list_elem_of_filter; done).
        rewrite Hf in Hin. by apply elem_of_nil in Hin.
      * intros _ d Hd. by apply max_date_upper.
    + exists (max_date e0 es). split; [done|].
      assert (Hbest : max_date e0 es ∈ filter (fun d => (d <= today)%Z) (d0 :: ds))
        by (rewrite Hf; apply max_date_elem_of).
      apply list_elem_of_filter in Hbest as [Hle Hbest].
      split; [done|].
      split.
      * intros _. split; [done|]. intros d Hd Hdle.
        apply max_date_upper. rewrite <- Hf. by apply list_elem_of_filter.
      * intros Hall. specialize (Hall _ Hbest). lia.
  - intros Hidx.
    assert (Hfind : find_latest_available s base_url today
                    = (GetIndex base_url :: fst (probe s base_url today [0; 1; 2]%Z),
                       snd (probe s base_url today [0; 1; 2]%Z))).
    { unfold find_latest_available.
      destruct Hidx as [->|[e ->]];
        by destruct (probe s base_url today [0; 1; 2]%Z). }
    split.
    + intros n d Hn Hhit Hmiss. rewrite Hfind.
      by rewrite (probe_first_hit s base_url today n d Hn Hhit Hmiss).
    + intros Hmiss. rewrite Hfind, (probe_all_miss s base_url today Hmiss). simpl.
      split; [done|].
      unfold fetch_attempt. rewrite Hfind, (probe_all_miss s base_url today Hmiss).
      simpl. split; [done|].
      intros u Hu. apply elem_of_cons in Hu as [Hu|Hu]; [discriminate|].
      repeat (apply elem_of_cons in Hu as [Hu|Hu]; [discriminate|]).
      by apply elem_of_nil in Hu.
Qed.

(** C9 at three concrete sessions, with today = 2025-11-03 (day 20395). *)
Lemma C9_discovery_witness :
  (exists best,
      find_latest_available session_listed feed_url 20395
      = ([GetIndex feed_url], Ok (compose_url_for_date feed_url best, best))
      /\ (best <= 20395)%Z
      /\ (20394 <= best)%Z)
  /\ find_latest_available session_yesterday feed_url 20395
     = ([GetIndex feed_url;
         Head (compose_url_for_date feed_url 20395);
         Head (compose_url_for_date feed_url 20394)],
        Ok (compose_url_for_date feed_url 20394, 20394%Z))
  /\ snd (fetch_attempt session_nothing feed_url 20395) = Raise RuntimeError.
Proof.
  split; [|split].
  - destruct (C9_discovery session_listed feed_url 20395) as [Hlisted _].
    destruct (Hlisted [20390; 20394; 20400]%Z eq_refl ltac:(discriminate))
      as (best & Hfind & Hin & Hpast & _).
    exists best. split; [exact Hfind|].
    destruct Hpast as [Hle Hmax].
    + exists 20390%Z. split; [by left|lia].
    + split; [exact Hle|]. apply Hmax; [right; by left|lia].
  - destruct (C9_discovery session_yesterday feed_url 20395) as [_ Hprobe].
    destruct (Hprobe (or_intror (ex_intro _ RuntimeError eq_refl))) as [Hhit _].
    apply (Hhit 1%nat 20394%Z).
    + reflexivity.
    + vm_compute. reflexivity.
    + intros [|m] d' Hm Hd'; [|lia]. injection Hd' as <-. vm_compute. reflexivity.
  - destruct (C9_discovery session_nothing feed_url 20395) as [_ Hprobe].
    destruct (Hprobe (or_introl eq_refl)) as [_ Hmiss].
    apply Hmiss. intros d _. reflexivity.
Defined.


(** ** What a run that raises nothing has done *)

Section RunFacts.

Variable slugify : list N -> list N.
Variable faults : nat -> bool.

Lemma store_call_ok {A} (op : DB -> DB * A) (w w' : World) (a : A) :
  store_call faults op w = (w', Ok a) ->
  db w' = fst (op (db w)) /\ a = snd (op (db w)).
Proof.
  unfold store_call. destruct (faults (calls w)); [discriminate|].
  destruct (op (db w)) as [d x]. intros [= <- <-]. done.
Qed.

Lemma bind_ok {A B} (m : M A) (f : A -> M B) (w w' : World) (y : B) :
  bind m f w = (w', Ok y) ->
  exists w1 x, m w = (w1, Ok x) /\ f x w1 = (w', Ok y).
Proof.
  unfold bind. destruct (m w) as [w1 [x|e]]; [|discriminate]. eauto.
Qed.

Lemma lift_ok {A} (r : result A) (w w' : World) (x : A) :
  lift r w = (w', Ok x) -> w' = w /\ r = Ok x.
Proof. unfold lift. intros [= <- <-]. done. Qed.

Lemma ret_ok {A} (a x : A) (w w' : World) :
  ret a w = (w', Ok x) -> w' = w /\ x = a.
Proof. unfold ret. intros [= <- <-]. done. Qed.

(** Storing the slug computed by [ensure_slug] over a freshly created row
    yields the row [ensure_slug] describes. *)
Lemma with_slug_ensure (id_ : list N) (obj : Listing) :
  with_slug obj (slug (ensure_slug slugify id_ obj)) = ensure_slug slugify id_ obj.
Proof.
  unfold ensure_slug. destruct (truthy (slug obj)); [by destruct obj|done].
Qed.

Lemma import_row_ok (b : Bundle) (now : Z) (r : list (list N)) (st st' : Locals)
    (w w' : World) :
  import_row slugify faults b now r st w = (w', Ok st') ->
  db w' = after_row slugify b now r (db w)
  /\ st' = count_row (listings (db w)) r st
  /\ forall id_, row_id r = Some id_ -> exists e, extract_row b r id_ = Ok e.
Proof.
  unfold import_row, after_row, count_row, row_id.
  destruct r as [|f0 fs].
  { intros [-> ->]%ret_ok. done. }
  destruct (truthy (clean f0)) eqn:Hid; simpl.
  2:{ intros [-> ->]%ret_ok. repeat split. intros ? [=]. }
  intros (w1 & e & [-> He]%lift_ok & H)%bind_ok.
  rewrite He.
  apply bind_ok in H as (w2 & [obj created] & Hgoc & H).
  apply store_call_ok in Hgoc as [Hw2 Hres].
  apply bind_ok in H as (w3 & st3 & Hsave & Hphotos).
  assert (Hmid : db w3
                 = {| listings := upsert slugify (clean f0) e now (listings (db w));
                      photos := photos (db w);
                      fetch_logs := fetch_logs (db w) |}
                 /\ st3 = count_row (listings (db w)) (f0 :: fs) st).
  { unfold upsert, count_row, row_id. rewrite Hid.
    destruct (listings (db w) !! clean f0) as [obj0|] eqn:Hlk;
      simpl in Hw2, Hres; injection Hres as -> ->;
      apply bind_ok in Hsave as (w4 & [] & [Hw4 _]%store_call_ok & [-> ->]%ret_ok);
      rewrite Hw4, Hw2; (split; [|done]).
    - simpl. by destruct (db w).
    - cbn [fst set_listings listings photos fetch_logs].
      by rewrite alter_insert_eq, with_slug_ensure. }
  destruct Hmid as [Hdb3 ->].
  assert (Hfinal : db w' = set_photos (db w3)
                     (replace_photos (clean f0) (found_photos b (clean f0)) (photos (db w3)))
                   /\ st' = count_row (listings (db w)) (f0 :: fs) st).
  { unfold found_photos, replace_photos.
    destruct (import_centris.extract_photos _) as [|ph phs].
    - apply ret_ok in Hphotos as [-> ->]. split; [|done]. by destruct (db w3).
    - apply bind_ok in Hphotos as (w5 & [] & [Hw5 _]%store_call_ok & Hphotos).
      apply bind_ok in Hphotos as (w6 & [] & [Hw6 _]%store_call_ok & [-> ->]%ret_ok).
      rewrite Hw6, Hw5. simpl. done. }
  destruct Hfinal as [-> ->]. rewrite Hdb3. unfold set_photos, count_row, row_id.
  rewrite Hid. simpl.
  split; [done|]. split; [done|].
  intros id_ [= <-]. eauto.
Qed.

Lemma import_rows_ok (b : Bundle) (now : Z) (rows : list (list (list N)))
    (st st' : Locals) (w w' : World) :
  import_rows slugify faults b now rows st w = (w', Ok st') ->
  db w' = after_rows slugify b now rows (db w)
  /\ st' = count_rows_from slugify b now rows (db w) st
  /\ extract_ok b rows.
Proof.
  unfold extract_ok. revert st w. induction rows as [|r rest IH]; intros st w; simpl.
  - intros [-> ->]%ret_ok. done.
  - intros (w1 & st1 & (Hdb & -> & Hex)%import_row_ok & Hrest)%bind_ok.
    apply IH in Hrest as (-> & -> & Hall). rewrite Hdb.
    split; [done|]. split; [done|]. by constructor.
Qed.

Lemma after_rows_cons (b : Bundle) (now : Z) (r : list (list N))
    (rest : list (list (list N))) (d : DB) :
  after_rows slugify b now (r :: rest) d
  = after_rows slugify b now rest (after_row slugify b now r d).
Proof. reflexivity. Qed.

Lemma after_rows_fetch_logs (b : Bundle) (now : Z) (rows : list (list (list N))) (d : DB) :
  fetch_logs (after_rows slugify b now rows d) = fetch_logs d.
Proof.
  revert d. induction rows as [|r rest IH]; intros d; [done|].
  rewrite after_rows_cons, IH. unfold after_row.
  destruct (row_id r); [|done]. by destruct (extract_row b r l).
Qed.

(** A run that returns has folded [after_row] over the primary table, then
    retired (when asked to) and logged. *)
Lemma run_ok (b : Bundle) (info : RunInfo) (d d' : DB) (t : Totals) :
  run slugify faults b info d = (d', Ok t) ->
  let mid := after_rows slugify b (r_now info) (rows_ins b) d in
  let st := count_rows_from slugify b (r_now info) (rows_ins b) d start_locals in
  extract_ok b (rows_ins b)
  /\ listings d' = (if r_do_mark_sold info
                    then retire (l_seen_ids st) (r_now info) (listings mid)
                    else listings mid)
  /\ photos d' = photos mid
  /\ fetch_logs d' = fetch_logs d ++ [log_of info t]
  /\ t_items_total t = l_items_total st
  /\ t_added t = l_added st
  /\ t_updated t = l_updated st
  /\ t_marked_sold t
     = (if r_do_mark_sold info
        then size (filter (fun kv => to_retire (l_seen_ids st) kv.1 kv.2 = true)
                     (listings mid))
        else 0%nat).
Proof.
  unfold run, handle, atomic.
  destruct (import_body slugify faults b info {| db := d; calls := 0 |})
    as [w [t0|e]] eqn:Hbody; simpl; [|discriminate].
  intros [= <- <-]. unfold import_body in Hbody.
  apply bind_ok in Hbody as (w1 & st1 & (Hdb1 & Hst1 & Hex)%import_rows_ok & Hbody).
  apply bind_ok in Hbody as (w2 & sold_n & Hsold & Hbody).
  apply bind_ok in Hbody as (w3 & [] & [Hw3 _]%store_call_ok & [-> ->]%ret_ok).
  simpl in Hdb1. fold start_locals in Hst1. subst st1.
  split; [done|]. rewrite Hw3. unfold log_of. simpl.
  destruct (r_do_mark_sold info).
  - apply store_call_ok in Hsold as [Hw2 Hn]. simpl in Hw2, Hn.
    rewrite Hw2, Hdb1. simpl. unfold retire. rewrite Hn, Hdb1.
    by rewrite after_rows_fetch_logs.
  - apply ret_ok in Hsold as [-> ->]. rewrite Hdb1.
    by rewrite after_rows_fetch_logs.
Qed.

End RunFacts.


(** ** Atomicity of the import (C2) *)

(** C2: whatever raises inside the block -- an extraction, a create or
    update of a listing, a photo deletion or insertion, the retirement
    update or the write of the [FetchLog] row -- the run ends with the
    database it started from: listings, photos and fetch logs.  A run that
    returns has appended exactly one [FetchLog] row, carrying its totals. *)
Theorem C2_failure_rolls_back (slugify : list N -> list N) (faults : nat -> bool)
    (b : Bundle) (info : RunInfo) (d : DB) :
  (forall e,
      snd (run slugify faults b info d) = Raise e ->
      fst (run slugify faults b info d) = d
      /\ listings (fst (run slugify faults b info d)) = listings d
      /\ photos (fst (run slugify faults b info d)) = photos d
      /\ fetch_logs (fst (run slugify faults b info d)) = fetch_logs d)
  /\ (forall t,
        snd (run slugify faults b info d) = Ok t ->
        fetch_logs (fst (run slugify faults b info d))
        = fetch_logs d ++ [log_of info t]).
Proof.
  split.
  - intros e. unfold run, handle, atomic.
    destruct (import_body slugify faults b info {| db := d; calls := 0 |})
      as [w [t|e']]; simpl; [discriminate|].
    intros _. done.
  - intros t Ht.
    destruct (run slugify faults b info d) as [d' res] eqn:Hrun.
    simpl in Ht. subst res. simpl.
    by apply run_ok in Hrun as (_ & _ & _ & Hlogs & _).
Qed.

(** C2 on [demo_bundle]: when the sixth storage call fails, the block has
    already written two listings and two photos, and when the last call (the
    [FetchLog] write) fails all of the import has been written; the run
    gives back the starting database both times. *)
Lemma C2_failure_rolls_back_witness :
  (size (listings (db (fst (import_body demo_slugify (fault_at 5) demo_bundle
                              (demo_info 100 true) {| db := demo_db; calls := 0 |})))) = 3%nat
   /\ fst (run demo_slugify (fault_at 5) demo_bundle (demo_info 100 true) demo_db) = demo_db)
  /\ (snd (import_body demo_slugify (fault_at 11) demo_bundle
             (demo_info 100 true) {| db := demo_db; calls := 0 |}) = Raise StoreError
      /\ fetch_logs (fst (run demo_slugify (fault_at 11) demo_bundle
                            (demo_info 100 true) demo_db)) = []).
Proof.
  split; split.
  - vm_compute. reflexivity.
  - apply (proj1 (C2_failure_rolls_back demo_slugify (fault_at 5) demo_bundle
                    (demo_info 100 true) demo_db) StoreError).
    vm_compute. reflexivity.
  - vm_compute. reflexivity.
  - apply (proj1 (C2_failure_rolls_back demo_slugify (fault_at 11) demo_bundle
                    (demo_info 100 true) demo_db) StoreError).
    vm_compute. reflexivity.
Defined.


(** ** The catalog after the loop, in closed form *)

Section AfterRows.

Variable slugify : list N -> list N.

Lemma fix_slug_idemp (id_ s : list N) :
  fix_slug slugify id_ (fix_slug slugify id_ s) = fix_slug slugify id_ s.
Proof.
  unfold fix_slug. destruct (truthy s) eqn:Hs; [by rewrite Hs|].
  by destruct (truthy (take 64 (slugify (py "listing-" ++ id_)))).
Qed.

Lemma ensure_slug_entry (id_ : list N) (e : Extracted) (now : Z) (s : list N) :
  ensure_slug slugify id_ (entry id_ e now s) = entry id_ e now (fix_slug slugify id_ s).
Proof.
  unfold ensure_slug, fix_slug, entry. simpl. by destruct (truthy s).
Qed.

Lemma upsert_closed (id_ : list N) (e : Extracted) (now : Z) (ls : gmap (list N) Listing) :
  upsert slugify id_ e now ls
  = <[id_ := entry id_ e now (fix_slug slugify id_ (start_slug ls id_))]> ls.
Proof.
  unfold upsert, start_slug. destruct (ls !! id_) as [obj|].
  - by rewrite <- ensure_slug_entry.
  - by rewrite <- ensure_slug_entry.
Qed.

Lemma after_row_lookup_same (b : Bundle) (now : Z) (r : list (list N)) (d : DB)
    (id_ : list N) (e : Extracted) :
  row_id r = Some id_ -> extract_row b r id_ = Ok e ->
  listings (after_row slugify b now r d) !! id_
  = Some (entry id_ e now (fix_slug slugify id_ (start_slug (listings d) id_))).
Proof.
  intros Hid He. unfold after_row. rewrite Hid, He. simpl.
  by rewrite upsert_closed, lookup_insert_eq.
Qed.

Lemma after_row_lookup_other (b : Bundle) (now : Z) (r : list (list N)) (d : DB)
    (id_ : list N) :
  row_id r ≠ Some id_ ->
  listings (after_row slugify b now r d) !! id_ = listings d !! id_.
Proof.
  intros Hid. unfold after_row. destruct (row_id r) as [id0|]; [|done].
  destruct (extract_row b r id0); [|done]. simpl.
  rewrite upsert_closed, lookup_insert_ne; [done|congruence].
Qed.

Lemma seen_of_cons (r : list (list N)) (rest : list (list (list N))) (id_ : list N) :
  id_ ∈ seen_of (r :: rest) <-> row_id r = Some id_ \/ id_ ∈ seen_of rest.
Proof.
  unfold seen_of. simpl. destruct (row_id r) as [id0|].
  - rewrite list_to_set_cons, elem_of_union, elem_of_singleton.
    split; (intros [H|H]; [left|by right]); congruence.
  - split; [by right|]. by intros [?|?].
Qed.

Lemma seen_of_nil (id_ : list N) : id_ ∉ seen_of [].
Proof. unfold seen_of. simpl. apply not_elem_of_empty. Qed.

Lemma last_extracted_unseen (b : Bundle) (rows : list (list (list N))) (id_ : list N) :
  id_ ∉ seen_of rows -> last_extracted b rows id_ = None.
Proof.
  induction rows as [|r rest IH]; intros Hns; [done|]. simpl.
  rewrite seen_of_cons in Hns. rewrite IH by tauto.
  rewrite bool_decide_eq_false_2 by tauto. done.
Qed.

Lemma after_rows_unseen (b : Bundle) (now : Z) (rows : list (list (list N)))
    (d : DB) (id_ : list N) :
  id_ ∉ seen_of rows ->
  listings (after_rows slugify b now rows d) !! id_ = listings d !! id_.
Proof.
  revert d. induction rows as [|r rest IH]; intros d Hns; [done|].
  rewrite seen_of_cons in Hns.
  rewrite after_rows_cons, IH by tauto. apply after_row_lookup_other. tauto.
Qed.

Lemma after_rows_seen (b : Bundle) (now : Z) (rows : list (list (list N)))
    (d : DB) (id_ : list N) :
  extract_ok b rows -> id_ ∈ seen_of rows ->
  exists e,
    last_extracted b rows id_ = Some e
    /\ listings (after_rows slugify b now rows d) !! id_
       = Some (entry id_ e now (fix_slug slugify id_ (start_slug (listings d) id_))).
Proof.
  unfold extract_ok.
  revert d. induction rows as [|r rest IH]; intros d Hok Hseen.
  { by apply seen_of_nil in Hseen. }
  apply Forall_cons in Hok as [Hr Hok].
  rewrite after_rows_cons.
  destruct (decide (id_ ∈ seen_of rest)) as [Hin|Hnotin].
  - destruct (IH (after_row slugify b now r d) Hok Hin) as (e & Hlast & Hlk).
    exists e. simpl. rewrite Hlast. split; [done|]. rewrite Hlk. do 2 f_equal.
    destruct (decide (row_id r = Some id_)) as [Hid|Hid].
    + destruct (Hr _ Hid) as [e0 He0].
      unfold start_slug at 1.
      rewrite (after_row_lookup_same b now r d id_ e0 Hid He0).
      simpl. apply fix_slug_idemp.
    + unfold start_slug. by rewrite after_row_lookup_other.
  - apply seen_of_cons in Hseen as [Hid|?]; [|done].
    destruct (Hr _ Hid) as [e He]. exists e. simpl.
    rewrite last_extracted_unseen by done.
    rewrite bool_decide_eq_true_2, He by done. split; [done|].
    rewrite after_rows_unseen by done.
    by apply after_row_lookup_same.
Qed.

Lemma dom_after_rows (b : Bundle) (now : Z) (rows : list (list (list N))) (d : DB) :
  extract_ok b rows ->
  dom (listings (after_rows slugify b now rows d)) = dom (listings d) ∪ seen_of rows.
Proof.
  intros Hok. apply set_eq. intros id_.
  rewrite elem_of_union, !elem_of_dom.
  destruct (decide (id_ ∈ seen_of rows)) as [Hin|Hnotin].
  - destruct (after_rows_seen b now rows d id_ Hok Hin) as (e & _ & ->).
    split; [by right|]. by intros _.
  - rewrite after_rows_unseen by done. tauto.
Qed.

End AfterRows.


(** ** Counters, photos and retirement after the loop *)

Section Totals.

Variable slugify : list N -> list N.

Lemma after_row_dom (b : Bundle) (now : Z) (r : list (list N)) (d : DB) (id_ : list N) :
  row_id r = Some id_ -> (exists e, extract_row b r id_ = Ok e) ->
  dom (listings (after_row slugify b now r d)) = {[id_]} ∪ dom (listings d).
Proof.
  intros Hid [e He]. unfold after_row. rewrite Hid, He. simpl.
  rewrite upsert_closed. apply dom_insert_L.
Qed.

Lemma seen_of_cons_eq (r : list (list N)) (rest : list (list (list N))) :
  seen_of (r :: rest)
  = match row_id r with
    | Some id_ => {[id_]} ∪ seen_of rest
    | None => seen_of rest
    end.
Proof. unfold seen_of. simpl. by destruct (row_id r). Qed.

Lemma ids_cons_length (r : list (list N)) (rest : list (list (list N))) :
  length (omap row_id (r :: rest))
  = match row_id r with
    | Some _ => S (length (omap row_id rest))
    | None => length (omap row_id rest)
    end.
Proof. simpl. by destruct (row_id r). Qed.

Lemma count_rows_from_spec (b : Bundle) (now : Z) (rows : list (list (list N)))
    (d : DB) (st : Locals) :
  extract_ok b rows ->
  l_items_total (count_rows_from slugify b now rows d st)
  = (l_items_total st + length (omap row_id rows))%nat
  /\ (l_added (count_rows_from slugify b now rows d st)
      + l_updated (count_rows_from slugify b now rows d st)
      = l_added st + l_updated st + length (omap row_id rows))%nat
  /\ l_added (count_rows_from slugify b now rows d st)
     = (l_added st + size (seen_of rows ∖ dom (listings d)))%nat
  /\ l_seen_ids (count_rows_from slugify b now rows d st)
     = seen_of rows ∪ l_seen_ids st.
Proof.
  unfold extract_ok. revert d st.
  induction rows as [|r rest IH]; intros d st Hok.
  - simpl. unfold seen_of. simpl.
    rewrite difference_disjoint_L, size_empty by set_solver.
    repeat split; try lia. set_solver.
  - apply Forall_cons in Hok as [Hr Hok].
    change (count_rows_from slugify b now (r :: rest) d st)
      with (count_rows_from slugify b now rest (after_row slugify b now r d)
              (count_row (listings d) r st)).
    destruct (IH (after_row slugify b now r d) (count_row (listings d) r st) Hok)
      as (Htot & Hsum & Hadd & Hseen).
    rewrite Htot, Hsum, Hadd, Hseen. clear Htot Hsum Hadd Hseen IH.
    rewrite seen_of_cons_eq, ids_cons_length. unfold count_row.
    destruct (row_id r) as [id_|] eqn:Hid.
    + rewrite (after_row_dom b now r d id_ Hid (Hr _ eq_refl)).
      cbn [l_items_total l_added l_updated l_seen_ids]. clear Hr Hok Hid.
      destruct (listings d !! id_) as [obj|] eqn:Hlk.
      * assert (Hin : id_ ∈ dom (listings d)) by (apply elem_of_dom; eauto).
        replace (({[id_]} ∪ seen_of rest) ∖ dom (listings d))
          with (seen_of rest ∖ ({[id_]} ∪ dom (listings d))).
        2:{ apply set_eq. intros x.
            rewrite !elem_of_difference, !elem_of_union, !elem_of_singleton.
            naive_solver. }
        repeat split; try lia.
        apply set_eq; intros x; rewrite !elem_of_union; naive_solver.
      * assert (Hnotin : id_ ∉ dom (listings d)) by (by apply not_elem_of_dom).
        replace (({[id_]} ∪ seen_of rest) ∖ dom (listings d))
          with ({[id_]} ∪ seen_of rest ∖ ({[id_]} ∪ dom (listings d))).
        2:{ apply set_eq. intros x.
            rewrite !elem_of_difference, !elem_of_union, !elem_of_difference,
              !elem_of_union, !elem_of_singleton.
            destruct (decide (x = id_)); naive_solver. }
        assert (Hsz : size ({[id_]} ∪ seen_of rest ∖ ({[id_]} ∪ dom (listings d)))
                      = S (size (seen_of rest ∖ ({[id_]} ∪ dom (listings d))))).
        { rewrite size_union, size_singleton; [done|].
          intros x. rewrite elem_of_singleton, elem_of_difference, elem_of_union,
            elem_of_singleton. naive_solver. }
        rewrite Hsz.
        repeat split; try lia.
        apply set_eq; intros x; rewrite !elem_of_union; naive_solver.
    + unfold after_row. rewrite Hid. repeat split; lia.
Qed.

(** *** Photos *)

Lemma numbered_listing (id_ : list N) (found : list (Z * list N)) :
  Forall (fun p => listing p = id_) (numbered id_ found).
Proof.
  apply Forall_lookup. intros i p Hp. unfold numbered in Hp.
  rewrite list_lookup_imap in Hp.
  destruct (found !! i); simpl in Hp; [|discriminate]. by injection Hp as <-.
Qed.

Lemma photos_of_replace (id_ id0 : list N) (found : list (Z * list N))
    (ps : list ListingPhoto) :
  photos_of id_ (replace_photos id0 found ps)
  = if decide (id_ = id0 /\ found ≠ []) then numbered id_ found
    else photos_of id_ ps.
Proof.
  unfold replace_photos, photos_of.
  destruct found as [|ph phs].
  { rewrite decide_False; [done|]. by intros [_ ?]. }
  rewrite filter_app, list_filter_filter.
  destruct (decide (id_ = id0)) as [->|Hne].
  - rewrite decide_True by done.
    rewrite filter_none, filter_all; [done|apply numbered_listing|].
    apply Forall_forall. intros p _ [? ?]. done.
  - rewrite decide_False by (by intros [? _]).
    rewrite (filter_none _ (numbered _ _)).
    + rewrite app_nil_r. apply list_filter_iff. intros p. split; [tauto|].
      intros Hp. split; [done|]. congruence.
    + eapply Forall_impl; [apply numbered_listing|]. simpl. congruence.
Qed.

Lemma after_rows_photos (b : Bundle) (now : Z) (rows : list (list (list N)))
    (d : DB) (id_ : list N) :
  extract_ok b rows ->
  photos_of id_ (photos (after_rows slugify b now rows d))
  = if decide (id_ ∈ seen_of rows /\ found_photos b id_ ≠ [])
    then numbered id_ (found_photos b id_)
    else photos_of id_ (photos d).
Proof.
  unfold extract_ok. revert d.
  induction rows as [|r rest IH]; intros d Hok.
  { rewrite decide_False; [done|]. intros [H _]. by apply seen_of_nil in H. }
  apply Forall_cons in Hok as [Hr Hok]. rewrite after_rows_cons, IH by done.
  assert (Hstep : photos_of id_ (photos (after_row slugify b now r d))
                  = if decide (row_id r = Some id_ /\ found_photos b id_ ≠ [])
                    then numbered id_ (found_photos b id_)
                    else photos_of id_ (photos d)).
  { unfold after_row. destruct (row_id r) as [id0|] eqn:Hid.
    - destruct (Hr id0 eq_refl) as [e ->]. simpl. rewrite photos_of_replace.
      destruct (decide (id_ = id0)) as [->|Hne].
      + destruct (decide (found_photos b id0 = [])) as [Hf|Hf].
        * rewrite !decide_False; tauto.
        * rewrite !decide_True; tauto.
      + rewrite !decide_False; [done| |]; intros [? _]; congruence.
    - rewrite decide_False; [done|]. by intros [? _]. }
  rewrite Hstep. clear Hstep.
  destruct (decide (id_ ∈ seen_of rest /\ found_photos b id_ ≠ [])) as [[H1 H2]|Hno].
  - rewrite decide_True; [done|]. split; [|done]. apply seen_of_cons. by right.
  - destruct (decide (row_id r = Some id_ /\ found_photos b id_ ≠ [])) as [[H1 H2]|Hno'].
    + rewrite decide_True; [done|]. split; [|done]. apply seen_of_cons. by left.
    + rewrite decide_False; [done|]. rewrite seen_of_cons. tauto.
Qed.

(** *** Retirement *)

Lemma retire_lookup (seen : gset (list N)) (now : Z) (ls : gmap (list N) Listing)
    (id_ : list N) :
  retire seen now ls !! id_
  = (fun obj => if to_retire seen id_ obj then sold now obj else obj) <$> ls !! id_.
Proof.
  unfold retire. rewrite map_lookup_imap. by destruct (ls !! id_).
Qed.

End Totals.


(** ** The catalog and the totals after a run (C1, C5, C10) *)

Section RunTheorems.

Variable slugify : list N -> list N.
Variable faults : nat -> bool.

Lemma seen_ids_of_run (b : Bundle) (now : Z) (d : DB) :
  extract_ok b (rows_ins b) ->
  l_seen_ids (count_rows_from slugify b now (rows_ins b) d start_locals)
  = seen_of (rows_ins b).
Proof.
  intros Hok.
  destruct (count_rows_from_spec slugify b now (rows_ins b) d start_locals Hok)
    as (_ & _ & _ & ->).
  simpl. apply union_empty_r_L.
Qed.

Lemma retire_dom (seen : gset (list N)) (now : Z) (ls : gmap (list N) Listing) :
  dom (retire seen now ls) = dom ls.
Proof.
  apply set_eq. intros id_. rewrite !elem_of_dom, retire_lookup.
  apply fmap_is_Some.
Qed.

Lemma entry_status (id_ : list N) (e : Extracted) (now : Z) (s : list N) :
  status (entry id_ e now s) = STATUS_ACTIVE
  /\ sold_at (entry id_ e now s) = None
  /\ last_seen_at (entry id_ e now s) = Some now.
Proof. done. Qed.

(** C10: the totals of a run count rows, not listings.  [items_total] is
    the number of primary rows whose cleaned first field is non-empty, and
    equals [items_added + items_updated]; [items_added] is the number of
    distinct identifiers of the table that the catalog did not hold, which
    is also the number of entries the catalog gains, so every further row
    carrying an identifier already met counts as updated.  The [FetchLog]
    row written last carries these totals. *)
Theorem C10_totals_count_rows (b : Bundle) (info : RunInfo) (d d' : DB) (t : Totals) :
  run slugify faults b info d = (d', Ok t) ->
  t_items_total t = length (omap row_id (rows_ins b))
  /\ (t_added t + t_updated t = t_items_total t)%nat
  /\ t_added t = size (seen_of (rows_ins b) ∖ dom (listings d))
  /\ size (listings d') = (size (listings d) + t_added t)%nat
  /\ last (fetch_logs d') = Some (log_of info t).
Proof.
  intros Hrun. apply run_ok in Hrun as (Hok & Hls & _ & Hlogs & Htot & Hadd & Hupd & _).
  destruct (count_rows_from_spec slugify b (r_now info) (rows_ins b) d start_locals Hok)
    as (Htot' & Hsum' & Hadd' & _).
  simpl in Htot', Hsum', Hadd'.
  rewrite Htot, Hadd, Hupd, Htot', Hadd'. rewrite Hadd' in Hsum'.
  split; [done|]. split; [lia|]. split; [done|].
  split; [|by rewrite Hlogs, last_snoc].
  rewrite <- !(size_dom (D:=gset (list N))), Hls.
  assert (Hdom : dom (if r_do_mark_sold info
                      then retire (l_seen_ids (count_rows_from slugify b (r_now info)
                                                 (rows_ins b) d start_locals))
                             (r_now info)
                             (listings (after_rows slugify b (r_now info) (rows_ins b) d))
                      else listings (after_rows slugify b (r_now info) (rows_ins b) d))
                 = dom (listings d) ∪ seen_of (rows_ins b)).
  { destruct (r_do_mark_sold info); rewrite ?retire_dom; by apply dom_after_rows. }
  rewrite Hdom. apply size_union_alt.
Qed.

(** C1: after a run with retirement enabled the active listings are
    exactly the identifiers of the primary table.  Each of them is active
    with no sale date, whatever its status was before, and every listing
    that was active and is absent from the table is sold, dated with the
    timestamp of the run. *)
Theorem C1_active_ids_are_seen_ids (b : Bundle) (info : RunInfo) (d d' : DB) (t : Totals) :
  r_do_mark_sold info = true ->
  run slugify faults b info d = (d', Ok t) ->
  (forall id_,
      (exists l, listings d' !! id_ = Some l /\ status l = STATUS_ACTIVE)
      <-> id_ ∈ seen_of (rows_ins b))
  /\ (forall id_,
        id_ ∈ seen_of (rows_ins b) ->
        exists l, listings d' !! id_ = Some l
                  /\ status l = STATUS_ACTIVE /\ sold_at l = None)
  /\ (forall id_ l,
        listings d !! id_ = Some l -> status l = STATUS_ACTIVE ->
        id_ ∉ seen_of (rows_ins b) ->
        exists l', listings d' !! id_ = Some l'
                   /\ status l' = STATUS_SOLD /\ sold_at l' = Some (r_now info)).
Proof.
  intros Hmark Hrun.
  apply run_ok in Hrun as (Hok & Hls & _).
  rewrite Hmark, seen_ids_of_run in Hls by done.
  assert (Hseen : forall id_, id_ ∈ seen_of (rows_ins b) ->
            exists l, listings d' !! id_ = Some l
                      /\ status l = STATUS_ACTIVE /\ sold_at l = None).
  { intros id_ Hin.
    destruct (after_rows_seen slugify b (r_now info) (rows_ins b) d id_ Hok Hin)
      as (e & _ & Hlk).
    eexists. rewrite Hls, retire_lookup, Hlk. simpl. split; [reflexivity|].
    unfold to_retire. rewrite (bool_decide_eq_true_2 (id_ ∈ _)) by done.
    rewrite andb_false_r. done. }
  assert (Hunseen : forall id_, id_ ∉ seen_of (rows_ins b) ->
            listings d' !! id_
            = (fun obj => if bool_decide (status obj = STATUS_ACTIVE)
                          then sold (r_now info) obj else obj) <$> listings d !! id_).
  { intros id_ Hnotin. rewrite Hls, retire_lookup, after_rows_unseen by done.
    unfold to_retire. rewrite (bool_decide_eq_false_2 (id_ ∈ _)) by done.
    destruct (listings d !! id_) as [obj|]; [|done]. simpl.
    by rewrite andb_true_r. }
  split; [|split; [exact Hseen|]].
  - intros id_. split.
    + intros (l & Hlk & Hact).
      destruct (decide (id_ ∈ seen_of (rows_ins b))) as [|Hnotin]; [done|].
      rewrite (Hunseen _ Hnotin) in Hlk.
      destruct (listings d !! id_) as [obj|]; [|discriminate].
      simpl in Hlk. injection Hlk as <-.
      case_bool_decide; [discriminate|done].
    + intros Hin. destruct (Hseen _ Hin) as (l & ? & ? & _). eauto.
  - intros id_ l Hlk Hact Hnotin. eexists.
    rewrite (Hunseen _ Hnotin), Hlk. simpl.
    rewrite bool_decide_eq_true_2 by done. done.
Qed.


End RunTheorems.

(** The run of [demo_bundle] returns [demo_totals]. *)
Lemma demo_run_ok : demo_run = (fst demo_run, Ok demo_totals).
Proof. vm_compute. reflexivity. Qed.

(** C10 on [demo_bundle]: three rows count, two of them carry 1001; one
    listing is added and two rows count as updated. *)
Lemma C10_totals_count_rows_witness :
  demo_run = (fst demo_run, Ok demo_totals)
  /\ t_items_total demo_totals = length (omap row_id (rows_ins demo_bundle))
  /\ (t_added demo_totals + t_updated demo_totals = t_items_total demo_totals)%nat
  /\ t_added demo_totals = size (seen_of (rows_ins demo_bundle) ∖ dom (listings demo_db))
  /\ size (listings (fst demo_run)) = (size (listings demo_db) + t_added demo_totals)%nat
  /\ last (fetch_logs (fst demo_run)) = Some (log_of (demo_info 100 true) demo_totals).
Proof.
  split; [exact demo_run_ok|].
  exact (C10_totals_count_rows demo_slugify no_faults demo_bundle (demo_info 100 true)
           demo_db (fst demo_run) demo_totals demo_run_ok).
Defined.

(** C1 on [demo_bundle]: 1002 was sold and is active again, 0900 was
    active, is absent from the table and is sold at time 100. *)
Lemma C1_active_ids_are_seen_ids_witness :
  (exists l, listings (fst demo_run) !! py "1002" = Some l
             /\ status l = STATUS_ACTIVE /\ sold_at l = None)
  /\ (exists l', listings (fst demo_run) !! py "0900" = Some l'
                 /\ status l' = STATUS_SOLD /\ sold_at l' = Some 100%Z).
Proof.
  destruct (C1_active_ids_are_seen_ids demo_slugify no_faults demo_bundle
              (demo_info 100 true) demo_db (fst demo_run) demo_totals
              eq_refl demo_run_ok) as (_ & Hseen & Hgone).
  split.
  - apply Hseen. apply (bool_decide_unpack _). vm_compute. exact I.
  - apply (Hgone (py "0900") (blank_listing (py "maison-0900") STATUS_ACTIVE None)).
    + vm_compute. reflexivity.
    + reflexivity.
    + apply (bool_decide_unpack _). vm_compute. exact I.
Defined.



(** ** Running the same bundle twice (C7) *)

Section Idempotence.

Variable slugify : list N -> list N.





Lemma same_content_refl (l : Listing) : same_content l l.
Proof. unfold same_content. repeat split. Qed.

(** What a run leaves for one identifier, before and after retirement. *)
Lemma run_listing_seen (faults : nat -> bool) (b : Bundle) (info : RunInfo)
    (d d' : DB) (t : Totals) (id_ : list N) :
  run slugify faults b info d = (d', Ok t) ->
  id_ ∈ seen_of (rows_ins b) ->
  exists e,
    last_extracted b (rows_ins b) id_ = Some e
    /\ listings d' !! id_
       = Some (entry id_ e (r_now info)
                 (fix_slug slugify id_ (start_slug (listings d) id_))).
Proof.
  intros Hrun Hin. apply run_ok in Hrun as (Hok & Hls & _).
  destruct (after_rows_seen slugify b (r_now info) (rows_ins b) d id_ Hok Hin)
    as (e & Hlast & Hlk).
  exists e. split; [done|]. rewrite Hls.
  destruct (r_do_mark_sold info); [|done].
  rewrite retire_lookup, Hlk, seen_ids_of_run by done. simpl.
  unfold to_retire. rewrite (bool_decide_eq_true_2 (id_ ∈ _)) by done.
  by rewrite andb_false_r.
Qed.

Lemma run_listing_unseen (faults : nat -> bool) (b : Bundle) (info : RunInfo)
    (d d' : DB) (t : Totals) (id_ : list N) :
  run slugify faults b info d = (d', Ok t) ->
  id_ ∉ seen_of (rows_ins b) ->
  listings d' !! id_
  = (fun obj => if r_do_mark_sold info && bool_decide (status obj = STATUS_ACTIVE)
                then sold (r_now info) obj else obj) <$> listings d !! id_.
Proof.
  intros Hrun Hnotin. apply run_ok in Hrun as (Hok & Hls & _).
  rewrite Hls. destruct (r_do_mark_sold info); simpl.
  - rewrite retire_lookup, after_rows_unseen, seen_ids_of_run by done.
    unfold to_retire. rewrite (bool_decide_eq_false_2 (id_ ∈ _)) by done.
    destruct (listings d !! id_) as [obj|]; [|done]. simpl.
    by rewrite andb_true_r.
  - rewrite after_rows_unseen by done. by destruct (listings d !! id_).
Qed.


End Idempotence.




(** ** Characters and patterns *)

(** *** Characters *)

Ltac N_bools :=
  repeat match goal with
    | H : (_ && _) = true |- _ => apply andb_true_iff in H as [? ?]
    | H : (_ || _) = true |- _ => apply orb_true_iff in H as [?|?]
    | H : (_ && _) = false |- _ => apply andb_false_iff in H as [?|?]
    | H : (_ || _) = false |- _ => apply orb_false_iff in H as [? ?]
    | H : negb _ = true |- _ => apply negb_true_iff in H
    | H : negb _ = false |- _ => apply negb_false_iff in H
    | H : (_ <=? _)%N = true |- _ => apply N.leb_le in H
    | H : (_ <=? _)%N = false |- _ => apply N.leb_gt in H
    | H : (_ =? _)%N = true |- _ => apply N.eqb_eq in H
    | H : (_ =? _)%N = false |- _ => apply N.eqb_neq in H
    end.

Lemma tolower_cases (c : N) :
  tolower c = c \/ tolower c = (c + 32)%N /\ (65 <= c <= 90 \/ 192 <= c <= 222)%N
  \/ tolower c = (c + 1)%N /\ (c = 352 \/ c = 338 \/ c = 381)%N
  \/ tolower c = 255%N /\ c = 376%N.
Proof.
  unfold tolower.
  destruct ((65 <=? c)%N && (c <=? 90)%N) eqn:H1.
  { N_bools; right; left; (split; [done|lia]). }
  clear H1.
  destruct ((192 <=? c)%N && (c <=? 222)%N && negb (c =? 215)%N) eqn:H2.
  { N_bools; right; left; (split; [done|lia]). }
  clear H2.
  destruct ((c =? 352)%N || (c =? 338)%N || (c =? 381)%N) eqn:H3.
  { N_bools; right; right; left; (split; [done|lia]). }
  clear H3.
  destruct (c =? 376)%N eqn:H4.
  { N_bools. right. right. right. done. }
  by left.
Qed.

Lemma isspace_cases (c : N) :
  isspace c = true ->
  (9 <= c <= 13 \/ 28 <= c <= 32 \/ c = 133 \/ c = 160 \/ c = 5760
   \/ 8192 <= c <= 8202 \/ c = 8232 \/ c = 8233 \/ c = 8239 \/ c = 8287
   \/ c = 12288)%N.
Proof. unfold isspace. intros H. N_bools; lia. Qed.

(** Whitespace has no case. *)
Lemma isspace_tolower (c : N) : isspace c = true -> tolower c = c.
Proof.
  intros Hs%isspace_cases.
  destruct (tolower_cases c) as [H|[[H ?]|[[H ?]|[H ?]]]]; [done|lia..].
Qed.

Lemma tolower_space_inv (c : N) : tolower c = 32%N -> c = 32%N.
Proof.
  intros H. destruct (tolower_cases c) as [H'|[[H' ?]|[[H' ?]|[H' ?]]]]; lia.
Qed.

Lemma tolower_colon_inv (c : N) : tolower c = 58%N -> c = 58%N.
Proof.
  intros H. destruct (tolower_cases c) as [H'|[[H' ?]|[[H' ?]|[H' ?]]]]; lia.
Qed.

Lemma tolower_p_not_space (c : N) : tolower c = 112%N -> isspace c = false.
Proof.
  intros H. destruct (isspace c) eqn:Hs; [|done].
  rewrite (isspace_tolower c Hs) in H. subst c. discriminate.
Qed.

(** *** The matcher *)

Lemma star_greedy_all {R} (p : N -> bool) (s : list N) (k : list N -> option R) (r : R) :
  Forall (fun c => p c = true) s -> k [] = Some r -> star_greedy p s k = Some r.
Proof.
  intros Hall Hk. induction Hall as [|c s Hc _ IH]; simpl; [done|].
  by rewrite Hc, IH.
Qed.

Lemma star_greedy_nil {R} (p : N -> bool) (k : list N -> option R) :
  star_greedy p [] k = k [].
Proof. done. Qed.

Lemma star_greedy_cons {R} (p : N -> bool) (c : N) (s : list N)
    (k : list N -> option R) :
  star_greedy p (c :: s) k
  = if p c then
      match star_greedy p s k with
      | Some r => Some r
      | None => k (c :: s)
      end
    else k (c :: s).
Proof. done. Qed.

Lemma star_greedy_stop {R} (p : N -> bool) (c : N) (s : list N)
    (k : list N -> option R) :
  p c = false -> star_greedy p (c :: s) k = k (c :: s).
Proof. intros Hc. simpl. by rewrite Hc. Qed.

Lemma rmatch_Seq {R} (fl : flags) (r1 r2 : regex) (s : list N)
    (caps : list (list N)) (k : list N -> list (list N) -> option R) :
  rmatch fl (Seq r1 r2) s caps k
  = rmatch fl r1 s caps (fun s' caps' => rmatch fl r2 s' caps' k).
Proof. done. Qed.

Lemma rmatch_Atom_cons {R} (fl : flags) (a : atom) (c : N) (s : list N)
    (caps : list (list N)) (k : list N -> list (list N) -> option R) :
  rmatch fl (Atom a) (c :: s) caps k
  = if atom_match fl a c then k s caps else None.
Proof. done. Qed.

Lemma rmatch_Star {R} (fl : flags) (a : atom) (s : list N)
    (caps : list (list N)) (k : list N -> list (list N) -> option R) :
  rmatch fl (Star a) s caps k
  = star_greedy (atom_match fl a) s (fun s' => k s' caps).
Proof. done. Qed.

Lemma rmatch_Opt_cons {R} (fl : flags) (a : atom) (c : N) (s : list N)
    (caps : list (list N)) (k : list N -> list (list N) -> option R) :
  rmatch fl (Opt a) (c :: s) caps k
  = if atom_match fl a c then
      match k s caps with
      | Some x => Some x
      | None => k (c :: s) caps
      end
    else k (c :: s) caps.
Proof. done. Qed.


(** Under [re.I] a character below the letters matches itself only. *)
Lemma tolower_low_inv (c l : N) : (l < 97)%N -> tolower c = l -> c = l.
Proof.
  intros Hl H. destruct (tolower_cases c) as [H'|[[H' ?]|[[H' ?]|[H' ?]]]]; lia.
Qed.

Lemma atom_lit_low (fl : flags) (l c : N) :
  (l < 65)%N -> atom_match fl (Lit l) c = (c =? l)%N.
Proof.
  intros Hl. cbn [atom_match].
  assert (Hfix : tolower l = l).
  { destruct (tolower_cases l) as [H'|[[H' ?]|[[H' ?]|[H' ?]]]]; lia. }
  destruct (IGNORECASE fl); [|done]. rewrite Hfix.
  destruct (N.eqb_spec c l) as [->|Hne]; [by rewrite Hfix, N.eqb_refl|].
  apply N.eqb_neq. intros H. apply Hne. apply tolower_low_inv; [lia|done].
Qed.

(** A greedy repetition followed by something that cannot start with a
    repeated character gives back nothing. *)
Lemma star_greedy_lstrip {R} (p : N -> bool) (s : list N) (k : list N -> option R) :
  (forall c s', p c = true -> k (c :: s') = None) ->
  star_greedy p s k = k (lstrip_by p s).
Proof.
  intros Hk. induction s as [|c s IH]; [done|].
  rewrite star_greedy_cons. cbn [lstrip_by].
  destruct (p c) eqn:Hc; [|done].
  rewrite IH, (Hk c s Hc). by destruct (k (lstrip_by p s)).
Qed.

Lemma lstrip_by_length (p : N -> bool) (s : list N) :
  (length (lstrip_by p s) <= length s)%nat.
Proof.
  induction s as [|c s IH]; [done|]. cbn [lstrip_by].
  destruct (p c); simpl; lia.
Qed.

(** [re.sub] with a pattern that matches exactly the tags [tag_length]
    describes. *)
Lemma re_sub_replace_tags (fl : flags) (r : regex) (repl : list N)
    (tag_length : list N -> option nat) :
  (forall s, match_len fl r s = tag_length s) ->
  (forall s, tag_length s <> Some 0%nat) ->
  tag_length [] = None ->
  forall skip s, re_sub_aux fl r repl skip s = replace_tags tag_length repl skip s.
Proof.
  intros Hlen Hpos Hnil skip s. revert skip.
  induction s as [|c s IH]; intros skip.
  - cbn [re_sub_aux replace_tags]. rewrite Hlen, Hnil. by destruct skip.
  - cbn [re_sub_aux replace_tags]. destruct skip as [|n]; [|apply IH].
    rewrite Hlen. pose proof (Hpos (c :: s)) as Hp.
    destruct (tag_length (c :: s)) as [[|n]|]; [done| |]; by rewrite IH.
Qed.


(** ** The description and the order of its rows (C8) *)

Section Description.

Import import_centris.

(** The pattern of the line-break tags matches the tags as worded. *)
Lemma match_len_BR (s : list N) :
  match_len BR_FLAGS BR_RE s = line_break_length s.
Proof.
  unfold match_len, match_at, BR_RE.
  change (lits (py "<br"))
    with (Seq (Atom (Lit 60)) (Seq (Atom (Lit 98)) (Seq (Atom (Lit 114)) Eps))).
  destruct s as [|c [|b [|r t]]]; [done| | |].
  - cbn [rmatch]. by destruct (atom_match _ _ c).
  - cbn [rmatch]. destruct (atom_match _ _ c); [|done]. by destruct (atom_match _ _ b).
  - cbn [rmatch]. rewrite (atom_lit_low _ 60) by done.
    change (atom_match BR_FLAGS (Lit 98) b) with (tolower b =? 98)%N.
    change (atom_match BR_FLAGS (Lit 114) r) with (tolower r =? 114)%N.
    cbn [line_break_length].
    destruct (c =? 60)%N; [|done]. destruct (tolower b =? 98)%N; [|done].
    destruct (tolower r =? 114)%N; [|done]. cbn [andb].
    change (atom_match BR_FLAGS Space) with isspace.
    rewrite star_greedy_lstrip.
    2:{ intros c0 s' Hc0. apply isspace_cases in Hc0.
        rewrite (atom_lit_low _ 47), (atom_lit_low _ 62) by done.
        destruct (N.eqb_spec c0 47) as [->|_]; [lia|].
        destruct (N.eqb_spec c0 62) as [->|_]; [lia|]. done. }
    pose proof (lstrip_by_length isspace t) as Hle.
    destruct (lstrip_by isspace t) as [|c1 t1]; [done|].
    rewrite (atom_lit_low _ 47), !(atom_lit_low _ 62) by done.
    destruct (N.eqb_spec c1 62) as [->|Hc1].
    + cbn [N.eqb Pos.eqb]. cbn [fmap option_fmap option_map]. f_equal.
      cbn [length] in *. lia.
    + destruct (N.eqb_spec c1 47) as [->|_]; [|done].
      destruct t1 as [|c2 t2]; [done|].
      rewrite ?(atom_lit_low _ 62) by done.
      destruct (c2 =? 62)%N; [|done].
      cbn [fmap option_fmap option_map]. f_equal. cbn [length] in *. lia.
Qed.

Lemma line_break_length_pos (s : list N) : line_break_length s <> Some 0%nat.
Proof.
  destruct s as [|c [|b [|r t]]]; try done. cbn [line_break_length].
  destruct ((c =? 60)%N && (tolower b =? 98)%N && (tolower r =? 114)%N); [|done].
  destruct (lstrip_by isspace t) as [|c1 [|c2 t2]]; [done| |].
  - destruct (c1 =? 62)%N; [intros [=]; lia|]. by destruct (c1 =? 47)%N.
  - destruct (c1 =? 62)%N; [intros [=]; lia|]. destruct (c1 =? 47)%N; [|done].
    destruct (c2 =? 62)%N; [intros [=]; lia|done].
Qed.

(** [re.sub] with the pattern of the line-break tags puts a space in the
    place of every tag. *)
Lemma re_sub_BR (s : list N) :
  re_sub BR_FLAGS BR_RE SPACE s = breaks_to_spaces s.
Proof.
  apply (re_sub_replace_tags BR_FLAGS BR_RE SPACE line_break_length);
    [apply match_len_BR|apply line_break_length_pos|done].
Qed.

Lemma is_marked_flagged (r : list (list N)) : is_marked r = true <-> flagged r.
Proof.
  unfold is_marked, flagged, pystr_eqb.
  rewrite andb_true_iff, Nat.leb_le, bool_decide_eq_true. done.
Qed.

Lemma remark_key_number (r : list (list N)) :
  remark_key r = of_option ValueError (sequence_number r).
Proof.
  unfold remark_key, sequence_number. by destruct (clean (get r 1)).
Qed.

Lemma key_ok_number (r : list (list N)) :
  key_ok remark_key r <-> is_Some (sequence_number r).
Proof.
  unfold key_ok. rewrite remark_key_number.
  destruct (sequence_number r) as [n|]; simpl.
  - split; [by eexists|]. intros _. by exists n.
  - split; [intros [n [=]]|intros [n [=]]].
Qed.

Lemma key_or_zero_number (r : list (list N)) :
  key_or_zero remark_key r = default 0%Z (sequence_number r).
Proof.
  unfold key_or_zero. rewrite remark_key_number. by destruct (sequence_number r).
Qed.

Lemma Sorted_key_le_ext {A} (key1 key2 : A -> Z) (l : list A) :
  (forall x, key1 x = key2 x) -> Sorted (key_le key1) l -> Sorted (key_le key2) l.
Proof.
  intros Hext. induction 1 as [|x l _ IH Hhd]; constructor; [done|].
  destruct Hhd as [|y l' Hxy]; constructor. unfold key_le in *.
  by rewrite <- !Hext.
Qed.

(** The description in the words of the claim, for the order [try_sort]
    leaves the flagged rows in. *)
Lemma extract_description_of (remarques_rows : list (list (list N))) :
  extract_description remarques_rows
  = description_of (try_sort remark_key (filter flagged remarques_rows)).
Proof.
  unfold extract_description, description_of.
  rewrite re_sub_BR.
  rewrite (list_filter_iff (fun r => is_marked r = true) flagged)
    by apply is_marked_flagged.
  rewrite (list_filter_iff (fun t => truthy t = true) (fun t => t <> []))
    by apply truthy_true.
  unfold nonempty_or_none. by destruct (strip _).
Qed.

End Description.

(** C8, counterexample: a row with an empty sequence value is sorted as
    number 0, ahead of the row of sequence 2, where the wording keeps the
    encounter order because one sequence value is not a number. *)
Lemma C8_empty_sequence_sorts_as_zero :
  import_centris.extract_description
    [ [py "1001"; py "2"; py "F"; []; []; []; py "b"];
      [py "1001"; []; py "F"; []; []; []; py "a"] ]
  = Some (py "a b")
  /\ description_as_worded
       [ [py "1001"; py "2"; py "F"; []; []; []; py "b"];
         [py "1001"; []; py "F"; []; []; []; py "a"] ]
     = Some (py "b a").
Proof. split; vm_compute; reflexivity. Qed.

(** C8, amended: the description is built from the remarks rows that have
    seven columns at least and the marker in the third.  An empty sequence
    value counts as 0; when every other sequence value reads as an integer
    the rows are taken in ascending order of these numbers, rows of equal
    number staying in encounter order; when one does not, the rows are
    taken in encounter order.  The non-empty cleaned texts (last column) of
    the rows so ordered are joined with single spaces, every line-break tag
    ([<br], in either case, whitespace, [>] or [/>]) is replaced by a space,
    and the result is trimmed, an empty result being no description. *)
Theorem C8_description_rows_in_order (remarques_rows : list (list (list N))) :
  let chosen := filter flagged remarques_rows in
  let number := fun r => default 0%Z (sequence_number r) in
  exists ordered,
    import_centris.extract_description remarques_rows = description_of ordered
    /\ ordered ≡ₚ chosen
    /\ (Forall (fun r => is_Some (sequence_number r)) chosen ->
        Sorted (key_le number) ordered
        /\ forall k, filter (fun r => number r = k) ordered
                     = filter (fun r => number r = k) chosen)
    /\ (Exists (fun r => sequence_number r = None) chosen ->
        ordered = chosen).
Proof.
  intros chosen number.
  exists (try_sort import_centris.remark_key chosen).
  split; [apply extract_description_of|].
  assert (Hnum : forall r, key_or_zero import_centris.remark_key r = number r)
    by apply key_or_zero_number.
  destruct (Forall_Exists_dec (key_ok import_centris.remark_key)
              (fun r => ~ key_ok import_centris.remark_key r)
              (key_ok_dec import_centris.remark_key) chosen) as [Hall|Hsome].
  - rewrite try_sort_all_ok by done.
    split; [apply sort_by_perm|].
    split.
    + intros _. split.
      * apply (Sorted_key_le_ext _ _ _ Hnum), sort_by_sorted.
      * intros k.
        rewrite !(list_filter_iff (fun r => number r = k)
                    (fun r => key_or_zero import_centris.remark_key r = k))
          by (intros r; by rewrite Hnum).
        apply sort_by_stable.
    + intros Hex. exfalso. apply Exists_exists in Hex as (r & Hr & Hbad).
      pose proof (proj1 (Forall_forall _ _) Hall r Hr) as Hok.
      apply key_ok_number in Hok as [n Hn]. congruence.
  - rewrite try_sort_some_raise by done.
    split; [done|]. split; [|done].
    intros Hall. exfalso.
    apply Exists_exists in Hsome as (r & Hr & Hbad).
    apply Hbad, key_ok_number. by apply (proj1 (Forall_forall _ _) Hall).
Qed.

(** A sequence value of 4301 digits is more than [int] reads: the rows
    stay in encounter order. *)
Lemma long_sequence_keeps_encounter_order :
  import_centris.extract_description
    [ [py "1001"; replicate 4301 57%N; py "F"; []; []; []; py "b"];
      [py "1001"; py "1"; py "F"; []; []; []; py "a"] ]
  = Some (py "b a").
Proof. vm_compute. reflexivity. Qed.

(** The copy of [extract_description] in [parse_centris_zip.py] orders
    the rows alike but leaves a line-break tag in place, its pattern asking
    for a backslash after [<br]. *)
Lemma script_description_keeps_line_breaks :
  parse_centris_zip.extract_description
    [[py "1001"; py "1"; py "F"; []; []; []; py "a<br>b"]]
  = Some (py "a<br>b")
  /\ import_centris.extract_description
       [[py "1001"; py "1"; py "F"; []; []; []; py "a<br>b"]]
     = Some (py "a b").
Proof. split; vm_compute; reflexivity. Qed.


(** ** The proximity fallback (C6) *)

(** *** The matcher on the pattern of the fallback *)

(** [(.+)] under [re.S] takes everything that is left. *)
Lemma capture_to_end {R} (s : list N) (caps : list (list N))
    (k : list N -> list (list N) -> option R) (r : R) :
  s ≠ [] -> k [] (caps ++ [s]) = Some r ->
  rmatch import_centris.PROX_FLAGS (Group (Plus Dot)) s caps k = Some r.
Proof.
  intros Hs Hk. destruct s as [|c s']; [done|].
  cbn [rmatch atom_match import_centris.PROX_FLAGS DOTALL orb].
  apply star_greedy_all.
  - apply Forall_forall. done.
  - cbn [length]. rewrite Nat.sub_0_r.
    change (S (length s')) with (length (c :: s')). by rewrite firstn_all.
Qed.

Lemma capture_nothing {R} (caps : list (list N))
    (k : list N -> list (list N) -> option R) :
  rmatch import_centris.PROX_FLAGS (Group (Plus Dot)) [] caps k = None.
Proof. done. Qed.

Lemma segment_of_cons_space (c : N) (rest : list N) :
  isspace c = true -> rest ≠ [] -> segment_of (c :: rest) = segment_of rest.
Proof.
  intros Hc Hrest. unfold segment_of. simpl. rewrite Hc.
  destruct (lstrip_by isspace rest); [|done].
  destruct rest; [done|]. done.
Qed.

(** [\s*(.+)$] after the marker: the whitespace is skipped and group 1 is
    the rest, unless the rest is all whitespace, where backtracking leaves
    its last character to the group. *)
Lemma skip_space_then_capture (rest : list N) (caps : list (list N)) :
  rest ≠ [] ->
  star_greedy isspace rest
    (fun s' => rmatch import_centris.PROX_FLAGS (Group (Plus Dot)) s' caps
                 (fun s'' caps' => rmatch import_centris.PROX_FLAGS End s'' caps'
                                     (fun s3 caps3 => Some (caps3, s3))))
  = Some (caps ++ [segment_of rest], []).
Proof.
  induction rest as [|c rest IH]; intros Hne; [done|].
  destruct (isspace c) eqn:Hc.
  - rewrite star_greedy_cons, Hc.
    destruct rest as [|c' rest'].
    + rewrite star_greedy_nil, capture_nothing.
      rewrite (capture_to_end [c] caps _ (caps ++ [[c]], [])) by done.
      unfold segment_of. simpl. by rewrite Hc.
    + rewrite IH by done. by rewrite (segment_of_cons_space c (c' :: rest')).
  - rewrite star_greedy_stop by done.
    assert (Hseg : segment_of (c :: rest) = c :: rest)
      by (unfold segment_of; simpl; by rewrite Hc).
    rewrite Hseg. by apply capture_to_end.
Qed.

Lemma atom_lit_ci (c l : N) :
  tolower c = tolower l ->
  atom_match import_centris.PROX_FLAGS (Lit l) c = true.
Proof. intros H. simpl. rewrite H. apply N.eqb_refl. Qed.

Lemma proximite_chars :
  py "proximité" = [112; 114; 111; 120; 105; 109; 105; 116; 233]%N.
Proof. vm_compute. reflexivity. Qed.

(** A literal text matches what equals it up to case, under [re.I]. *)
Lemma rmatch_lits_ci {R} (w lit rest : list N) (caps : list (list N))
    (k : list N -> list (list N) -> option R) :
  ci_eq w lit ->
  rmatch import_centris.PROX_FLAGS (lits lit) (w ++ rest) caps k = k rest caps.
Proof.
  induction 1 as [|c l w lit Hc _ IH]; [done|].
  cbn [lits foldr app]. rewrite rmatch_Seq, rmatch_Atom_cons, atom_lit_ci by done.
  apply IH.
Qed.

(** At a marker followed by some text, the pattern matches and group 1 is
    [segment_of] that text. *)
Lemma match_at_marker (mk rest : list N) :
  ci_eq mk MARKER -> rest ≠ [] ->
  match_at import_centris.PROX_FLAGS import_centris.PROX_RE (mk ++ rest)
  = Some ([segment_of rest], []).
Proof.
  unfold ci_eq, MARKER. intros Hmk Hrest.
  apply Forall2_cons_inv_r in Hmk as (c0 & mk1 & H0 & Hmk & ->).
  apply Forall2_cons_inv_r in Hmk as (c1 & mk2 & H1 & Hmk & ->).
  apply tolower_space_inv in H1 as ->.
  assert (Hsplit : exists w c11, mk2 = w ++ [c11]
                     /\ ci_eq w (py "proximité") /\ tolower c11 = 58%N
                     /\ exists c2 w', w = c2 :: w' /\ tolower c2 = 112%N).
  { rewrite proximite_chars. unfold ci_eq.
    repeat match goal with
      | H : Forall2 _ _ (_ :: _) |- _ =>
          apply Forall2_cons_inv_r in H as (? & ? & ? & H & ->)
      | H : Forall2 _ _ [] |- _ => apply Forall2_nil_inv_r in H as ->
      end.
    eexists [_; _; _; _; _; _; _; _; _], _.
    split; [reflexivity|]. split; [by repeat constructor|]. split; [done|].
    eexists _, _. split; [reflexivity|done]. }
  destruct Hsplit as (w & c11 & -> & Hw & H11 & c2 & w' & -> & H2).
  apply tolower_colon_inv in H11 as ->.
  unfold match_at, import_centris.PROX_RE.
  rewrite !rmatch_Seq. cbn [app].
  rewrite rmatch_Atom_cons, atom_lit_ci by done.
  rewrite rmatch_Star, star_greedy_cons.
  change (atom_match import_centris.PROX_FLAGS Space 32) with true. cbv iota.
  rewrite star_greedy_stop by (by apply tolower_p_not_space).
  replace (c2 :: (w' ++ [58%N]) ++ rest) with ((c2 :: w') ++ 58%N :: rest)
    by (simpl; by rewrite <- app_assoc).
  rewrite rmatch_lits_ci by done.
  rewrite rmatch_Star, star_greedy_stop by done.
  rewrite rmatch_Opt_cons.
  change (atom_match import_centris.PROX_FLAGS (Lit 58) 58) with true. cbv iota.
  rewrite rmatch_Star.
  change (atom_match import_centris.PROX_FLAGS Space) with isspace.
  by rewrite skip_space_then_capture.
Qed.

(** *** Searching *)

Lemma re_search_here (fl : flags) (r : regex) (s : list N)
    (caps : list (list N)) (rest : list N) :
  match_at fl r s = Some (caps, rest) -> re_search fl r s = Some caps.
Proof. intros H. destruct s; simpl; by rewrite H. Qed.

Lemma re_search_skip (fl : flags) (r : regex) (pre s : list N) :
  (forall i, (i < length pre)%nat -> match_at fl r (drop i (pre ++ s)) = None) ->
  re_search fl r (pre ++ s) = re_search fl r s.
Proof.
  induction pre as [|c pre IH]; intros Hnone; [done|].
  pose proof (Hnone 0%nat ltac:(simpl; lia)) as H0. cbn [drop app] in H0.
  cbn [app re_search]. rewrite H0.
  apply IH. intros i Hi. apply (Hnone (S i)). simpl. lia.
Qed.

(** *** Splitting and cleaning a segment that starts with whitespace *)

Lemma sep_not_at_space (c : N) (s : list N) :
  isspace c = true ->
  match_len import_centris.NO_FLAGS import_centris.SEP_RE (c :: s) = None.
Proof.
  intros Hc%isspace_cases.
  unfold match_len, match_at, import_centris.SEP_RE.
  rewrite rmatch_Seq, rmatch_Atom_cons.
  assert (Hno : atom_match import_centris.NO_FLAGS (OneOf [59%N; 44%N]) c = false).
  { simpl. rewrite !orb_false_r. apply orb_false_iff.
    split; apply N.eqb_neq; lia. }
  by rewrite Hno.
Qed.

Lemma tag_not_at_space (c : N) (s : list N) :
  isspace c = true ->
  match_len import_centris.NO_FLAGS import_centris.TAG_RE (c :: s) = None.
Proof.
  intros Hc%isspace_cases.
  unfold match_len, match_at, import_centris.TAG_RE.
  rewrite !rmatch_Seq, rmatch_Atom_cons.
  assert (Hno : atom_match import_centris.NO_FLAGS (Lit 60) c = false).
  { simpl. apply N.eqb_neq. lia. }
  by rewrite Hno.
Qed.

Lemma re_split_aux_prefix (fl : flags) (r : regex) (s : list N) (skip : nat)
    (cur pre : list N) :
  re_split_aux fl r skip (cur ++ pre) s
  = match re_split_aux fl r skip cur s with
    | p :: ps => (rev pre ++ p) :: ps
    | [] => []
    end.
Proof.
  revert skip cur. induction s as [|c s IH]; intros skip cur.
  - simpl. rewrite rev_app_distr. by destruct skip, (match_len fl r []).
  - cbn [re_split_aux]. destruct skip as [|n]; [|apply IH].
    destruct (match_len fl r (c :: s)) as [[|n]|].
    + by rewrite rev_app_distr.
    + by rewrite rev_app_distr.
    + apply (IH 0%nat (c :: cur)).
Qed.

Lemma re_split_leading_space (ws s : list N) :
  Forall (fun c => isspace c = true) ws ->
  re_split import_centris.NO_FLAGS import_centris.SEP_RE (ws ++ s)
  = match re_split import_centris.NO_FLAGS import_centris.SEP_RE s with
    | p :: ps => (ws ++ p) :: ps
    | [] => []
    end.
Proof.
  intros Hws. unfold re_split.
  assert (Hshift : forall cur,
            re_split_aux import_centris.NO_FLAGS import_centris.SEP_RE 0 cur (ws ++ s)
            = re_split_aux import_centris.NO_FLAGS import_centris.SEP_RE 0
                (rev ws ++ cur) s).
  { induction Hws as [|c ws Hc _ IH]; intros cur; [done|].
    cbn [app re_split_aux]. rewrite sep_not_at_space by done.
    rewrite IH. simpl. by rewrite <- app_assoc. }
  rewrite Hshift, app_nil_r.
  rewrite (re_split_aux_prefix _ _ s 0 [] (rev ws)). simpl.
  by rewrite rev_involutive.
Qed.

Lemma re_sub_leading_space (ws s : list N) :
  Forall (fun c => isspace c = true) ws ->
  re_sub import_centris.NO_FLAGS import_centris.TAG_RE [] (ws ++ s)
  = ws ++ re_sub import_centris.NO_FLAGS import_centris.TAG_RE [] s.
Proof.
  unfold re_sub. induction 1 as [|c ws Hc _ IH]; [done|].
  cbn [app re_sub_aux]. rewrite tag_not_at_space by done. by rewrite IH.
Qed.

Lemma lstrip_leading (p : N -> bool) (ws s : list N) :
  Forall (fun c => p c = true) ws -> lstrip_by p (ws ++ s) = lstrip_by p s.
Proof. induction 1 as [|c ws Hc _ IH]; [done|]. simpl. by rewrite Hc. Qed.

Lemma strip_leading_space (ws s : list N) :
  Forall (fun c => isspace c = true) ws -> strip (ws ++ s) = strip s.
Proof. intros Hws. unfold strip, strip_by. by rewrite lstrip_leading. Qed.

Lemma items_of_leading_space (ws s : list N) :
  Forall (fun c => isspace c = true) ws ->
  import_centris.items_of (ws ++ s) = import_centris.items_of s.
Proof.
  intros Hws. unfold import_centris.items_of.
  rewrite re_split_leading_space by done.
  destruct (re_split import_centris.NO_FLAGS import_centris.SEP_RE s) as [|p ps];
    [done|].
  cbn [map]. by rewrite re_sub_leading_space, strip_leading_space.
Qed.

Lemma lstrip_split (p : N -> bool) (s : list N) :
  exists ws, Forall (fun c => p c = true) ws /\ s = ws ++ lstrip_by p s.
Proof.
  induction s as [|c s (ws & Hws & IH)]; [by exists []|].
  simpl. destruct (p c) eqn:Hc.
  - exists (c :: ws). split; [by constructor|]. simpl. by rewrite <- IH.
  - by exists [].
Qed.

Lemma items_of_segment (rest : list N) :
  rest ≠ [] ->
  import_centris.items_of (segment_of rest) = import_centris.items_of rest.
Proof.
  intros Hne. unfold segment_of.
  destruct (lstrip_split isspace rest) as (ws & Hws & Hrest).
  destruct (lstrip_by isspace rest) as [|c seg] eqn:Hl.
  - rewrite app_nil_r in Hrest. subst ws.
    destruct (last rest) as [c|] eqn:Hlast.
    + assert (Hc : isspace c = true).
      { apply last_Some_elem_of in Hlast.
        by apply (proj1 (Forall_forall _ _) Hws). }
      rewrite <- (app_nil_r [c]), <- (app_nil_r rest) at 1.
      rewrite !items_of_leading_space; [done|done|by repeat constructor].
    + apply last_None in Hlast. done.
  - rewrite Hrest. by rewrite items_of_leading_space.
Qed.

(** *** The pieces as worded *)

Lemma star_greedy_total {R} (p : N -> bool) (s : list N) (f : list N -> R) :
  star_greedy p s (fun s' => Some (f s')) = Some (f (lstrip_by p s)).
Proof.
  induction s as [|c s IH]; [done|]. rewrite star_greedy_cons. cbn [lstrip_by].
  destruct (p c); [|done]. by rewrite IH.
Qed.

Lemma star_greedy_inv {R} (p : N -> bool) (s : list N) (k : list N -> option R) (r : R) :
  star_greedy p s k = Some r ->
  exists ws s', s = ws ++ s' /\ Forall (fun c => p c = true) ws /\ k s' = Some r.
Proof.
  induction s as [|c s IH]; [intros H; by exists [], []|].
  rewrite star_greedy_cons. destruct (p c) eqn:Hc.
  - destruct (star_greedy p s k) as [r'|] eqn:Hs.
    + intros [= <-]. destruct (IH eq_refl) as (ws & s' & -> & Hws & Hk).
      exists (c :: ws), s'. split; [done|]. split; [by constructor|done].
    + intros Hk. by exists [], (c :: s).
  - intros Hk. by exists [], (c :: s).
Qed.

(** The pattern of the separators: a semicolon or a comma, and the
    whitespace that follows. *)
Lemma match_len_SEP (s : list N) :
  match_len import_centris.NO_FLAGS import_centris.SEP_RE s
  = match s with
    | [] => None
    | c :: s' =>
        if is_separator c
        then Some (S (length s' - length (lstrip_by isspace s')))
        else None
    end.
Proof.
  unfold match_len, match_at, import_centris.SEP_RE. destruct s as [|c s']; [done|].
  cbn [rmatch].
  change (atom_match import_centris.NO_FLAGS (OneOf [59%N; 44%N]) c)
    with ((c =? 59)%N || ((c =? 44)%N || false)).
  rewrite orb_false_r. fold (is_separator c). destruct (is_separator c); [|done].
  change (atom_match import_centris.NO_FLAGS Space) with isspace.
  rewrite (star_greedy_total isspace s' (fun s'' => ([] : list (list N), s''))).
  cbn [fmap option_fmap option_map]. f_equal.
  pose proof (lstrip_by_length isspace s'). cbn [length]. lia.
Qed.

Lemma to_closing_bounds (s : list N) (m : nat) :
  to_closing s = Some m -> (1 <= m <= length s)%nat.
Proof.
  revert m. induction s as [|c s IH]; intros m; [done|]. cbn [to_closing].
  destruct (c =? 62)%N; [intros [= <-]; simpl; lia|].
  destruct (c =? NEWLINE)%N; [done|].
  destruct (to_closing s) as [m'|]; [|done]. intros [= <-].
  specialize (IH m' eq_refl). simpl. lia.
Qed.

Lemma star_lazy_closing {R} (s : list N) (k : list N -> option R) (f : list N -> R) :
  (forall s', k s' = match s' with
                     | c :: r => if (c =? 62)%N then Some (f r) else None
                     | [] => None
                     end) ->
  star_lazy (atom_match import_centris.NO_FLAGS Dot) s k = (fun m => f (drop m s)) <$> to_closing s.
Proof.
  intros Hk. induction s as [|c s IH]; [cbn [star_lazy]; by rewrite Hk|].
  cbn [star_lazy to_closing]. rewrite Hk.
  destruct (c =? 62)%N; [done|].
  change (atom_match import_centris.NO_FLAGS Dot c) with (negb (c =? NEWLINE)%N).
  destruct (c =? NEWLINE)%N; [done|]. cbn [negb]. rewrite IH.
  by destruct (to_closing s).
Qed.

(** The pattern of the markup matches the markup as worded. *)
Lemma match_len_TAG (s : list N) :
  match_len import_centris.NO_FLAGS import_centris.TAG_RE s = markup_length s.
Proof.
  unfold match_len, match_at, import_centris.TAG_RE. destruct s as [|c s']; [done|].
  cbn [rmatch markup_length]. rewrite (atom_lit_low _ 60) by done.
  destruct (c =? 60)%N; [|done].
  rewrite (star_lazy_closing s' _ (fun r => ([] : list (list N), r))).
  2:{ intros [|c0 r]; [done|]. cbn [rmatch]. by rewrite (atom_lit_low _ 62). }
  destruct (to_closing s') as [m|] eqn:Hm; [|done].
  apply to_closing_bounds in Hm. cbn [fmap option_fmap option_map]. f_equal.
  rewrite length_drop. cbn [length]. lia.
Qed.

Lemma re_sub_TAG (s : list N) : re_sub import_centris.NO_FLAGS import_centris.TAG_RE [] s = without_markup s.
Proof.
  apply (re_sub_replace_tags import_centris.NO_FLAGS import_centris.TAG_RE [] markup_length);
    [apply match_len_TAG| |done].
  intros [|c t]; [done|]. cbn [markup_length].
  destruct (c =? 60)%N; [|done]. by destruct (to_closing t).
Qed.

Lemma split_on_nonempty (sep : N -> bool) (s : list N) : split_on sep s <> [].
Proof.
  induction s as [|c s IH]; [done|]. cbn [split_on].
  destruct (sep c); [done|]. by destruct (split_on sep s).
Qed.

Lemma is_separator_not_space (c : N) : isspace c = true -> is_separator c = false.
Proof.
  intros Hc%isspace_cases. unfold is_separator.
  apply orb_false_iff. split; apply N.eqb_neq; lia.
Qed.

(** [re.split] cuts where the wording cuts; a piece differs from the
    piece as worded by the whitespace the pattern takes after a separator,
    which a function blind to leading whitespace does not see. *)
Lemma re_split_as_worded {B} (f : list N -> B) :
  (forall c p, isspace c = true -> f (c :: p) = f p) ->
  forall (s : list N) (skip : nat) (cur : list N),
    Forall (fun c => isspace c = true) (take skip s) ->
    (skip <= length s)%nat ->
    (skip <> 0%nat -> cur = []) ->
    map f (re_split_aux import_centris.NO_FLAGS import_centris.SEP_RE skip cur s)
    = map f (match split_on is_separator s with
             | p :: ps => (rev cur ++ p) :: ps
             | [] => []
             end).
Proof.
  intros Hf. induction s as [|c s IH]; intros skip cur Hws Hlen Hcur.
  - assert (skip = 0%nat) as -> by (simpl in Hlen; lia).
    cbn [re_split_aux split_on]. rewrite match_len_SEP. by rewrite app_nil_r.
  - cbn [re_split_aux split_on]. destruct skip as [|n].
    + rewrite match_len_SEP. destruct (is_separator c) eqn:Hsep.
      * destruct (lstrip_split isspace s) as (ws & Hall & Hs).
        assert (Hn : (length s - length (lstrip_by isspace s))%nat = length ws).
        { rewrite Hs at 1. rewrite length_app. lia. }
        rewrite Hn. cbn [map]. rewrite app_nil_r. f_equal.
        rewrite (IH (length ws) []).
        -- by destruct (split_on is_separator s).
        -- rewrite Hs. by rewrite take_app_length.
        -- apply (f_equal length) in Hs. rewrite length_app in Hs. lia.
        -- done.
      * rewrite (IH 0%nat (c :: cur)); [|by rewrite take_0|lia|done].
        pose proof (split_on_nonempty is_separator s) as Hne.
        destruct (split_on is_separator s) as [|p ps]; [done|].
        cbn [rev]. by rewrite <- app_assoc.
    + rewrite (Hcur ltac:(done)) in *. cbn [take] in Hws.
      apply Forall_cons in Hws as [Hc Hws].
      rewrite (IH n []); [|done|simpl in Hlen; lia|done].
      rewrite (is_separator_not_space c Hc).
      pose proof (split_on_nonempty is_separator s) as Hne.
      destruct (split_on is_separator s) as [|p ps]; [done|].
      cbn [rev app map]. by rewrite Hf.
Qed.

Lemma without_markup_cons_space (c : N) (s : list N) :
  isspace c = true -> without_markup (c :: s) = c :: without_markup s.
Proof.
  intros Hc%isspace_cases. unfold without_markup. cbn [replace_tags markup_length].
  destruct (N.eqb_spec c 60) as [->|_]; [lia|done].
Qed.

Lemma strip_cons_space (c : N) (s : list N) :
  isspace c = true -> strip (c :: s) = strip s.
Proof. intros Hc. unfold strip, strip_by. cbn [lstrip_by]. by rewrite Hc. Qed.

(** The items the fallback appends are the pieces as worded. *)
Lemma items_of_as_worded (seg : list N) :
  import_centris.items_of seg
  = filter (fun item => item <> [])
      (map (fun piece => strip (without_markup piece)) (split_on is_separator seg)).
Proof.
  unfold import_centris.items_of, re_split.
  rewrite (list_filter_iff (fun t => truthy t = true) (fun t => t <> []))
    by apply truthy_true.
  f_equal.
  rewrite (map_ext _ (fun piece => strip (without_markup piece)))
    by (intros p; by rewrite re_sub_TAG).
  rewrite (re_split_as_worded (fun piece => strip (without_markup piece)));
    [|intros c p Hc; by rewrite without_markup_cons_space, strip_cons_space
     |by rewrite take_0|lia|done].
  pose proof (split_on_nonempty is_separator seg).
  by destruct (split_on is_separator seg).
Qed.

Lemma unique_items_as_worded (seg : list N) :
  import_centris.unique ∅ (import_centris.items_of seg) = items_as_worded seg.
Proof.
  rewrite unique_first_occurrences, items_of_as_worded. unfold items_as_worded.
  rewrite list_filter_filter.
  rewrite (filter_all (fun x => x ∉ (∅ : gset (list N))))
    by (apply Forall_forall; intros x _; apply not_elem_of_empty).
  f_equal. apply list_filter_iff. tauto.
Qed.

(** *** Mentions *)

Lemma rmatch_lits_ci_inv {R} (lit s : list N) (caps : list (list N))
    (k : list N -> list (list N) -> option R) (r : R) :
  rmatch import_centris.PROX_FLAGS (lits lit) s caps k = Some r ->
  exists w rest, s = w ++ rest /\ ci_eq w lit /\ k rest caps = Some r.
Proof.
  revert s. induction lit as [|l lit IH]; intros s.
  - intros H. exists [], s. split; [done|]. split; [constructor|done].
  - cbn [lits foldr]. rewrite rmatch_Seq. destruct s as [|a s]; [discriminate|].
    rewrite rmatch_Atom_cons.
    change (atom_match import_centris.PROX_FLAGS (Lit l) a)
      with (tolower a =? tolower l)%N.
    destruct (N.eqb_spec (tolower a) (tolower l)) as [Ha|_]; [|discriminate].
    intros (w & rest & -> & Hw & Hk)%IH.
    exists (a :: w), rest. split; [done|]. split; [by constructor|done].
Qed.

(** The pattern of the fallback matches at the start of a text only where
    the text starts with a mention. *)
Lemma match_at_mention (s : list N) (x : list (list N) * list N) :
  match_at import_centris.PROX_FLAGS import_centris.PROX_RE s = Some x ->
  mention_at_start s.
Proof.
  unfold match_at, import_centris.PROX_RE.
  destruct s as [|a s1]; [discriminate|]. cbn [rmatch].
  change (atom_match import_centris.PROX_FLAGS (Lit 192) a)
    with (tolower a =? 224)%N.
  destruct (N.eqb_spec (tolower a) 224) as [Ha|_]; [|discriminate].
  intros (ws & s2 & -> & Hws & Hk)%star_greedy_inv.
  apply rmatch_lits_ci_inv in Hk as (w & tail & -> & Hw & Hk).
  exists a, ws, w, tail. split; [done|]. split; [done|]. split; [done|].
  split; [done|]. intros ->. discriminate Hk.
Qed.

(** *** The fallback *)

Lemma prox_of_rows_none (carac_rows : list (list (list N))) :
  Forall (fun r => ~ proximity_row r) carac_rows ->
  import_centris.prox_of_rows carac_rows = [].
Proof.
  intros Hrows. by rewrite prox_of_rows_filter, filter_none.
Qed.

(** C6, counterexample: the words "à proximité" occur in the prose before
    the marker with its colon; the pattern, whose colon is optional, matches
    there first, so the list starts with the prose that follows, where the
    wording reads the text after the marker. *)
Lemma C6_earlier_mention_starts_the_segment :
  snd (import_centris.extract_proximites
         (py "Situé à proximité de tout. À proximité: Parc, École") [])
  = [py "de tout. À proximité: Parc"; py "École"]
  /\ proximity_as_worded (py "Situé à proximité de tout. À proximité: Parc, École")
     = [py "Parc"; py "École"].
Proof. split; vm_compute; reflexivity. Qed.

(** C6, amended: when no row of the characteristics table carries the
    proximity code in a row of three columns or more, and the addenda text
    holds the marker "À proximité:" (in any case), followed by at least one
    character and preceded by no mention of the proximity (the words "à
    proximité", in any case, with or without whitespace between them and
    with or without a colon, followed by some text), the proximity list is
    read from the text after the marker: cut at semicolons and commas, each
    piece without its markup and its surrounding whitespace, the empty
    pieces dropped, each item kept where it comes first. *)
Theorem C6_fallback_reads_after_marker (carac_rows : list (list (list N)))
    (pre mk rest : list N) :
  Forall (fun r => ~ proximity_row r) carac_rows ->
  ci_eq mk MARKER ->
  rest ≠ [] ->
  (forall i, (i < length pre)%nat ->
             ~ mention_at_start (drop i (pre ++ mk ++ rest))) ->
  snd (import_centris.extract_proximites (pre ++ mk ++ rest) carac_rows)
  = items_as_worded rest.
Proof.
  intros Hrows Hmk Hrest Hleft.
  change (snd (import_centris.extract_proximites (pre ++ mk ++ rest) carac_rows))
    with (import_centris.unique ∅
            (import_centris.prox_candidates (pre ++ mk ++ rest) carac_rows)).
  rewrite <- unique_items_as_worded.
  f_equal. unfold import_centris.prox_candidates.
  rewrite prox_of_rows_none by done.
  assert (Htruthy : truthy (pre ++ mk ++ rest) = true).
  { apply truthy_true. intros Hnil.
    apply app_eq_nil in Hnil as [_ Hnil]. by apply app_eq_nil in Hnil as [_ ?]. }
  rewrite Htruthy. unfold import_centris.prox_of_addenda.
  rewrite re_search_skip.
  2:{ intros i Hi.
      destruct (match_at import_centris.PROX_FLAGS import_centris.PROX_RE
                  (drop i (pre ++ mk ++ rest))) as [x|] eqn:Hm; [|done].
      destruct (Hleft i Hi). by apply (match_at_mention _ x). }
  rewrite (re_search_here _ _ _ _ _ (match_at_marker mk rest Hmk Hrest)).
  unfold group1. simpl. by apply items_of_segment.
Qed.

(** C6 on a text where prose comes before the marker, written in capitals,
    and where the items carry markup, whitespace, an empty piece and a
    repetition; the table has a row of another category and a row of two
    columns with the proximity code.  Then the text of the scenario. *)
Lemma C6_fallback_reads_after_marker_witness :
  snd (import_centris.extract_proximites
         (py "Vue sur le lac. À PROXIMITÉ: <b>Parc</b>, École;; Parc , <i>École</i>")
         [[py "1001"; py "CHAU"; py "PELC"]; [py "1001"; py "PROX"]])
  = [py "Parc"; py "École"]
  /\ snd (import_centris.extract_proximites
            (py "À proximité: Autoroute, École primaire") [])
     = [py "Autoroute"; py "École primaire"].
Proof.
  split; [|
    assert (Htext : py "À proximité: Autoroute, École primaire"
                    = [] ++ py "À proximité:" ++ py " Autoroute, École primaire")
      by (vm_compute; reflexivity);
    assert (Hitems : items_as_worded (py " Autoroute, École primaire")
                     = [py "Autoroute"; py "École primaire"])
      by (vm_compute; reflexivity);
    rewrite Htext, <- Hitems;
    apply (C6_fallback_reads_after_marker [] [] (py "À proximité:")
             (py " Autoroute, École primaire"));
    [ constructor
    | unfold ci_eq, MARKER; vm_compute; repeat constructor
    | intros H; vm_compute in H; discriminate
    | intros i Hi; simpl in Hi; lia ] ].
  assert (Htext : py "Vue sur le lac. À PROXIMITÉ: <b>Parc</b>, École;; Parc , <i>École</i>"
                  = py "Vue sur le lac. " ++ py "À PROXIMITÉ:"
                    ++ py " <b>Parc</b>, École;; Parc , <i>École</i>")
    by (vm_compute; reflexivity).
  assert (Hitems : items_as_worded (py " <b>Parc</b>, École;; Parc , <i>École</i>")
                   = [py "Parc"; py "École"])
    by (vm_compute; reflexivity).
  rewrite Htext, <- Hitems.
  apply (C6_fallback_reads_after_marker
           [[py "1001"; py "CHAU"; py "PELC"]; [py "1001"; py "PROX"]]
           (py "Vue sur le lac. ") (py "À PROXIMITÉ:")
           (py " <b>Parc</b>, École;; Parc , <i>École</i>")).
  - repeat constructor; intros [Hlen Hcat]; vm_compute in Hlen, Hcat;
      first [discriminate Hcat | lia].
  - unfold ci_eq, MARKER. vm_compute. repeat constructor.
  - intros H. vm_compute in H. discriminate.
  - intros i Hi (a & ws & w & tail & Heq & Ha & _). vm_compute in Hi, Heq.
    do 16 (destruct i as [|i];
           [injection Heq as <- _; vm_compute in Ha; discriminate Ha|]).
    lia.
Defined.

(** The two optional parts of the pattern at work: without the colon, and
    without the whitespace, the segment starts all the same. *)
Lemma fallback_marker_without_colon :
  snd (import_centris.extract_proximites (py "àproximité Parc; École") [])
  = [py "Parc"; py "École"].
Proof. vm_compute. reflexivity. Qed.

(** The copy of [extract_proximites] in [parse_centris_zip.py] finds no
    marker in the text of the scenario, its pattern asking for a backslash
    after [À]; the command renders the two items. *)
Lemma script_proximity_misses_marker :
  parse_centris_zip.extract_proximites (py "À proximité: Autoroute, École primaire") []
  = None
  /\ fst (import_centris.extract_proximites
            (py "À proximité: Autoroute, École primaire") [])
     = py "Autoroute, École primaire".
Proof. split; vm_compute; reflexivity. Qed.


(** ** Dates and archive names *)

Section Calendar.

Local Open Scope Z_scope.

Ltac split_ifs :=
  repeat match goal with
         | |- context [if ?a <? ?b then _ else _] => destruct (Z.ltb_spec a b)
         | |- context [if ?a <=? ?b then _ else _] => destruct (Z.leb_spec a b)
         | |- context [?a =? ?b] => destruct (Z.eqb_spec a b)
         end; cbn [andb orb negb].

Lemma year_of_era (doe : Z) :
  0 <= doe < 146097 ->
  let yoe := (doe - doe / 1460 + doe / 36524 - doe / 146096) / 365 in
  0 <= yoe < 400 /\
  0 <= doe - (365 * yoe + yoe / 4 - yoe / 100) /\
  (doe - (365 * yoe + yoe / 4 - yoe / 100) <= 365) /\
  ((yoe + 1) mod 4 <> 0 \/ ((yoe + 1) mod 100 = 0 /\ (yoe + 1) mod 400 <> 0) ->
   doe - (365 * yoe + yoe / 4 - yoe / 100) <= 364).
Proof.
  intros H. cbv zeta. repeat split; Z.div_mod_to_equations; lia.
Qed.

(** The civil date of a day number is a date of the calendar, and the day
    number of that date is the one started from. *)
Lemma civil_of_days_valid (z : Z) :
  match civil_of_days z with
  | (y, m, d) => valid_date y m d /\ days_of_civil y m d = z
  end.
Proof.
  unfold civil_of_days. cbv zeta.
  set (z0 := z + 719468).
  set (era := z0 / 146097).
  set (doe := z0 - era * 146097).
  assert (Hdoe : 0 <= doe < 146097) by (subst doe era; Z.div_mod_to_equations; lia).
  pose proof (year_of_era doe Hdoe) as Hy. cbv zeta in Hy.
  set (yoe := (doe - doe / 1460 + doe / 36524 - doe / 146096) / 365) in *.
  destruct Hy as (Hyoe & Hdoy0 & Hdoy1 & Hdoy2).
  set (doy := doe - (365 * yoe + yoe / 4 - yoe / 100)) in *.
  set (mp := (5 * doy + 2) / 153).
  assert (Hmp : 0 <= mp <= 11) by (subst mp; Z.div_mod_to_equations; lia).
  unfold valid_date, days_of_civil, days_in_month, is_leap.
  assert (Hera : z0 = era * 146097 + doe) by (subst doe; lia).
  clearbody doe era.
  assert (Hdoy : doe = 365 * yoe + yoe / 4 - yoe / 100 + doy) by (subst doy; lia).
  clearbody doy yoe.
  assert (Hmpd : 153 * mp <= 5 * doy + 2 < 153 * mp + 153)
    by (subst mp; Z.div_mod_to_equations; lia).
  clearbody mp. subst z0.
  split_ifs; (split; [split|]); Z.div_mod_to_equations; lia.
Qed.

Lemma triple_eq (a a' b b' c c' : Z) :
  a = a' -> b = b' -> c = c' -> (a, b, c) = (a', b', c').
Proof. congruence. Qed.

(** The day number of a date of the calendar gives the date back. *)
Lemma civil_of_days_of_civil (y m d : Z) :
  valid_date y m d -> civil_of_days (days_of_civil y m d) = (y, m, d).
Proof.
  unfold valid_date, days_in_month, is_leap, days_of_civil. cbv zeta.
  intros [Hm Hd].
  set (y1 := if m <=? 2 then y - 1 else y) in *.
  set (era := y1 / 400).
  set (yoe := y1 - era * 400).
  set (mp := if 2 <? m then m - 3 else m + 9).
  set (doy := (153 * mp + 2) / 5 + d - 1).
  set (doe := yoe * 365 + yoe / 4 - yoe / 100 + doy).
  assert (Hyoe : 0 <= yoe < 400) by (subst yoe era; Z.div_mod_to_equations; lia).
  assert (Hy1 : y1 = era * 400 + yoe) by (subst yoe; lia).
  assert (Hmp : 0 <= mp <= 11 /\ (m = mp + 3 /\ mp < 10 \/ m = mp - 9 /\ 10 <= mp))
    by (subst mp; destruct (Z.ltb_spec 2 m); lia).
  assert (Hyy : y = (if m <=? 2 then y1 + 1 else y1))
    by (subst y1; destruct (Z.leb_spec m 2); lia).
  assert (Hleap : (y mod 4 = 0 /\ (y mod 100 <> 0 \/ y mod 400 = 0))
                  \/ d <= (if m =? 2 then 28 else 31)).
  { revert Hd. split_ifs; lia. }
  assert (Hdoy : 0 <= doy /\ doy <= 365 /\
                 (((yoe + 1) mod 4 <> 0
                   \/ ((yoe + 1) mod 100 = 0 /\ (yoe + 1) mod 400 <> 0)) -> doy <= 364)
                 /\ 153 * mp <= 5 * doy + 2 < 153 * mp + 153
                 /\ d = doy - (153 * mp + 2) / 5 + 1).
  { subst doy. revert Hd Hleap Hyy. clearbody mp yoe. clear doe.
    split_ifs; intros; repeat split; try (intros; Z.div_mod_to_equations; lia). }
  clearbody doy mp.
  destruct Hdoy as (Hd0 & Hd1 & Hd2 & Hmpd & Hdd).
  assert (Hdoe : 0 <= doe < 146097
                 /\ (doe - doe / 1460 + doe / 36524 - doe / 146096) / 365 = yoe).
  { subst doe. clearbody yoe. clear - Hyoe Hd0 Hd1 Hd2.
    split; Z.div_mod_to_equations; lia. }
  destruct Hdoe as [Hdoe Hyoe'].
  unfold civil_of_days. cbv zeta.
  replace (era * 146097 + doe - 719468 + 719468) with (era * 146097 + doe) by lia.
  assert (He : (era * 146097 + doe) / 146097 = era) by (Z.div_mod_to_equations; lia).
  rewrite He.
  replace (era * 146097 + doe - era * 146097) with doe by lia.
  rewrite Hyoe'.
  replace (doe - (365 * yoe + yoe / 4 - yoe / 100)) with doy by (subst doe; lia).
  assert (Hmp' : (5 * doy + 2) / 153 = mp) by (Z.div_mod_to_equations; lia).
  rewrite Hmp'.
  apply triple_eq.
  - rewrite Hyy, Hy1. destruct Hmp as [_ Hmp]. split_ifs; lia.
  - destruct Hmp as [_ Hmp]. split_ifs; lia.
  - lia.
Qed.

(** The day numbers of the dates with a four-digit year. *)
Lemma days_of_civil_year (y m d : Z) :
  1 <= m <= 12 -> 1 <= d <= 31 ->
  (FIRST_DAY <= days_of_civil y m d -> 1000 <= y)
  /\ (days_of_civil y m d <= LAST_DAY -> y <= 9999)
  /\ (1000 <= y -> FIRST_DAY <= days_of_civil y m d)
  /\ (y <= 9999 -> days_of_civil y m d <= LAST_DAY).
Proof.
  unfold days_of_civil, FIRST_DAY, LAST_DAY. cbv zeta. intros Hm Hd.
  destruct (Z.leb_spec m 2); destruct (Z.ltb_spec 2 m); try lia;
    repeat split; intros; Z.div_mod_to_equations; lia.
Qed.

End Calendar.


(** ** More on the catalog after a run *)

Section RunMore.

Variable slugify : list N -> list N.
Variable faults : nat -> bool.

Lemma entry_carries (id_ : list N) (e : Extracted) (now : Z) (s : list N) :
  carries (entry id_ e now s) e.
Proof. unfold carries. repeat split. Qed.

Lemma sold_same_but_status (now : Z) (l : Listing) : same_but_status (sold now l) l.
Proof. unfold same_but_status. repeat split. Qed.

Lemma same_but_status_refl (l : Listing) : same_but_status l l.
Proof. unfold same_but_status. repeat split. Qed.

(** The values extracted for an identifier are those of the last row that
    carries it. *)
Lemma last_extracted_last (b : Bundle) (pre post : list (list (list N)))
    (r : list (list N)) (id_ : list N) :
  extract_ok b (pre ++ r :: post) ->
  row_id r = Some id_ -> id_ ∉ seen_of post ->
  exists e, extract_row b r id_ = Ok e
            /\ last_extracted b (pre ++ r :: post) id_ = Some e.
Proof.
  intros Hok Hr Hpost. induction pre as [|r0 pre IH]; simpl.
  - apply Forall_cons in Hok as [Hok _]. destruct (Hok _ Hr) as [e He].
    exists e. split; [done|].
    rewrite (last_extracted_unseen slugify b post id_ Hpost).
    rewrite bool_decide_eq_true_2 by done. by rewrite He.
  - apply Forall_cons in Hok as [_ Hok]. destruct (IH Hok) as (e & He & Hl).
    exists e. split; [done|]. simpl in Hl. by rewrite Hl.
Qed.

(** X1: with retirement switched off ([--no-mark-sold]) a run that returns
    reports no listing marked sold, leaves every listing absent from the
    primary table exactly as it was, and makes no listing sold: a listing
    that is sold afterwards was stored, sold and identical before. *)
Theorem retirement_disabled_keeps_absent_listings (b : Bundle) (info : RunInfo)
    (d d' : DB) (t : Totals) :
  r_do_mark_sold info = false ->
  run slugify faults b info d = (d', Ok t) ->
  t_marked_sold t = 0%nat
  /\ (forall id_, id_ ∉ seen_of (rows_ins b) ->
                  listings d' !! id_ = listings d !! id_)
  /\ (forall id_ l', listings d' !! id_ = Some l' -> status l' = STATUS_SOLD ->
                     listings d !! id_ = Some l').
Proof.
  intros Hoff Hrun.
  assert (Hunseen : forall id_, id_ ∉ seen_of (rows_ins b) ->
                               listings d' !! id_ = listings d !! id_).
  { intros id_ Hid. rewrite (run_listing_unseen slugify faults b info d d' t id_ Hrun Hid).
    rewrite Hoff. simpl. by destruct (listings d !! id_). }
  split; [|split; [done|]].
  - apply run_ok in Hrun as (_ & _ & _ & _ & _ & _ & _ & Hsold).
    by rewrite Hoff in Hsold.
  - intros id_ l' Hl' Hst. destruct (decide (id_ ∈ seen_of (rows_ins b))) as [Hin|Hout].
    + destruct (run_listing_seen slugify faults b info d d' t id_ Hrun Hin)
        as (e & _ & Hl).
      rewrite Hl in Hl'. injection Hl' as <-. discriminate Hst.
    + by rewrite <- (Hunseen id_ Hout).
Qed.

(** X2: a listing absent from the primary table keeps every column but
    [status] and [sold_at], and its photos; when it was already sold, or
    when retirement is off, the whole row is as before (an earlier [sold_at]
    is not overwritten). *)
Theorem absent_listing_changes_status_only (b : Bundle) (info : RunInfo)
    (d d' : DB) (t : Totals) (id_ : list N) (l : Listing) :
  run slugify faults b info d = (d', Ok t) ->
  listings d !! id_ = Some l ->
  id_ ∉ seen_of (rows_ins b) ->
  exists l',
    listings d' !! id_ = Some l'
    /\ same_but_status l' l
    /\ (status l = STATUS_SOLD -> l' = l)
    /\ (r_do_mark_sold info = false -> l' = l)
    /\ photos_of id_ (photos d') = photos_of id_ (photos d).
Proof.
  intros Hrun Hl Hid.
  pose proof (run_listing_unseen slugify faults b info d d' t id_ Hrun Hid) as Hl'.
  rewrite Hl in Hl'. simpl in Hl'.
  apply run_ok in Hrun as (Hok & _ & Hph & _).
  assert (Hphotos : photos_of id_ (photos d') = photos_of id_ (photos d)).
  { rewrite Hph, (after_rows_photos slugify b (r_now info) (rows_ins b) d id_ Hok).
    rewrite decide_False; [done|]. by intros [? _]. }
  destruct (r_do_mark_sold info); simpl in Hl'.
  - destruct (bool_decide (status l = STATUS_ACTIVE)) eqn:Hact.
    + apply bool_decide_eq_true_1 in Hact.
      exists (sold (r_now info) l). split; [done|].
      split; [apply sold_same_but_status|].
      split; [intros Hs; congruence|]. split; [discriminate|done].
    + exists l. split; [done|]. split; [apply same_but_status_refl|]. done.
  - exists l. split; [done|]. split; [apply same_but_status_refl|]. done.
Qed.

(** X3: the number of listings a run reports as marked sold is the number
    of listings that were active before the run and are absent from the
    primary table. *)
Theorem marked_sold_counts_absent_active (b : Bundle) (info : RunInfo)
    (d d' : DB) (t : Totals) :
  r_do_mark_sold info = true ->
  run slugify faults b info d = (d', Ok t) ->
  t_marked_sold t
  = size (filter (fun kv => status kv.2 = STATUS_ACTIVE
                            /\ kv.1 ∉ seen_of (rows_ins b)) (listings d)).
Proof.
  intros Hon Hrun.
  apply run_ok in Hrun as (Hok & _ & _ & _ & _ & _ & _ & Hsold).
  rewrite Hon in Hsold. rewrite Hsold.
  rewrite (seen_ids_of_run slugify b (r_now info) d Hok).
  f_equal. apply map_filter_strong_ext_1. intros id_ l. unfold to_retire. simpl.
  rewrite andb_true_iff, negb_true_iff, bool_decide_eq_true, bool_decide_eq_false.
  split.
  - intros [[Hact Hid] Hl]. split; [done|].
    by rewrite <- (after_rows_unseen slugify b (r_now info) (rows_ins b) d id_ Hid).
  - intros [[Hact Hid] Hl]. split; [done|].
    by rewrite (after_rows_unseen slugify b (r_now info) (rows_ins b) d id_ Hid).
Qed.

(** X4: the import never rewrites a slug that is set.  A listing of the
    primary table that was stored with a non-empty slug keeps it; one stored
    with an empty slug gets the first 64 characters of
    [slugify("listing-" + id)]; a new one gets ["listing-" + id] as it is,
    without [slugify] and without the cut. *)
Theorem slug_kept_or_default (b : Bundle) (info : RunInfo)
    (d d' : DB) (t : Totals) (id_ : list N) :
  run slugify faults b info d = (d', Ok t) ->
  id_ ∈ seen_of (rows_ins b) ->
  exists l',
    listings d' !! id_ = Some l'
    /\ (forall l, listings d !! id_ = Some l -> slug l <> [] -> slug l' = slug l)
    /\ (forall l, listings d !! id_ = Some l -> slug l = [] ->
                  slug l' = take 64 (slugify (py "listing-" ++ id_)))
    /\ (listings d !! id_ = None -> slug l' = py "listing-" ++ id_).
Proof.
  intros Hrun Hid.
  destruct (run_listing_seen slugify faults b info d d' t id_ Hrun Hid)
    as (e & _ & Hl).
  eexists. split; [exact Hl|]. unfold start_slug, fix_slug. simpl.
  split; [|split].
  - intros l -> Hne. destruct (slug l); [done|reflexivity].
  - intros l -> Hnil. by rewrite Hnil.
  - intros ->. reflexivity.
Qed.

(** X5: when an identifier comes on several rows of the primary table, the
    stored entry carries the values extracted from the last of them; it is
    active, has no [sold_at] and was last seen at the run's time. *)
Theorem last_row_of_an_identifier_wins (b : Bundle) (info : RunInfo)
    (d d' : DB) (t : Totals) (pre post : list (list (list N)))
    (r : list (list N)) (id_ : list N) :
  run slugify faults b info d = (d', Ok t) ->
  rows_ins b = pre ++ r :: post ->
  row_id r = Some id_ ->
  id_ ∉ seen_of post ->
  exists e l',
    extract_row b r id_ = Ok e
    /\ listings d' !! id_ = Some l'
    /\ carries l' e
    /\ status l' = STATUS_ACTIVE /\ sold_at l' = None
    /\ last_seen_at l' = Some (r_now info).
Proof.
  intros Hrun Hrows Hr Hpost.
  assert (Hid : id_ ∈ seen_of (rows_ins b)).
  { rewrite Hrows. unfold seen_of. rewrite elem_of_list_to_set, list_elem_of_omap.
    exists r. split; [|done]. rewrite elem_of_app, elem_of_cons. auto. }
  destruct (run_listing_seen slugify faults b info d d' t id_ Hrun Hid)
    as (e & Hlast & Hl).
  apply run_ok in Hrun as (Hok & _).
  rewrite Hrows in Hok, Hlast.
  destruct (last_extracted_last b pre post r id_ Hok Hr Hpost) as (e' & He' & Hlast').
  rewrite Hlast' in Hlast. injection Hlast as ->.
  exists e, (entry id_ e (r_now info)
               (fix_slug slugify id_ (start_slug (listings d) id_))).
  split; [done|]. split; [done|]. split; [apply entry_carries|]. done.
Qed.

(** X6: a run keeps the catalog invariant that [sold_at] is set exactly on
    the sold listings, with retirement on or off. *)
Theorem run_keeps_sold_at_iff_sold (b : Bundle) (info : RunInfo)
    (d d' : DB) (t : Totals) :
  run slugify faults b info d = (d', Ok t) ->
  sold_at_iff_sold (listings d) ->
  sold_at_iff_sold (listings d').
Proof.
  intros Hrun Hinv id_ l' Hl'.
  destruct (decide (id_ ∈ seen_of (rows_ins b))) as [Hin|Hout].
  - destruct (run_listing_seen slugify faults b info d d' t id_ Hrun Hin)
      as (e & _ & Hl).
    rewrite Hl in Hl'. injection Hl' as <-. simpl. split; [discriminate|done].
  - rewrite (run_listing_unseen slugify faults b info d d' t id_ Hrun Hout) in Hl'.
    destruct (listings d !! id_) as [l|] eqn:Hl; [|discriminate].
    simpl in Hl'. injection Hl' as <-.
    destruct (r_do_mark_sold info && bool_decide (status l = STATUS_ACTIVE)).
    + simpl. split; [discriminate|done].
    + by apply (Hinv id_).
Qed.

(** X7: one row whose extraction raises stops the whole import: the run
    raises and the database is the one it started from, whatever the other
    rows hold. *)
Theorem malformed_row_aborts_run (b : Bundle) (info : RunInfo) (d : DB)
    (r : list (list N)) (id_ : list N) (e : exn) :
  r ∈ rows_ins b ->
  row_id r = Some id_ ->
  extract_row b r id_ = Raise e ->
  exists e', run slugify faults b info d = (d, Raise e').
Proof.
  intros Hr Hid He.
  destruct (run slugify faults b info d) as [d' [t|e']] eqn:Hrun.
  - apply run_ok in Hrun as (Hok & _). unfold extract_ok in Hok.
    rewrite Forall_forall in Hok. destruct (Hok r Hr id_ Hid) as [e0 He0].
    congruence.
  - exists e'. f_equal. revert Hrun. unfold run, handle, atomic.
    destruct (import_body slugify faults b info {| db := d; calls := 0 |})
      as [w [t|e'']]; simpl; [discriminate|]. by intros [= <- _].
Qed.

End RunMore.

(** The run of [demo_bundle] with retirement off returns [demo_totals_off]. *)
Lemma demo_run_off_ok : demo_run_off = (fst demo_run_off, Ok demo_totals_off).
Proof. vm_compute. reflexivity. Qed.

(** X1 on [demo_bundle] with retirement off: nothing is marked sold and
    listing 0900, absent from the table, is stored as before. *)
Lemma retirement_disabled_keeps_absent_listings_witness :
  t_marked_sold demo_totals_off = 0%nat
  /\ listings (fst demo_run_off) !! py "0900" = listings demo_db !! py "0900".
Proof.
  destruct (retirement_disabled_keeps_absent_listings demo_slugify no_faults
              demo_bundle (demo_info 100 false) demo_db (fst demo_run_off)
              demo_totals_off eq_refl demo_run_off_ok) as (Hzero & Hkeep & _).
  split; [exact Hzero|]. apply Hkeep.
  apply (bool_decide_unpack _). vm_compute. exact I.
Defined.

(** X2 on [demo_bundle]: listing 0900 was active and is absent; it keeps
    its columns and its photo. *)
Lemma absent_listing_changes_status_only_witness :
  exists l',
    listings (fst demo_run) !! py "0900" = Some l'
    /\ same_but_status l' (blank_listing (py "maison-0900") STATUS_ACTIVE None)
    /\ (status (blank_listing (py "maison-0900") STATUS_ACTIVE None) = STATUS_SOLD ->
        l' = blank_listing (py "maison-0900") STATUS_ACTIVE None)
    /\ (r_do_mark_sold (demo_info 100 true) = false ->
        l' = blank_listing (py "maison-0900") STATUS_ACTIVE None)
    /\ photos_of (py "0900") (photos (fst demo_run))
       = photos_of (py "0900") (photos demo_db).
Proof.
  apply (absent_listing_changes_status_only demo_slugify no_faults demo_bundle
           (demo_info 100 true) demo_db (fst demo_run) demo_totals (py "0900")
           (blank_listing (py "maison-0900") STATUS_ACTIVE None) demo_run_ok).
  - vm_compute. reflexivity.
  - apply (bool_decide_unpack _). vm_compute. exact I.
Defined.

(** X3 on [demo_bundle]: one listing, 0900, was active and is absent. *)
Lemma marked_sold_counts_absent_active_witness :
  t_marked_sold demo_totals
  = size (filter (fun kv => status kv.2 = STATUS_ACTIVE
                            /\ kv.1 ∉ seen_of (rows_ins demo_bundle))
            (listings demo_db))
  /\ t_marked_sold demo_totals = 1%nat.
Proof.
  split; [|reflexivity].
  exact (marked_sold_counts_absent_active demo_slugify no_faults demo_bundle
           (demo_info 100 true) demo_db (fst demo_run) demo_totals eq_refl
           demo_run_ok).
Defined.

(** X4 on [demo_bundle]: 1002 was stored with the slug [condo-1002] and keeps
    it; 1001 is new and gets [listing-1001]. *)
Lemma slug_kept_or_default_witness :
  (exists l', listings (fst demo_run) !! py "1002" = Some l' /\ slug l' = py "condo-1002")
  /\ (exists l', listings (fst demo_run) !! py "1001" = Some l'
                 /\ slug l' = py "listing-1001").
Proof.
  split.
  - destruct (slug_kept_or_default demo_slugify no_faults demo_bundle
                (demo_info 100 true) demo_db (fst demo_run) demo_totals (py "1002")
                demo_run_ok) as (l' & Hl & Hkeep & _ & _).
    { apply (bool_decide_unpack _). vm_compute. exact I. }
    exists l'. split; [exact Hl|].
    apply (Hkeep (blank_listing (py "condo-1002") STATUS_SOLD (Some 5%Z))).
    + vm_compute. reflexivity.
    + discriminate.
  - destruct (slug_kept_or_default demo_slugify no_faults demo_bundle
                (demo_info 100 true) demo_db (fst demo_run) demo_totals (py "1001")
                demo_run_ok) as (l' & Hl & _ & _ & Hnew).
    { apply (bool_decide_unpack _). vm_compute. exact I. }
    exists l'. split; [exact Hl|]. apply Hnew. vm_compute. reflexivity.
Defined.

(** X5 on [demo_bundle]: 1001 comes on the first and on the last row; the
    stored price is the one of the last row. *)
Lemma last_row_of_an_identifier_wins_witness :
  exists l', listings (fst demo_run) !! py "1001" = Some l'
             /\ prix l' = Some 255000%Z.
Proof.
  destruct (last_row_of_an_identifier_wins demo_slugify no_faults demo_bundle
              (demo_info 100 true) demo_db (fst demo_run) demo_totals
              [ [py "1001"; []; []; []; []; []; py "250000"]; [py "1002"]; [];
                [py " "] ]
              [] [py "1001"; []; []; []; []; []; py "255000"] (py "1001")
              demo_run_ok eq_refl eq_refl)
    as (e & l' & He & Hl & Hc & _).
  { apply (bool_decide_unpack _). vm_compute. exact I. }
  exists l'. split; [exact Hl|].
  destruct Hc as (Hprix & _). rewrite Hprix.
  assert (Hx : match extract_row demo_bundle
                       [py "1001"; []; []; []; []; []; py "255000"] (py "1001")
                with Ok e0 => x_prix e0 | Raise _ => None end
               = x_prix e) by (by rewrite He).
  set (v := x_prix e) in *. clearbody v. vm_compute in Hx. by rewrite <- Hx.
Defined.

Lemma demo_db_sold_at_iff_sold : sold_at_iff_sold (listings demo_db).
Proof.
  intros id_ l. unfold demo_db. simpl.
  rewrite lookup_insert_Some, lookup_insert_Some, lookup_empty.
  intros [[_ <-]|[_ [[_ <-]|[_ ?]]]]; [| |done]; simpl.
  - split; [discriminate|done].
  - split; [discriminate|done].
Qed.

(** X6 on [demo_bundle]: the invariant holds of [demo_db] and of the
    catalog the run leaves, where 0900 is sold with a date and 1002 is
    active without one. *)
Lemma run_keeps_sold_at_iff_sold_witness :
  sold_at_iff_sold (listings demo_db)
  /\ sold_at_iff_sold (listings (fst demo_run)).
Proof.
  split; [exact demo_db_sold_at_iff_sold|].
  exact (run_keeps_sold_at_iff_sold demo_slugify no_faults demo_bundle
           (demo_info 100 true) demo_db (fst demo_run) demo_totals demo_run_ok
           demo_db_sold_at_iff_sold).
Defined.

(** X7 on [superscript_bundle]: the price of 1002 makes [int] raise, and
    the run gives back [demo_db] although 1001 was imported before. *)
Lemma malformed_row_aborts_run_witness :
  extract_row superscript_bundle superscript_row (py "1002") = Raise ValueError
  /\ exists e', run demo_slugify no_faults superscript_bundle (demo_info 100 true)
                  demo_db = (demo_db, Raise e').
Proof.
  split; [vm_compute; reflexivity|].
  apply (malformed_row_aborts_run demo_slugify no_faults superscript_bundle
           (demo_info 100 true) demo_db superscript_row (py "1002") ValueError).
  - apply (bool_decide_unpack _). vm_compute. exact I.
  - vm_compute. reflexivity.
  - vm_compute. reflexivity.
Defined.


(** ** The parsing helpers: trimming and numbers *)

Section Strip.

Context (p : N -> bool).

Lemma lstrip_by_head (s : list N) (c : N) :
  head (lstrip_by p s) = Some c -> p c = false.
Proof.
  induction s as [|a s IH]; simpl; [done|].
  destruct (p a) eqn:Ha; [done|]. simpl. by intros [= <-].
Qed.

Lemma lstrip_by_stop (c : N) (s : list N) :
  p c = false -> lstrip_by p (c :: s) = c :: s.
Proof. intros Hc. simpl. by rewrite Hc. Qed.

Lemma rstrip_split (s : list N) :
  exists ws, Forall (fun c => p c = true) ws /\ s = rstrip_by p s ++ ws.
Proof.
  unfold rstrip_by. destruct (lstrip_split p (rev s)) as (ws & Hws & Heq).
  exists (rev ws). split; [by apply Forall_rev|].
  rewrite <- rev_app_distr, <- Heq. by rewrite rev_involutive.
Qed.

Lemma rstrip_by_last (s : list N) (c : N) :
  last (rstrip_by p s) = Some c -> p c = false.
Proof.
  unfold rstrip_by.
  assert (H : forall l : list N, last (rev l) = head l).
  { intros [|a l]; [done|]. simpl. apply last_snoc. }
  rewrite H. apply lstrip_by_head.
Qed.

Lemma rstrip_by_head (s : list N) (c : N) :
  head (rstrip_by p s) = Some c -> head s = Some c.
Proof.
  destruct (rstrip_split s) as (ws & _ & Heq). intros Hc.
  rewrite Heq. by destruct (rstrip_by p s).
Qed.

Lemma rstrip_by_keep (s : list N) (c : N) (t : list N) :
  p c = false -> rstrip_by p (s ++ c :: t) = s ++ c :: rstrip_by p t.
Proof.
  intros Hc. unfold rstrip_by.
  assert (H : forall u, lstrip_by p (u ++ c :: rev s)
                        = lstrip_by p u ++
                          (match lstrip_by p u with [] => c :: rev s | _ => c :: rev s end)).
  { induction u as [|a u IH]; simpl.
    - by rewrite Hc.
    - destruct (p a); [apply IH|]. reflexivity. }
  rewrite rev_app_distr. simpl. rewrite <- app_assoc. simpl.
  rewrite H. destruct (lstrip_by p (rev t)) eqn:Ht.
  - simpl. by rewrite rev_involutive.
  - rewrite rev_app_distr. simpl. rewrite rev_involutive. by rewrite <- app_assoc.
Qed.

(** [strip] takes characters off the two ends only, and only characters
    of the kind [p]; what is left neither starts nor ends with one. *)
Lemma strip_by_ends (s : list N) :
  exists pre suf,
    s = pre ++ strip_by p s ++ suf
    /\ Forall (fun c => p c = true) pre /\ Forall (fun c => p c = true) suf
    /\ (forall c, head (strip_by p s) = Some c -> p c = false)
    /\ (forall c, last (strip_by p s) = Some c -> p c = false).
Proof.
  unfold strip_by.
  destruct (lstrip_split p s) as (pre & Hpre & Hs).
  destruct (rstrip_split (lstrip_by p s)) as (suf & Hsuf & Ht).
  exists pre, suf. split; [by rewrite <- Ht|]. split; [done|]. split; [done|].
  split.
  - intros c Hc. apply rstrip_by_head in Hc. by apply lstrip_by_head in Hc.
  - apply rstrip_by_last.
Qed.

Lemma strip_by_none (s : list N) :
  Forall (fun c => p c = false) s -> strip_by p s = s.
Proof.
  intros Hs. unfold strip_by.
  assert (Hl : forall u, Forall (fun c => p c = false) u -> lstrip_by p u = u).
  { intros [|a u] Hu; [done|]. apply Forall_cons in Hu as [Ha _].
    by apply lstrip_by_stop. }
  rewrite (Hl s Hs). unfold rstrip_by. rewrite Hl; [apply rev_involutive|].
  by apply Forall_rev.
Qed.

End Strip.

(** X8: [clean] only takes whitespace and double quotes off the two ends
    of a field, and what it returns neither starts nor ends with a double
    quote. *)
Theorem clean_trims_the_ends (s : list N) :
  exists pre suf,
    s = pre ++ clean s ++ suf
    /\ Forall trimmed_char pre /\ Forall trimmed_char suf
    /\ head (clean s) <> Some QUOTE /\ last (clean s) <> Some QUOTE.
Proof.
  unfold clean, strip_chars, strip.
  destruct (strip_by_ends isspace s) as (ws1 & ws2 & Hs & Hws1 & Hws2 & _).
  destruct (strip_by_ends (fun c => bool_decide (c ∈ [QUOTE])) (strip_by isspace s))
    as (q1 & q2 & Ht & Hq1 & Hq2 & Hhd & Hlt).
  exists (ws1 ++ q1), (q2 ++ ws2).
  assert (Hq : forall l, Forall (fun c => bool_decide (c ∈ [QUOTE]) = true) l ->
                         Forall trimmed_char l).
  { intros l Hl. eapply Forall_impl; [exact Hl|].
    intros c Hc%bool_decide_eq_true_1.
    right. by apply list_elem_of_singleton in Hc. }
  assert (Hw : forall l, Forall (fun c => isspace c = true) l -> Forall trimmed_char l).
  { intros l Hl. eapply Forall_impl; [exact Hl|]. intros c Hc. by left. }
  split.
  { rewrite Hs at 1. rewrite Ht at 1. by rewrite <- !app_assoc. }
  split; [apply Forall_app; auto|]. split; [apply Forall_app; auto|].
  split.
  - intros Hc. apply Hhd in Hc. apply bool_decide_eq_false_1 in Hc.
    apply Hc. by apply list_elem_of_singleton.
  - intros Hc. apply Hlt in Hc. apply bool_decide_eq_false_1 in Hc.
    apply Hc. by apply list_elem_of_singleton.
Qed.

(** *** [int] on what [isdigit] accepts *)

Lemma isdigit_char_cases (c : N) :
  isdigit_char c = true ->
  isdecimal c = true \/ (isdecimal c = false /\ (c = 178 \/ c = 179 \/ c = 185)%N).
Proof.
  unfold isdigit_char. destruct (isdecimal c); [by left|]. simpl.
  intros H. right. split; [done|]. N_bools; auto.
Qed.

Lemma isdigit_char_not_space (c : N) : isdigit_char c = true -> isspace c = false.
Proof.
  intros [H|[_ H]]%isdigit_char_cases.
  - unfold isdecimal in H. N_bools. unfold isspace.
    repeat match goal with
           | |- (_ || _) = false => apply orb_false_iff; split
           | |- (_ && _) = false => apply andb_false_iff
           end; try (apply N.eqb_neq; lia);
    try (left; apply N.leb_gt; lia); try (right; apply N.leb_gt; lia).
  - destruct H as [-> | [-> | ->]]; reflexivity.
Qed.

Lemma int_digits_decimal (s : list N) (acc : Z) (prev : bool) :
  Forall (fun c => isdecimal c = true) s ->
  s <> [] \/ prev = true -> (0 <= acc)%Z ->
  exists n, int_digits acc prev s = Some n /\ (0 <= n)%Z.
Proof.
  revert acc prev. induction s as [|c s IH]; intros acc prev Hs Hne Hacc; simpl.
  - destruct Hne as [? | ->]; [done|]. by exists acc.
  - apply Forall_cons in Hs as [Hc Hs]. rewrite Hc.
    apply IH; [done|by right|]. unfold isdecimal in Hc. N_bools. lia.
Qed.

Lemma int_digits_superscript (s : list N) (acc : Z) (prev : bool) :
  Forall (fun c => isdigit_char c = true) s ->
  Exists (fun c => isdecimal c = false) s ->
  int_digits acc prev s = None.
Proof.
  revert acc prev. induction s as [|c s IH]; intros acc prev Hs Hex; simpl.
  - by apply Exists_nil in Hex.
  - apply Forall_cons in Hs as [Hc Hs].
    destruct (isdecimal c) eqn:Hd.
    + apply Exists_cons in Hex as [Hex|Hex]; [congruence|]. by apply IH.
    + apply isdigit_char_cases in Hc as [Hc|[_ Hc]]; [congruence|].
      destruct Hc as [-> | [-> | ->]]; reflexivity.
Qed.

Lemma isdigit_chars (s : list N) :
  isdigit s = true -> s <> [] /\ Forall (fun c => isdigit_char c = true) s.
Proof.
  unfold isdigit. destruct s as [|c s]; [done|]. intros H. split; [done|].
  induction (c :: s) as [|a l IH]; [constructor|].
  simpl in H. apply andb_true_iff in H as [Ha Hl]. constructor; auto.
Qed.

(** On a text that [isdigit] accepts, [int] returns a number that is not
    negative when every character is a decimal digit and there are no more
    of them than [int] reads, and raises when one is a superscript digit or
    when there are more. *)
Lemma py_int_isdigit (s : list N) :
  isdigit s = true ->
  (Forall (fun c => isdecimal c = true) s
   /\ (N.of_nat (length s) <= INT_MAX_STR_DIGITS)%N
   /\ exists n, py_int s = Some n /\ (0 <= n)%Z)
  \/ ((Exists (fun c => isdecimal c = false) s
       \/ (INT_MAX_STR_DIGITS < N.of_nat (length s))%N)
      /\ py_int s = None).
Proof.
  intros [Hne Hall]%isdigit_chars.
  assert (Hstrip : strip_by int_space s = s).
  { apply strip_by_none. eapply Forall_impl; [exact Hall|].
    intros c Hc. unfold int_space. by rewrite (isdigit_char_not_space c Hc). }
  unfold py_int. rewrite Hstrip. destruct s as [|c r]; [done|].
  assert (Hsign : (c =? 43)%N = false /\ (c =? 45)%N = false).
  { apply Forall_cons in Hall as [Hc _].
    apply isdigit_char_cases in Hc as [Hc|[_ Hc]].
    - unfold isdecimal in Hc. N_bools. split; apply N.eqb_neq; lia.
    - destruct Hc as [-> | [-> | ->]]; done. }
  destruct Hsign as [-> ->]. cbn [orb].
  destruct (decide (Forall (fun c => isdecimal c = true) (c :: r))) as [Hdec|Hnot].
  - rewrite (filter_all _ _ Hdec).
    destruct (N.ltb_spec INT_MAX_STR_DIGITS (N.of_nat (length (c :: r)))) as [Hlong|Hfit].
    + right. split; [by right|done].
    + left. split; [done|]. split; [done|].
      apply int_digits_decimal; [done|by left|done].
  - right. apply not_Forall_Exists in Hnot; try apply _.
    assert (Hex : Exists (fun c => isdecimal c = false) (c :: r)).
    { eapply Exists_impl; [exact Hnot|]. intros x Hx. simpl in Hx.
      destruct (isdecimal x); [by destruct Hx|done]. }
    split; [by left|].
    destruct (_ <? _)%N; [done|]. by apply int_digits_superscript.
Qed.


(** ** The parsing helpers: price, year, address *)

Section Helpers.

Import import_centris.

(** X9: [extract_price] returns no price for a row of six columns or
    fewer and for a seventh column holding any character [isdigit]
    rejects (a sign, a separator, a space inside); a price it returns is
    not negative and was written in decimal digits only, no more of them
    than [int] reads; it raises, with [ValueError], exactly on a column
    that [isdigit] accepts and that holds a superscript digit or more
    digits than [int] reads. *)
Theorem extract_price_cases (r : list (list N)) :
  ((length r <= 6)%nat -> extract_price r = Ok None)
  /\ (forall n, extract_price r = Ok (Some n) ->
        (0 <= n)%Z /\ (6 < length r)%nat /\ clean (get r 6) <> []
        /\ Forall (fun c => isdecimal c = true) (clean (get r 6))
        /\ (N.of_nat (length (clean (get r 6))) <= INT_MAX_STR_DIGITS)%N)
  /\ (forall e, extract_price r = Raise e ->
        e = ValueError /\ (6 < length r)%nat
        /\ isdigit (clean (get r 6)) = true
        /\ (Exists (fun c => isdecimal c = false) (clean (get r 6))
            \/ (INT_MAX_STR_DIGITS < N.of_nat (length (clean (get r 6))))%N))
  /\ ((6 < length r)%nat -> isdigit (clean (get r 6)) = true ->
      Exists (fun c => isdecimal c = false) (clean (get r 6))
      \/ (INT_MAX_STR_DIGITS < N.of_nat (length (clean (get r 6))))%N ->
      extract_price r = Raise ValueError)
  /\ (Exists (fun c => isdigit_char c = false) (clean (get r 6)) ->
      extract_price r = Ok None).
Proof.
  unfold extract_price.
  destruct (6 <? length r)%nat eqn:Hlen; simpl.
  - apply Nat.ltb_lt in Hlen.
    destruct (isdigit (clean (get r 6))) eqn:Hd.
    + destruct (py_int_isdigit _ Hd) as [(Hall & Hfit & n & Hn & Hpos)|(Hex & Hn)];
        rewrite Hn; simpl.
      * split; [lia|]. split.
        { intros n' [= <-]. split; [done|]. split; [done|]. split; [|done].
          intros Hnil. by rewrite Hnil in Hd. }
        split; [discriminate|]. split.
        { intros _ _ [Hex|Hlong]; [|lia]. exfalso.
          apply Exists_exists in Hex as (c & Hc & Hno).
          rewrite Forall_forall in Hall. specialize (Hall c Hc). congruence. }
        intros Hex. exfalso. apply Exists_exists in Hex as (c & Hc & Hno).
        rewrite Forall_forall in Hall. specialize (Hall c Hc).
        unfold isdigit_char in Hno. by rewrite Hall in Hno.
      * split; [lia|]. split; [discriminate|]. split.
        { intros e [= <-]. done. }
        split; [done|].
        intros Hex'. exfalso. apply Exists_exists in Hex' as (c & Hc & Hno).
        apply isdigit_chars in Hd as [_ Hall].
        rewrite Forall_forall in Hall. specialize (Hall c Hc). congruence.
    + split; [done|]. split; [discriminate|]. split; [discriminate|].
      split; [discriminate|]. done.
  - apply Nat.ltb_ge in Hlen. split; [done|]. split; [discriminate|].
    split; [discriminate|]. split; [lia|]. done.
Qed.

(** X9 on five rows: a short row, a plain price, a price in superscript
    digits, a price of 4301 digits, a price with a space inside. *)
Lemma extract_price_cases_witness :
  extract_price [py "1001"] = Ok None
  /\ (extract_price [py "1001"; []; []; []; []; []; py " 250000 "] = Ok (Some 250000%Z)
      /\ (0 <= 250000)%Z)
  /\ (extract_price superscript_row = Raise ValueError
      /\ isdigit (clean (get superscript_row 6)) = true)
  /\ extract_price [py "1001"; []; []; []; []; []; replicate 4301 57%N]
     = Raise ValueError
  /\ extract_price [py "1001"; []; []; []; []; []; py "250 000"] = Ok None.
Proof.
  split; [|split; [|split; [|split]]].
  - apply (proj1 (extract_price_cases [py "1001"])). simpl. lia.
  - split; [vm_compute; reflexivity|].
    apply (proj1 (proj2 (extract_price_cases
                           [py "1001"; []; []; []; []; []; py " 250000 "]))
             250000%Z).
    vm_compute. reflexivity.
  - split; [vm_compute; reflexivity|].
    apply (proj1 (proj2 (proj2 (extract_price_cases superscript_row)))
             ValueError).
    vm_compute. reflexivity.
  - apply (proj1 (proj2 (proj2 (proj2 (extract_price_cases
              [py "1001"; []; []; []; []; []; replicate 4301 57%N]))))).
    + simpl. lia.
    + vm_compute. reflexivity.
    + right. vm_compute. reflexivity.
  - apply (proj2 (proj2 (proj2 (proj2 (extract_price_cases
                                  [py "1001"; []; []; []; []; []; py "250 000"]))))).
    apply (bool_decide_unpack _). vm_compute. exact I.
Defined.

Lemma year_field_unique (v : list N) (y y' : Z) :
  year_field v y -> year_field v y' -> y = y'.
Proof. intros (_ & _ & H1 & _) (_ & _ & H2 & _). congruence. Qed.

(** X10: the year [extract_year] returns is the value of the first field
    of the row that holds four [isdigit] characters reading as a number
    from 1800 to 2035, whatever column it stands in; it returns [None] when
    the row has no such field, and it raises, with [ValueError], only on a
    four-character field that [isdigit] accepts and [int] rejects. *)
Theorem extract_year_first_plausible (values : list (list N)) :
  (forall y, extract_year values = Ok (Some y) ->
     exists i v, values !! i = Some v /\ year_field v y
       /\ forall j w y', (j < i)%nat -> values !! j = Some w -> ~ year_field w y')
  /\ (extract_year values = Ok None ->
      forall v y, v ∈ values -> ~ year_field v y)
  /\ (forall e, extract_year values = Raise e ->
        e = ValueError
        /\ exists v, v ∈ values /\ length (clean v) = 4%nat
                     /\ isdigit (clean v) = true /\ py_int (clean v) = None).
Proof.
  induction values as [|v rest (IHsome & IHnone & IHraise)].
  { simpl. split; [discriminate|]. split; [|discriminate].
    intros _ v y Hv. by apply elem_of_nil in Hv. }
  assert (Hskip : forall y', (truthy (clean v) && isdigit (clean v)
                              && (length (clean v) =? 4)%nat = false
                              \/ exists y0, py_int (clean v) = Some y0
                                            /\ ((1800 <=? y0)%Z && (y0 <=? 2035)%Z) = false) ->
                             ~ year_field v y').
  { intros y' Hc (Hlen & Hd & Hint & Hrange). destruct Hc as [Hc|(y0 & Hy0 & Hout)].
    - rewrite Hd, Hlen in Hc. simpl in Hc.
      destruct (clean v); [done|]. simpl in Hc. discriminate.
    - assert (y0 = y') by congruence. subst y0.
      apply andb_false_iff in Hout as [Hout|Hout];
        [apply Z.leb_gt in Hout|apply Z.leb_gt in Hout]; lia. }
  assert (Hshift_some : forall y, extract_year rest = Ok (Some y) ->
            (forall y', ~ year_field v y') ->
            exists i w, (v :: rest) !! i = Some w /\ year_field w y
              /\ forall j w' y', (j < i)%nat -> (v :: rest) !! j = Some w' ->
                                 ~ year_field w' y').
  { intros y Hy Hv. destruct (IHsome y Hy) as (i & w & Hw & Hyf & Hfirst).
    exists (S i), w. split; [done|]. split; [done|].
    intros [|j] w' y' Hj Hw'; simpl in Hw'.
    - injection Hw' as <-. apply Hv.
    - apply (Hfirst j); [lia|done]. }
  assert (Hshift_none : extract_year rest = Ok None ->
            (forall y', ~ year_field v y') ->
            forall w y, w ∈ v :: rest -> ~ year_field w y).
  { intros Hn Hv w y [->|Hw]%elem_of_cons; [apply Hv|by apply IHnone]. }
  assert (Hshift_raise : forall e, extract_year rest = Raise e ->
            e = ValueError
            /\ exists w, w ∈ v :: rest /\ length (clean w) = 4%nat
                         /\ isdigit (clean w) = true /\ py_int (clean w) = None).
  { intros e He. destruct (IHraise e He) as (-> & w & Hw & H).
    split; [done|]. exists w. split; [by right|done]. }
  simpl.
  destruct (truthy (clean v) && isdigit (clean v) && (length (clean v) =? 4)%nat)
    eqn:Hcond.
  - apply andb_true_iff in Hcond as [[_ Hd]%andb_true_iff Hlen].
    apply Nat.eqb_eq in Hlen.
    destruct (py_int (clean v)) as [y0|] eqn:Hint; simpl.
    + destruct ((1800 <=? y0)%Z && (y0 <=? 2035)%Z) eqn:Hrange.
      * apply andb_true_iff in Hrange as [H1%Z.leb_le H2%Z.leb_le].
        split; [|split; [discriminate|discriminate]].
        intros y [= <-]. exists 0%nat, v. split; [done|].
        split; [done|]. intros j w y' Hj. lia.
      * assert (Hv : forall y', ~ year_field v y').
        { intros y'. apply Hskip. right. by exists y0. }
        split; [intros y Hy; by apply Hshift_some|].
        split; [intros Hn; by apply Hshift_none|done].
    + split; [discriminate|]. split; [discriminate|].
      intros e [= <-]. split; [done|]. exists v. split; [by left|done].
  - assert (Hv : forall y', ~ year_field v y').
    { intros y'. apply Hskip. by left. }
    split; [intros y Hy; by apply Hshift_some|].
    split; [intros Hn; by apply Hshift_none|done].
Qed.

(** X10 on a row whose civic number reads as a year and comes before the
    construction year: the civic number is returned. *)
Lemma extract_year_first_plausible_witness :
  extract_year [py "1001"; py "18"; py "1850"; py "rue"; py "1987"] = Ok (Some 1850%Z)
  /\ exists i v,
       [py "1001"; py "18"; py "1850"; py "rue"; py "1987"] !! i = Some v
       /\ year_field v 1850
       /\ forall j w y', (j < i)%nat ->
            [py "1001"; py "18"; py "1850"; py "rue"; py "1987"] !! j = Some w ->
            ~ year_field w y'.
Proof.
  split; [vm_compute; reflexivity|].
  apply (proj1 (extract_year_first_plausible
                  [py "1001"; py "18"; py "1850"; py "rue"; py "1987"]) 1850%Z).
  vm_compute. reflexivity.
Defined.

Lemma join_nonempty (sep p : list N) (rest : list (list N)) :
  p <> [] -> join sep (p :: rest) <> [].
Proof. intros Hp. simpl. destruct rest; [done|]. by destruct p. Qed.

(** X11: [extract_address] returns [None] for a row of 25 columns or
    fewer, and exactly when the three columns it reads (26th, 28th and
    30th, as far as the row has them) are empty once cleaned; an address it
    returns is never the empty text. *)
Theorem extract_address_cases (r : list (list N)) :
  ((length r <= 25)%nat -> extract_address r = None)
  /\ (forall a, extract_address r = Some a -> a <> [])
  /\ (extract_address r = None <->
      ((25 < length r)%nat -> clean (get r 25) = [])
      /\ ((27 < length r)%nat -> clean (get r 27) = [])
      /\ ((29 < length r)%nat -> clean (get r 29) = [])).
Proof.
  unfold extract_address.
  assert (Hparts : forall a b c : list N,
            match filter (fun p => truthy p = true) [a; b; c] with
            | [] => (None : option (list N))
            | _ :: _ => Some (join COMMA_SPACE (filter (fun p => truthy p = true) [a; b; c]))
            end = None <-> a = [] /\ b = [] /\ c = []).
  { intros a b c. rewrite !filter_cons, filter_nil.
    destruct a, b, c; simpl; repeat (destruct (decide _); try done); naive_solver. }
  assert (Hsome : forall (a b c : list N) x,
            match filter (fun p => truthy p = true) [a; b; c] with
            | [] => (None : option (list N))
            | _ :: _ => Some (join COMMA_SPACE (filter (fun p => truthy p = true) [a; b; c]))
            end = Some x -> x <> []).
  { intros a b c x.
    destruct (filter (fun p => truthy p = true) [a; b; c]) as [|p rest] eqn:Hf;
      [discriminate|].
    intros [= <-]. change (join COMMA_SPACE (p :: rest) <> []).
    apply join_nonempty.
    assert (Hp : p ∈ filter (fun p => truthy p = true) [a; b; c])
      by (rewrite Hf; by left).
    apply list_elem_of_filter in Hp as [Hp _]. by destruct p. }
  split; [|split].
  - intros Hlen.
    destruct (25 <? length r)%nat eqn:H25; [apply Nat.ltb_lt in H25; lia|].
    destruct (27 <? length r)%nat eqn:H27; [apply Nat.ltb_lt in H27; lia|].
    destruct (29 <? length r)%nat eqn:H29; [apply Nat.ltb_lt in H29; lia|].
    reflexivity.
  - intros a. apply Hsome.
  - cbv zeta. rewrite Hparts.
    destruct (25 <? length r)%nat eqn:H25;
      destruct (27 <? length r)%nat eqn:H27;
      destruct (29 <? length r)%nat eqn:H29;
      rewrite ?Nat.ltb_lt, ?Nat.ltb_ge in *; naive_solver lia.
Qed.

(** X11 on a row of 26 columns holding a civic number only, and on a row
    of 25 columns. *)
Lemma extract_address_cases_witness :
  extract_address (replicate 25 [] ++ [py " 12 "]) = Some (py "12")
  /\ py "12" <> []
  /\ extract_address (replicate 25 (py "x")) = None.
Proof.
  split; [vm_compute; reflexivity|]. split.
  - apply (proj1 (proj2 (extract_address_cases (replicate 25 [] ++ [py " 12 "])))).
    vm_compute. reflexivity.
  - apply (proj1 (extract_address_cases (replicate 25 (py "x")))). simpl. lia.
Defined.

End Helpers.


(** ** The parsing helpers: rows of the auxiliary tables *)

Section Tables.

Import import_centris.



Lemma startswith_nonempty (s prefix : list N) :
  prefix <> [] -> startswith s prefix = true -> s <> [].
Proof. intros Hp Hs ->. by destruct prefix. Qed.






Lemma int_if_digits_nonneg (p : list N) (n : Z) :
  int_if_digits p = Ok (Some n) -> (0 <= n)%Z.
Proof.
  unfold int_if_digits.
  destruct (truthy p && isdigit p) eqn:Hc; [|discriminate].
  apply andb_true_iff in Hc as [_ Hd].
  destruct (py_int_isdigit _ Hd) as [(_ & _ & m & -> & Hm)|(_ & ->)]; simpl;
    [by intros [= <-]|discriminate].
Qed.

(** X15: the room counts [extract_units] returns are never negative, and
    a bathroom count it returns is at least 1 and at most the number of
    room rows. *)
Theorem room_counts_in_range (units_rows pieces_rows : list (list (list N)))
    (pieces chambres sdb : option Z) :
  extract_units units_rows pieces_rows = Ok (pieces, chambres, sdb) ->
  (forall n, pieces = Some n -> (0 <= n)%Z)
  /\ (forall n, chambres = Some n -> (0 <= n)%Z)
  /\ (forall n, sdb = Some n -> (1 <= n <= Z.of_nat (length pieces_rows))%Z).
Proof.
  unfold extract_units.
  set (P := fun r : list (list N) =>
              ((4 <=? length r)%nat && pystr_eqb (clean (get r 1)) (py "1")
               && pystr_eqb (clean (get r 3)) (py "SDB")) = true).
  assert (Hsdb : forall n, count_or_none (length (filter P pieces_rows)) = Some n ->
                           (1 <= n <= Z.of_nat (length pieces_rows))%Z).
  { intros n. pose proof (length_filter P pieces_rows) as Hle.
    destruct (length (filter P pieces_rows)) as [|k] eqn:Hk; simpl; [discriminate|].
    intros [= <-]. lia. }
  destruct (select_principal units_rows) as [pr|].
  - destruct (5 <=? length pr)%nat.
    + destruct (int_if_digits (clean (get pr 3))) as [a|] eqn:Ha; simpl; [|discriminate].
      destruct (int_if_digits (clean (get pr 4))) as [c|] eqn:Hc; simpl; [|discriminate].
      intros [= <- <- <-]. split; [|split; [|done]].
      * intros n ->. by apply (int_if_digits_nonneg _ _ Ha).
      * intros n ->. by apply (int_if_digits_nonneg _ _ Hc).
    + intros [= <- <- <-]. done.
  - intros [= <- <- <-]. done.
Qed.

(** X15 on a principal unit of 5 rooms and 3 bedrooms with two bathroom
    rows and one bathroom row of another unit. *)
Lemma room_counts_in_range_witness :
  extract_units [[py "1001"; py "1"; []; py "5"; py "3"]]
    [ [py "1001"; py "1"; []; py "SDB"];
      [py "1001"; py "2"; []; py "SDB"];
      [py "1001"; py "1"; []; py "SDB"] ]
  = Ok (Some 5%Z, Some 3%Z, Some 2%Z)
  /\ (0 <= 5)%Z /\ (0 <= 3)%Z /\ (1 <= 2 <= Z.of_nat 3)%Z.
Proof.
  split; [vm_compute; reflexivity|].
  destruct (room_counts_in_range [[py "1001"; py "1"; []; py "5"; py "3"]]
              [ [py "1001"; py "1"; []; py "SDB"];
                [py "1001"; py "2"; []; py "SDB"];
                [py "1001"; py "1"; []; py "SDB"] ]
              (Some 5%Z) (Some 3%Z) (Some 2%Z)) as (Ha & Hb & Hc).
  { vm_compute. reflexivity. }
  split; [by apply Ha|]. split; [by apply Hb|]. by apply Hc.
Defined.

(** X16: every characteristics row of three columns or more goes to
    exactly one of the two lists: a row whose cleaned category is [PROX]
    gives the label of its value to the proximities read from the table,
    any other gives its two labels to the characteristics, both in the
    order of the table; shorter rows go to neither.  The rendered
    characteristics text is empty exactly when the list is. *)
Theorem characteristics_rows_are_partitioned (carac_rows : list (list (list N))) :
  prox_of_rows carac_rows
  = map (fun r => dict_get_or_key VAL_LABEL (clean (get r 2)))
      (filter proximity_row carac_rows)
  /\ snd (build_caracteristiques carac_rows)
     = map entry_of_row (filter characteristic_row carac_rows)
  /\ (length (prox_of_rows carac_rows)
      + length (snd (build_caracteristiques carac_rows))
      = length (filter (fun r => (3 <= length r)%nat) carac_rows))%nat
  /\ (fst (build_caracteristiques carac_rows) = []
      <-> snd (build_caracteristiques carac_rows) = []).
Proof.
  split; [apply prox_of_rows_filter|].
  split; [apply build_caracteristiques_filter|].
  split.
  - unfold build_caracteristiques, prox_of_rows. cbn [snd]. rewrite length_map.
    induction carac_rows as [|r rows IH]; [done|].
    rewrite filter_cons, !omap_cons. unfold carac_of_row at 1.
    destruct (decide (3 <= length r)%nat) as [Hlen|Hlen].
    + assert (H3 : (3 <=? length r)%nat = true) by by apply Nat.leb_le.
      assert (H3' : (length r <? 3)%nat = false) by (apply Nat.ltb_ge; lia).
      rewrite H3, H3'. cbn [andb].
      destruct (pystr_eqb (clean (get r 1)) PROX); cbn [length]; lia.
    + assert (H3 : (3 <=? length r)%nat = false) by (apply Nat.leb_gt; lia).
      assert (H3' : (length r <? 3)%nat = true) by (apply Nat.ltb_lt; lia).
      rewrite H3, H3'. cbn [andb]. lia.
  - unfold build_caracteristiques. simpl.
    destruct (omap carac_of_row carac_rows) as [|[piece c] both] eqn:Hboth; [done|].
    simpl. split; [|discriminate]. intros Hnil. exfalso.
    assert (Hpiece : piece <> []).
    { assert (Hin : (piece, c) ∈ omap carac_of_row carac_rows)
        by (rewrite Hboth; by left).
      apply list_elem_of_omap in Hin as (r & _ & Hr). unfold carac_of_row in Hr.
      destruct (length r <? 3)%nat; [discriminate|].
      destruct (pystr_eqb (clean (get r 1)) PROX); [discriminate|].
      set (a := dict_get_or_key CAT_LABEL _) in Hr.
      set (v := dict_get_or_key VAL_LABEL _) in Hr. clearbody a v.
      injection Hr as <- _. intros Hnil'.
      apply app_eq_nil in Hnil' as [_ Hnil']. discriminate Hnil'. }
    revert Hnil. change (join COMMA_SPACE (piece :: map fst both) <> []).
    by apply join_nonempty.
Qed.

Lemma rows_of_group_aux (rows : list (list (list N)))
    (m : gmap (list N) (list (list (list N)))) (id_ : list N) :
  rows_of
    (foldl (fun m r =>
              match r with
              | [] => m
              | f0 :: _ => <[clean f0 := default [] (m !! clean f0) ++ [r]]> m
              end) m rows) id_
  = rows_of m id_ ++ filter (fun r => clean <$> head r = Some id_) rows.
Proof.
  revert m. induction rows as [|r rows IH]; intros m; simpl.
  - by rewrite filter_nil, app_nil_r.
  - rewrite IH, filter_cons. destruct r as [|f0 fs].
    + destruct (decide _) as [H|H]; [discriminate H|done].
    + destruct (decide _) as [H|H].
      * injection H as <-. unfold rows_of. rewrite lookup_insert_eq. simpl.
        by rewrite <- app_assoc.
      * unfold rows_of. rewrite lookup_insert_ne; [done|].
        intros Heq. apply H. simpl. by rewrite Heq.
Qed.

(** X17: the rows [handle] hands to the helpers for an identifier are the
    rows of the table whose cleaned first field is that identifier, in the
    order of the table; empty rows belong to no identifier, and an
    identifier without rows gets the empty list. *)
Theorem rows_of_an_identifier (rows : list (list (list N))) (id_ : list N) :
  rows_of (group_by_id rows) id_
  = filter (fun r => clean <$> head r = Some id_) rows.
Proof.
  unfold group_by_id. rewrite rows_of_group_aux. unfold rows_of.
  by rewrite lookup_empty.
Qed.

End Tables.


(** ** Writing and reading a date as eight digits *)

Section Digits.

Local Open Scope Z_scope.

Lemma digits_fuel_last (fuel : nat) (n : Z) (acc : list N) :
  n < 10 -> digits_fuel (S fuel) n acc = digit_char (n mod 10) :: acc.
Proof. intros Hn. simpl. by destruct (Z.ltb_spec n 10); [|lia]. Qed.

Lemma digits_fuel_more (fuel : nat) (n : Z) (acc : list N) :
  10 <= n ->
  digits_fuel (S fuel) n acc = digits_fuel fuel (n / 10) (digit_char (n mod 10) :: acc).
Proof. intros Hn. simpl. by destruct (Z.ltb_spec n 10); [lia|]. Qed.

Lemma zero_pad_2 (n : Z) :
  0 <= n < 100 -> zero_pad 2 n = [digit_char (n / 10); digit_char (n mod 10)].
Proof.
  intros Hn. unfold zero_pad. change 20%nat with (S (S 18)).
  destruct (Z.lt_ge_cases n 10) as [Hlt|Hge].
  - rewrite digits_fuel_last by done. simpl.
    replace (n / 10) with 0 by (Z.div_mod_to_equations; lia). done.
  - rewrite digits_fuel_more by done.
    rewrite digits_fuel_last by (Z.div_mod_to_equations; lia). simpl.
    replace ((n / 10) mod 10) with (n / 10) by (Z.div_mod_to_equations; lia). done.
Qed.

Lemma digits_4 (n : Z) :
  1000 <= n < 10000 ->
  digits_fuel 20 n []
  = [digit_char (n / 1000); digit_char ((n / 100) mod 10);
     digit_char ((n / 10) mod 10); digit_char (n mod 10)].
Proof.
  intros Hn. change 20%nat with (S (S (S (S 16)))).
  rewrite digits_fuel_more by lia.
  rewrite digits_fuel_more by (Z.div_mod_to_equations; lia).
  rewrite digits_fuel_more by (Z.div_mod_to_equations; lia).
  rewrite digits_fuel_last by (Z.div_mod_to_equations; lia).
  replace (n / 10 / 10 / 10 mod 10) with (n / 1000) by (Z.div_mod_to_equations; lia).
  replace (n / 10 / 10 mod 10) with ((n / 100) mod 10) by (Z.div_mod_to_equations; lia).
  done.
Qed.

Lemma digit_char_decimal (k : Z) : 0 <= k <= 9 -> isdecimal (digit_char k) = true.
Proof.
  intros Hk. unfold isdecimal, digit_char.
  apply andb_true_iff. split; apply N.leb_le; lia.
Qed.

Lemma digit_char_value (k : Z) : 0 <= k -> Z.of_N (digit_char k) - 48 = k.
Proof. intros Hk. unfold digit_char. lia. Qed.

Lemma isdecimal_digit_char (c : N) :
  isdecimal c = true -> c = digit_char (Z.of_N c - 48) /\ 0 <= Z.of_N c - 48 <= 9.
Proof.
  unfold isdecimal, digit_char. intros [H1%N.leb_le H2%N.leb_le]%andb_true_iff.
  split; lia.
Qed.

Lemma days_in_month_le (y m : Z) : days_in_month y m <= 31.
Proof.
  unfold days_in_month. destruct (m =? 2); [destruct (is_leap y); lia|].
  destruct ((m =? 4) || (m =? 6) || (m =? 9) || (m =? 11))%bool; lia.
Qed.

(** The civil date of a day with a four-digit year. *)
Lemma civil_of_days_in_range (z : Z) :
  FIRST_DAY <= z <= LAST_DAY ->
  match civil_of_days z with
  | (y, m, d) =>
      1000 <= y <= 9999 /\ 1 <= m <= 12 /\ 1 <= d <= days_in_month y m
      /\ d <= 31 /\ days_of_civil y m d = z
  end.
Proof.
  intros Hz. pose proof (civil_of_days_valid z) as Hv.
  destruct (civil_of_days z) as [[y m] d]. destruct Hv as [[Hm Hd] Hback].
  assert (Hd31 : d <= 31).
  { revert Hd. unfold days_in_month.
    destruct (m =? 2); [destruct (is_leap y); lia|].
    destruct ((m =? 4) || (m =? 6) || (m =? 9) || (m =? 11))%bool; lia. }
  destruct (days_of_civil_year y m d Hm) as (Hlo & Hhi & _); [lia|].
  rewrite Hback in Hlo, Hhi. repeat split; try lia.
Qed.

End Digits.

Section RoundTrip.

Local Open Scope Z_scope.

Lemma digit_cases (k : Z) :
  0 <= k <= 9 ->
  k = 0 \/ k = 1 \/ k = 2 \/ k = 3 \/ k = 4 \/ k = 5 \/ k = 6 \/ k = 7 \/ k = 8 \/ k = 9.
Proof. lia. Qed.

Lemma decimal_value_digit_char (k : Z) :
  0 <= k <= 9 -> decimal_value (digit_char k) = Some k.
Proof.
  intros Hk%digit_cases.
  destruct Hk as [-> | [-> | [-> | [-> | [-> | [-> | [-> | [-> | [-> | ->]]]]]]]]];
    reflexivity.
Qed.

(** On four ASCII digits the pattern reads the month from the first two
    and the day from the last two, when these are a month from 01 to 12 and
    a day from 01 to 31; otherwise it does not match, or leaves a
    character. *)
Lemma month_and_day_table :
  forallb (fun k3 => forallb (fun k4 => forallb (fun k5 => forallb (fun k6 =>
    let m := k3 * 10 + k4 in
    let dd := k5 * 10 + k6 in
    let in_range := (1 <=? m) && (m <=? 12) && (1 <=? dd) && (dd <=? 31) in
    match month_and_day [digit_char k3; digit_char k4; digit_char k5; digit_char k6] with
    | Some (m', dd', []) => (m' =? m) && (dd' =? dd) && in_range
    | _ => negb in_range
    end) [0; 1; 2; 3; 4; 5; 6; 7; 8; 9]) [0; 1; 2; 3; 4; 5; 6; 7; 8; 9])
    [0; 1; 2; 3; 4; 5; 6; 7; 8; 9]) [0; 1; 2; 3; 4; 5; 6; 7; 8; 9] = true.
Proof. vm_compute. reflexivity. Qed.

Lemma digit_In (k : Z) : 0 <= k <= 9 -> In k [0; 1; 2; 3; 4; 5; 6; 7; 8; 9].
Proof. intros Hk. simpl. lia. Qed.

Lemma month_and_day_ascii (k3 k4 k5 k6 : Z) :
  0 <= k3 <= 9 -> 0 <= k4 <= 9 -> 0 <= k5 <= 9 -> 0 <= k6 <= 9 ->
  let m := k3 * 10 + k4 in
  let dd := k5 * 10 + k6 in
  (1 <= m <= 12 -> 1 <= dd <= 31 ->
   month_and_day [digit_char k3; digit_char k4; digit_char k5; digit_char k6]
   = Some (m, dd, []))
  /\ (forall m' dd',
        month_and_day [digit_char k3; digit_char k4; digit_char k5; digit_char k6]
        = Some (m', dd', []) ->
        m' = m /\ dd' = dd /\ 1 <= m <= 12 /\ 1 <= dd <= 31).
Proof.
  intros H3 H4 H5 H6 m dd.
  pose proof month_and_day_table as Ht.
  rewrite forallb_forall in Ht. specialize (Ht k3 (digit_In k3 H3)).
  rewrite forallb_forall in Ht. specialize (Ht k4 (digit_In k4 H4)).
  rewrite forallb_forall in Ht. specialize (Ht k5 (digit_In k5 H5)).
  rewrite forallb_forall in Ht. specialize (Ht k6 (digit_In k6 H6)).
  cbv zeta in Ht. fold m dd in Ht.
  destruct (month_and_day _) as [[[m' dd'] [|c rest]]|].
  - apply andb_true_iff in Ht as [[Hm%Z.eqb_eq Hd%Z.eqb_eq]%andb_true_iff Hr].
    subst m' dd'.
    apply andb_true_iff in Hr as [[[?%Z.leb_le ?%Z.leb_le]%andb_true_iff
                                     ?%Z.leb_le]%andb_true_iff ?%Z.leb_le].
    split; [done|]. intros ? ? [= <- <-]. lia.
  - apply negb_true_iff in Ht. split; [|discriminate]. intros Hm Hd. exfalso.
    destruct (Z.leb_spec 1 m); [|lia]. destruct (Z.leb_spec m 12); [|lia].
    destruct (Z.leb_spec 1 dd); [|lia]. destruct (Z.leb_spec dd 31); [|lia].
    discriminate Ht.
  - apply negb_true_iff in Ht. split; [|discriminate]. intros Hm Hd. exfalso.
    destruct (Z.leb_spec 1 m); [|lia]. destruct (Z.leb_spec m 12); [|lia].
    destruct (Z.leb_spec 1 dd); [|lia]. destruct (Z.leb_spec dd 31); [|lia].
    discriminate Ht.
Qed.

(** What [strftime] writes for a date with a four-digit year, read back
    by [strptime]. *)
Lemma strptime_of_strftime (d : Z) :
  FIRST_DAY <= d <= LAST_DAY ->
  length (strftime_ymd d) = 8%nat
  /\ Forall (fun c => isdecimal c = true) (strftime_ymd d)
  /\ strptime_ymd (strftime_ymd d) = Ok d.
Proof.
  intros Hd. pose proof (civil_of_days_in_range d Hd) as Hc.
  unfold strftime_ymd. destruct (civil_of_days d) as [[y m] dd].
  destruct Hc as (Hy & Hm & Hdd & Hdd31 & Hback).
  rewrite (digits_4 y) by lia. rewrite (zero_pad_2 m), (zero_pad_2 dd) by lia.
  split; [done|]. split.
  { repeat (constructor; [apply digit_char_decimal; Z.div_mod_to_equations; lia|]).
    constructor. }
  unfold strptime_ymd. cbn [app].
  rewrite !decimal_value_digit_char by (Z.div_mod_to_equations; lia).
  destruct (month_and_day_ascii (m / 10) (m mod 10) (dd / 10) (dd mod 10))
    as [Hok _]; try (Z.div_mod_to_equations; lia).
  cbv zeta in Hok. rewrite Hok by (Z.div_mod_to_equations; lia).
  replace (((y / 1000 * 10 + y / 100 mod 10) * 10 + y / 10 mod 10) * 10 + y mod 10)
    with y by (Z.div_mod_to_equations; lia).
  replace (m / 10 * 10 + m mod 10) with m by (Z.div_mod_to_equations; lia).
  replace (dd / 10 * 10 + dd mod 10) with dd by (Z.div_mod_to_equations; lia).
  destruct (Z.leb_spec 1 y); [|lia].
  destruct (Z.leb_spec dd (days_in_month y m)); [|lia]. cbn [andb]. by rewrite Hback.
Qed.

(** What [strptime] reads as a date from the year 1000 on, written back
    by [strftime]. *)
Lemma strftime_of_strptime (ymd : list N) (d : Z) :
  length ymd = 8%nat -> Forall (fun c => isdecimal c = true) ymd ->
  strptime_ymd ymd = Ok d -> FIRST_DAY <= d ->
  strftime_ymd d = ymd.
Proof.
  intros Hlen Hdig Hparse Hfirst.
  destruct ymd as [|c1 [|c2 [|c3 [|c4 [|c5 [|c6 [|c7 [|c8 [|]]]]]]]]];
    try discriminate Hlen.
  apply Forall_cons in Hdig as [D1 Hdig]. apply Forall_cons in Hdig as [D2 Hdig].
  apply Forall_cons in Hdig as [D3 Hdig]. apply Forall_cons in Hdig as [D4 Hdig].
  apply Forall_cons in Hdig as [D5 Hdig]. apply Forall_cons in Hdig as [D6 Hdig].
  apply Forall_cons in Hdig as [D7 Hdig]. apply Forall_cons in Hdig as [D8 _].
  apply isdecimal_digit_char in D1 as [E1 D1], D2 as [E2 D2], D3 as [E3 D3],
    D4 as [E4 D4], D5 as [E5 D5], D6 as [E6 D6], D7 as [E7 D7], D8 as [E8 D8].
  set (k := Z.of_N c1 - 48) in *. set (k0 := Z.of_N c2 - 48) in *.
  set (k1 := Z.of_N c3 - 48) in *. set (k2 := Z.of_N c4 - 48) in *.
  set (k3 := Z.of_N c5 - 48) in *. set (k4 := Z.of_N c6 - 48) in *.
  set (k5 := Z.of_N c7 - 48) in *. set (k6 := Z.of_N c8 - 48) in *.
  clearbody k k0 k1 k2 k3 k4 k5 k6. subst c1 c2 c3 c4 c5 c6 c7 c8.
  revert Hparse. unfold strptime_ymd.
  rewrite !decimal_value_digit_char by done.
  set (y := ((k * 10 + k0) * 10 + k1) * 10 + k2).
  destruct (month_and_day_ascii k3 k4 k5 k6 D5 D6 D7 D8) as [_ Hinv].
  cbv zeta in Hinv.
  destruct (month_and_day _) as [[[m dd] [|c rest]]|]; try discriminate.
  destruct (Hinv m dd eq_refl) as (-> & -> & Hm & Hdd).
  set (m := k3 * 10 + k4) in *. set (dd := k5 * 10 + k6) in *.
  destruct (Z.leb_spec 1 y); [|cbn [andb]; discriminate].
  destruct (Z.leb_spec dd (days_in_month y m)); [|cbn [andb]; discriminate].
  cbn [andb].
  intros [= <-].
  assert (Hv : valid_date y m dd) by (unfold valid_date; lia).
  destruct (days_of_civil_year y m dd) as (Hlo & _); [lia|lia|].
  specialize (Hlo Hfirst).
  unfold strftime_ymd. rewrite (civil_of_days_of_civil y m dd Hv).
  rewrite (digits_4 y) by (subst y; lia).
  rewrite (zero_pad_2 m), (zero_pad_2 dd) by lia.
  cbn [app].
  repeat f_equal; subst y m dd; Z.div_mod_to_equations; lia.
Qed.

(** X18: for a date with a four-digit year, [strftime('%Y%m%d')] writes
    eight decimal digits, and [strptime] reads them back as the same date;
    conversely eight digits that [strptime] reads as a date from the year
    1000 on are the digits [strftime] writes for that date.  So the name
    [compose_url_for_date] gives an archive and the date
    [list_zip_dates_from_index] reads off a name agree. *)
Theorem date_digits_round_trip :
  (forall d, FIRST_DAY <= d <= LAST_DAY ->
     length (strftime_ymd d) = 8%nat
     /\ Forall (fun c => isdecimal c = true) (strftime_ymd d)
     /\ strptime_ymd (strftime_ymd d) = Ok d)
  /\ (forall ymd d,
        length ymd = 8%nat -> Forall (fun c => isdecimal c = true) ymd ->
        strptime_ymd ymd = Ok d -> FIRST_DAY <= d ->
        strftime_ymd d = ymd).
Proof.
  split; [exact strptime_of_strftime|exact strftime_of_strptime].
Qed.

(** X18 on 2025-11-03, day 20395: the digits are [20251103]. *)
Lemma date_digits_round_trip_witness :
  strftime_ymd 20395 = py "20251103"
  /\ strptime_ymd (strftime_ymd 20395) = Ok 20395
  /\ strftime_ymd 20395 = py "20251103".
Proof.
  split; [vm_compute; reflexivity|]. split.
  - apply (proj1 date_digits_round_trip 20395). unfold FIRST_DAY, LAST_DAY. lia.
  - apply (proj2 date_digits_round_trip (py "20251103") 20395).
    + reflexivity.
    + apply (bool_decide_unpack _). vm_compute. exact I.
    + vm_compute. reflexivity.
    + unfold FIRST_DAY. lia.
Defined.

End RoundTrip.


(** ** The index page *)

Section IndexPattern.

Import import_centris.

Lemma atom_match_digit (c : N) : atom_match NO_FLAGS Digit c = unicode_isdecimal c.
Proof. reflexivity. Qed.

Lemma rmatch_Group {R} (fl : flags) (r0 : regex) (s : list N)
    (caps : list (list N)) (k : list N -> list (list N) -> option R) :
  rmatch fl (Group r0) s caps k
  = rmatch fl r0 s caps
      (fun s' caps' => k s' (caps' ++ [take (length s - length s') s])).
Proof. reflexivity. Qed.

Lemma rmatch_lits_here {R} (w rest : list N) (caps : list (list N))
    (k : list N -> list (list N) -> option R) :
  rmatch NO_FLAGS (lits w) (w ++ rest) caps k = k rest caps.
Proof.
  induction w as [|c w IH]; [done|].
  cbn [lits foldr app]. rewrite rmatch_Seq, rmatch_Atom_cons.
  cbn [atom_match NO_FLAGS IGNORECASE]. rewrite N.eqb_refl. apply IH.
Qed.

Lemma rmatch_lits_inv {R} (w s : list N) (caps : list (list N))
    (k : list N -> list (list N) -> option R) (r : R) :
  rmatch NO_FLAGS (lits w) s caps k = Some r ->
  exists rest, s = w ++ rest /\ k rest caps = Some r.
Proof.
  revert s. induction w as [|c w IH]; intros s.
  - intros H. by exists s.
  - cbn [lits foldr]. rewrite rmatch_Seq. destruct s as [|a s]; [discriminate|].
    rewrite rmatch_Atom_cons. cbn [atom_match NO_FLAGS IGNORECASE].
    destruct (N.eqb_spec a c) as [->|]; [|discriminate].
    intros (rest & -> & Hk)%IH. by exists rest.
Qed.

Lemma rmatch_lit_inv {R} (l : N) (s : list N) (caps : list (list N))
    (k : list N -> list (list N) -> option R) (r : R) :
  rmatch NO_FLAGS (Atom (Lit l)) s caps k = Some r ->
  exists rest, s = l :: rest /\ k rest caps = Some r.
Proof.
  destruct s as [|a s]; [discriminate|]. rewrite rmatch_Atom_cons.
  cbn [atom_match NO_FLAGS IGNORECASE].
  destruct (N.eqb_spec a l) as [->|]; [|discriminate]. intros Hk. by exists s.
Qed.

Lemma rmatch_digit_inv {R} (s : list N) (caps : list (list N))
    (k : list N -> list (list N) -> option R) (r : R) :
  rmatch NO_FLAGS (Atom Digit) s caps k = Some r ->
  exists c rest, s = c :: rest /\ unicode_isdecimal c = true /\ k rest caps = Some r.
Proof.
  destruct s as [|a s]; [discriminate|]. rewrite rmatch_Atom_cons, atom_match_digit.
  destruct (unicode_isdecimal a) eqn:Ha; [|discriminate]. intros Hk. by exists a, s.
Qed.

Lemma rmatch_digit_here {R} (c : N) (s : list N) (caps : list (list N))
    (k : list N -> list (list N) -> option R) :
  unicode_isdecimal c = true -> rmatch NO_FLAGS (Atom Digit) (c :: s) caps k = k s caps.
Proof. intros Hc. by rewrite rmatch_Atom_cons, atom_match_digit, Hc. Qed.

Lemma take_prefix (a t : list N) : take (length (a ++ t) - length t) (a ++ t) = a.
Proof.
  rewrite length_app. replace (length a + length t - length t)%nat with (length a) by lia.
  by rewrite take_app_length.
Qed.

(** The pattern matches at the start of a text exactly when the text
    starts with an archive name of eight digits, which it captures. *)
Lemma match_at_index (s : list N) (caps : list (list N)) (rest : list N) :
  match_at NO_FLAGS INDEX_RE s = Some (caps, rest)
  <-> exists ymd, length ymd = 8%nat /\ Forall (fun c => unicode_isdecimal c = true) ymd
                  /\ s = zip_name ymd ++ rest /\ caps = [ymd].
Proof.
  unfold match_at, INDEX_RE, zip_name.
  change (py ".zip") with (46%N :: py "zip").
  generalize (py "zip") (py "NOMADESMARKETING"). intros zp nm. split.
  - rewrite !rmatch_Seq. intros (s1 & -> & H)%rmatch_lits_inv.
    rewrite rmatch_Group, !rmatch_Seq in H.
    apply rmatch_digit_inv in H as (d1 & s2 & -> & D1 & H).
    apply rmatch_digit_inv in H as (d2 & s3 & -> & D2 & H).
    apply rmatch_digit_inv in H as (d3 & s4 & -> & D3 & H).
    apply rmatch_digit_inv in H as (d4 & s5 & -> & D4 & H).
    apply rmatch_digit_inv in H as (d5 & s6 & -> & D5 & H).
    apply rmatch_digit_inv in H as (d6 & s7 & -> & D6 & H).
    apply rmatch_digit_inv in H as (d7 & s8 & -> & D7 & H).
    apply rmatch_digit_inv in H as (d8 & s9 & -> & D8 & H).
    apply rmatch_lit_inv in H as (s10 & -> & H).
    apply rmatch_lits_inv in H as (s11 & -> & H).
    pose proof (take_prefix [d1; d2; d3; d4; d5; d6; d7; d8] (46%N :: zp ++ s11)) as Ht.
    cbn [app] in Ht. rewrite Ht in H.
    injection H as <- <-.
    exists [d1; d2; d3; d4; d5; d6; d7; d8]. split; [done|].
    split; [by repeat constructor|]. split; [|done].
    by rewrite <- !app_assoc.
  - intros (ymd & Hlen & Hdig & -> & ->).
    destruct ymd as [|d1 [|d2 [|d3 [|d4 [|d5 [|d6 [|d7 [|d8 [|]]]]]]]]];
      try discriminate Hlen.
    apply Forall_cons in Hdig as [D1 Hdig]. apply Forall_cons in Hdig as [D2 Hdig].
    apply Forall_cons in Hdig as [D3 Hdig]. apply Forall_cons in Hdig as [D4 Hdig].
    apply Forall_cons in Hdig as [D5 Hdig]. apply Forall_cons in Hdig as [D6 Hdig].
    apply Forall_cons in Hdig as [D7 Hdig]. apply Forall_cons in Hdig as [D8 _].
    rewrite !rmatch_Seq. rewrite <- !app_assoc. rewrite rmatch_lits_here.
    rewrite rmatch_Group, !rmatch_Seq. cbn [app].
    rewrite !rmatch_digit_here by done.
    rewrite rmatch_Atom_cons. cbn [atom_match NO_FLAGS IGNORECASE]. rewrite N.eqb_refl.
    rewrite rmatch_lits_here.
    pose proof (take_prefix [d1; d2; d3; d4; d5; d6; d7; d8] (46%N :: zp ++ rest)) as Ht.
    cbn [app] in Ht. by rewrite Ht.
Qed.


(** Each group list [re.finditer] yields comes from a match at some place
    of the text. *)
Lemma re_finditer_sound (fl : flags) (r : regex) (s : list N) (skip : nat)
    (caps : list (list N)) :
  caps ∈ re_finditer_aux fl r skip s ->
  exists i rest, (i <= length s)%nat /\ match_at fl r (drop i s) = Some (caps, rest).
Proof.
  revert skip. induction s as [|c s IH]; intros skip; cbn [re_finditer_aux].
  - destruct skip; [|by intros ?%elem_of_nil].
    destruct (match_at fl r []) as [[caps0 rest0]|] eqn:Hm; [|by intros ?%elem_of_nil].
    intros ->%list_elem_of_singleton. by exists 0%nat, rest0.
  - destruct skip as [|n].
    + destruct (match_at fl r (c :: s)) as [[caps0 rest0]|] eqn:Hm.
      * intros [->|Hin]%elem_of_cons.
        { exists 0%nat, rest0. split; [simpl; lia|done]. }
        apply IH in Hin as (i & rest & Hi & Hmi). exists (S i), rest.
        split; [simpl; lia|done].
      * intros (i & rest & Hi & Hmi)%IH. exists (S i), rest.
        split; [simpl; lia|done].
    + intros (i & rest & Hi & Hmi)%IH. exists (S i), rest. split; [simpl; lia|done].
Qed.

(** A match that no earlier match runs into is among those
    [re.finditer] yields. *)
Lemma re_finditer_complete (fl : flags) (r : regex) (s : list N) (skip i : nat)
    (caps : list (list N)) (rest : list N) :
  (skip <= i)%nat -> (i <= length s)%nat ->
  match_at fl r (drop i s) = Some (caps, rest) ->
  (forall j cj rj, (j < i)%nat -> (skip <= j)%nat ->
     match_at fl r (drop j s) = Some (cj, rj) ->
     (j + (length (drop j s) - length rj) <= i)%nat) ->
  caps ∈ re_finditer_aux fl r skip s.
Proof.
  revert skip i. induction s as [|c s IH]; intros skip i Hskip Hi Hm Hover;
    cbn [re_finditer_aux].
  - simpl in Hi. assert (i = 0%nat) by lia. assert (skip = 0%nat) by lia. subst.
    simpl in Hm. rewrite Hm. by left.
  - destruct skip as [|n].
    + destruct i as [|i].
      * simpl in Hm. rewrite Hm. by left.
      * assert (Hrec : forall skip', (skip' <= i)%nat ->
                  caps ∈ re_finditer_aux fl r skip' s).
        { intros skip' Hs'. apply (IH skip' i); [done|simpl in Hi; lia|done|].
          intros j cj rj Hj Hsj Hmj.
          specialize (Hover (S j) cj rj). simpl in Hover.
          assert (S (j + (length (drop j s) - length rj)) <= S i)%nat; [|lia].
          apply Hover; [lia|lia|done]. }
        destruct (match_at fl r (c :: s)) as [[caps0 rest0]|] eqn:Hm0.
        { right. apply Hrec.
          specialize (Hover 0%nat caps0 rest0). simpl in Hover.
          assert (length (c :: s) - length rest0 <= S i)%nat
            by (apply Hover; [lia|lia|done]).
          simpl in *. lia. }
        apply Hrec. lia.
    + destruct i as [|i]; [lia|].
      apply (IH n i); [lia|simpl in Hi; lia|done|].
      intros j cj rj Hj Hsj Hmj.
      specialize (Hover (S j) cj rj). simpl in Hover.
      assert (S (j + (length (drop j s) - length rj)) <= S i)%nat; [|lia].
      apply Hover; [lia|lia|done].
Qed.

Lemma zip_name_length (ymd : list N) :
  length ymd = 8%nat -> length (zip_name ymd) = 28%nat.
Proof. intros H. unfold zip_name. rewrite !length_app, H. reflexivity. Qed.

(** Two archive names in a text do not overlap. *)
Lemma zip_names_apart (y1 y2 r1 r2 : list N) (k : nat) :
  length y1 = 8%nat -> Forall (fun c => unicode_isdecimal c = true) y1 ->
  drop k (zip_name y1 ++ r1) = zip_name y2 ++ r2 ->
  (0 < k)%nat -> (28 <= k)%nat.
Proof.
  intros Hlen Hdig Hdrop Hk.
  destruct y1 as [|d1 [|d2 [|d3 [|d4 [|d5 [|d6 [|d7 [|d8 [|]]]]]]]]];
    try discriminate Hlen.
  apply Forall_cons in Hdig as [D1 Hdig]. apply Forall_cons in Hdig as [D2 Hdig].
  apply Forall_cons in Hdig as [D3 Hdig]. apply Forall_cons in Hdig as [D4 Hdig].
  apply Forall_cons in Hdig as [D5 Hdig]. apply Forall_cons in Hdig as [D6 Hdig].
  apply Forall_cons in Hdig as [D7 Hdig]. apply Forall_cons in Hdig as [D8 _].
  unfold zip_name in Hdrop.
  change (py "NOMADESMARKETING")
    with [78; 79; 77; 65; 68; 69; 83; 77; 65; 82; 75; 69; 84; 73; 78; 71]%N in Hdrop.
  change (py ".zip") with [46; 122; 105; 112]%N in Hdrop.
  cbn [app] in Hdrop.
  destruct k as [|k]; [lia|].
  do 27 (destruct k as [|k];
         [exfalso; cbn [drop] in Hdrop;
          first [discriminate Hdrop
                | injection Hdrop as Hd _; subst;
                  repeat match goal with
                    | H : unicode_isdecimal ?c = true |- _ =>
                        first [is_var c; clear H | vm_compute in H; discriminate H]
                    end]|]).
  lia.
Qed.

Lemma index_matches_apart (s : list N) (i j : nat) (ci cj : list (list N))
    (ri rj : list N) :
  match_at NO_FLAGS INDEX_RE (drop i s) = Some (ci, ri) ->
  match_at NO_FLAGS INDEX_RE (drop j s) = Some (cj, rj) ->
  (j < i)%nat ->
  (j + (length (drop j s) - length rj) <= i)%nat.
Proof.
  intros (yi & _ & _ & Hi & _)%match_at_index (yj & Hlen & Hdig & Hj & _)%match_at_index Hlt.
  rewrite Hj, length_app, (zip_name_length yj Hlen).
  replace (28 + length rj - length rj)%nat with 28%nat by lia.
  assert (Hdrop : drop (i - j) (zip_name yj ++ rj) = zip_name yi ++ ri).
  { rewrite <- Hj, drop_drop. replace (j + (i - j))%nat with i by lia. done. }
  pose proof (zip_names_apart yj yi rj ri (i - j) Hlen Hdig Hdrop). lia.
Qed.

(** The dates collected from a list of matches. *)
Lemma collected_dates (l : list (list (list N))) (acc : gset Z) (d : Z) :
  d ∈ foldl (fun (dates : gset Z) m =>
               match strptime_ymd (group1 m) with
               | Ok d => {[d]} ∪ dates
               | Raise _ => dates
               end) acc l
  <-> d ∈ acc \/ exists m, m ∈ l /\ strptime_ymd (group1 m) = Ok d.
Proof.
  revert acc. induction l as [|m l IH]; intros acc; simpl.
  - split; [by left|]. intros [?|(m & Hm & _)]; [done|]. by apply elem_of_nil in Hm.
  - rewrite IH. split.
    + intros [Hacc|(m' & Hm' & Hd)].
      * destruct (strptime_ymd (group1 m)) as [d0|] eqn:Hp; [|by left].
        apply elem_of_union in Hacc as [->%elem_of_singleton|?]; [|by left].
        right. exists m. split; [by left|done].
      * right. exists m'. split; [by right|done].
    + intros [Hacc|(m' & [->|Hm']%elem_of_cons & Hd)].
      * left. destruct (strptime_ymd (group1 m)); [|done].
        apply elem_of_union. by right.
      * left. rewrite Hd. apply elem_of_union. left. by apply elem_of_singleton.
      * right. by exists m'.
Qed.

(** A date is read off a page exactly when the page holds the name of an
    archive whose eight digits [strptime] reads as that date. *)
Lemma index_dates_member (text : list N) (d : Z) :
  d ∈ index_dates text
  <-> exists ymd pre post,
        text = pre ++ zip_name ymd ++ post
        /\ length ymd = 8%nat
        /\ Forall (fun c => unicode_isdecimal c = true) ymd
        /\ strptime_ymd ymd = Ok d.
Proof.
  unfold index_dates.
  rewrite (sort_by_perm (fun d => d)), elem_of_elements, collected_dates.
  split.
  - intros [Hempty|(m & Hm & Hd)]; [by apply elem_of_empty in Hempty|].
    apply re_finditer_sound in Hm as (i & rest & Hi & Hmatch).
    apply match_at_index in Hmatch as (ymd & Hlen & Hdig & Hdrop & ->).
    exists ymd, (take i text), rest.
    split; [by rewrite <- Hdrop, take_drop|]. done.
  - intros (ymd & pre & post & -> & Hlen & Hdig & Hd). right. exists [ymd].
    split; [|done].
    assert (Hdrop : drop (length pre) (pre ++ zip_name ymd ++ post)
                    = zip_name ymd ++ post) by apply drop_app_length.
    assert (Hmatch : match_at NO_FLAGS INDEX_RE
                       (drop (length pre) (pre ++ zip_name ymd ++ post))
                     = Some ([ymd], post)).
    { rewrite Hdrop. apply match_at_index. by exists ymd. }
    apply (re_finditer_complete _ _ _ 0%nat (length pre) [ymd] post);
      [lia|rewrite length_app; lia|done|].
    intros j cj rj Hj _ Hmj.
    by apply (index_matches_apart _ (length pre) j [ymd] cj post rj).
Qed.

(** X19: the dates [list_zip_dates_from_index] reads off a page are
    exactly the dates of the archive names the page holds:
    [NOMADESMARKETING], eight decimal digits -- of any script, as [\d]
    takes them -- that [strptime] reads as a date, [.zip].  Names whose
    digits [strptime] does not read as a date of the calendar are passed
    over.  The list is in ascending order and has no date twice. *)
Theorem index_dates_are_the_listed_archives (text : list N) :
  (forall d,
      d ∈ index_dates text
      <-> exists ymd pre post,
            text = pre ++ zip_name ymd ++ post
            /\ length ymd = 8%nat
            /\ Forall (fun c => unicode_isdecimal c = true) ymd
            /\ strptime_ymd ymd = Ok d)
  /\ Sorted Z.le (index_dates text)
  /\ NoDup (index_dates text).
Proof.
  split; [|split].
  - apply index_dates_member.
  - apply (sort_by_sorted (fun d : Z => d)).
  - unfold index_dates. rewrite (sort_by_perm (fun d => d)). apply NoDup_elements.
Qed.

End IndexPattern.


(** ** Archive addresses *)

Section Addresses.

Lemma digits_fuel_decimal (fuel : nat) (n : Z) (acc : list N) :
  Forall (fun c => isdecimal c = true) acc ->
  Forall (fun c => isdecimal c = true) (digits_fuel fuel n acc).
Proof.
  revert n acc. induction fuel as [|fuel IH]; intros n acc Hacc; [done|].
  simpl.
  assert (Hc : isdecimal (Z.to_N (48 + n mod 10)) = true).
  { apply (digit_char_decimal (n mod 10)).
    pose proof (Z.mod_pos_bound n 10). lia. }
  destruct (n <? 10)%Z; [by constructor|]. apply IH. by constructor.
Qed.

Lemma zero_pad_decimal (width : nat) (n : Z) :
  Forall (fun c => isdecimal c = true) (zero_pad width n).
Proof.
  unfold zero_pad. apply Forall_app. split.
  - apply Forall_forall. by intros c [-> _]%elem_of_replicate.
  - apply digits_fuel_decimal. constructor.
Qed.

Lemma strftime_ymd_decimal (d : Z) :
  Forall (fun c => isdecimal c = true) (strftime_ymd d).
Proof.
  unfold strftime_ymd. destruct (civil_of_days d) as [[y m] dd].
  apply Forall_app. split; [apply digits_fuel_decimal; constructor|].
  apply Forall_app. split; apply zero_pad_decimal.
Qed.

Lemma zip_name_no_slash (ymd : list N) :
  Forall (fun c => isdecimal c = true) ymd -> SLASH ∉ zip_name ymd.
Proof.
  intros Hd. unfold zip_name. rewrite !elem_of_app. intros [Hin|[Hin|Hin]].
  - vm_compute in Hin. by repeat (apply elem_of_cons in Hin as [Hin|Hin];
                                  [discriminate Hin|]); apply elem_of_nil in Hin.
  - rewrite Forall_forall in Hd. by specialize (Hd _ Hin).
  - vm_compute in Hin. by repeat (apply elem_of_cons in Hin as [Hin|Hin];
                                  [discriminate Hin|]); apply elem_of_nil in Hin.
Qed.

Lemma after_last_app (sep : N) (s t : list N) :
  sep ∉ t -> after_last sep (s ++ sep :: t) = t.
Proof.
  intros Ht. induction s as [|c s IH]; simpl.
  - rewrite bool_decide_eq_false_2 by done. by rewrite N.eqb_refl.
  - rewrite bool_decide_eq_true_2; [done|]. apply elem_of_app. right. by left.
Qed.

Lemma rstrip_by_trailing (p : N -> bool) (s ws : list N) :
  Forall (fun c => p c = true) ws -> rstrip_by p (s ++ ws) = rstrip_by p s.
Proof.
  intros Hws. unfold rstrip_by. rewrite rev_app_distr.
  rewrite lstrip_leading; [done|]. by apply Forall_rev.
Qed.

Lemma compose_url_shape (base_url : list N) (d : Z) :
  compose_url_for_date base_url d
  = rstrip_chars (py "/") base_url ++ SLASH :: zip_name (strftime_ymd d).
Proof.
  unfold compose_url_for_date, zip_name.
  change (py "/NOMADESMARKETING") with (SLASH :: py "NOMADESMARKETING").
  reflexivity.
Qed.

(** X20: the address [compose_url_for_date] gives does not depend on how
    many slashes end the base address, and its last path segment -- what
    [handle] records as [source_name] -- is [NOMADESMARKETING], the date as
    [strftime] writes it, [.zip]. *)
Theorem composed_url_names_the_archive (base_url : list N) (d : Z) (n : nat) :
  compose_url_for_date (base_url ++ replicate n SLASH) d
  = compose_url_for_date base_url d
  /\ after_last SLASH (compose_url_for_date base_url d)
     = zip_name (strftime_ymd d)
  /\ last (rstrip_chars (py "/") base_url) <> Some SLASH.
Proof.
  split; [|split].
  - unfold compose_url_for_date, rstrip_chars. rewrite rstrip_by_trailing; [done|].
    apply Forall_forall. intros c [-> _]%elem_of_replicate.
    apply bool_decide_eq_true_2. vm_compute. by left.
  - rewrite compose_url_shape. apply after_last_app, zip_name_no_slash,
      strftime_ymd_decimal.
  - unfold rstrip_chars. intros Hl. apply rstrip_by_last in Hl.
    apply bool_decide_eq_false_1 in Hl. apply Hl. vm_compute. by left.
Qed.

End Addresses.

(** ** Discovery over the network *)

Section Discovery.

Lemma probe_url (s : session) (base_url : list N) (today : Z) (deltas : list Z)
    (reqs : list request) (url : list N) (d : Z) :
  probe s base_url today deltas = (reqs, Ok (url, d)) ->
  url = compose_url_for_date base_url d
  /\ try_head s url = true
  /\ exists delta, delta ∈ deltas /\ d = (today - delta)%Z.
Proof.
  revert reqs. induction deltas as [|delta rest IH]; intros reqs; simpl; [discriminate|].
  destruct (try_head s (compose_url_for_date base_url (today - delta))) eqn:Hh.
  - intros [= <- <- <-]. split; [done|]. split; [done|]. exists delta.
    split; [by left|done].
  - destruct (probe s base_url today rest) as [reqs' res] eqn:Hp.
    intros [= <- ->]. destruct (IH reqs' eq_refl) as (Hu & Ht & delta' & Hin & Hd).
    split; [done|]. split; [done|]. exists delta'. split; [by right|done].
Qed.

Lemma probe_requests (s : session) (base_url : list N) (today : Z) (deltas : list Z) :
  Forall (fun r => exists u, r = Head u) (fst (probe s base_url today deltas)).
Proof.
  induction deltas as [|delta rest IH]; simpl; [constructor|].
  destruct (try_head s (compose_url_for_date base_url (today - delta))).
  - simpl. repeat constructor. by eexists.
  - destruct (probe s base_url today rest) as [reqs' res]. simpl in *.
    constructor; [by eexists|done].
Qed.

(** The address [find_latest_available] returns is the one composed for
    the date it returns. *)
Lemma find_latest_available_url (s : session) (base_url : list N) (today : Z)
    (reqs : list request) (url : list N) (d : Z) :
  find_latest_available s base_url today = (reqs, Ok (url, d)) ->
  url = compose_url_for_date base_url d.
Proof.
  unfold find_latest_available.
  destruct (list_zip_dates_from_index s base_url) as [[|d0 ds]|e].
  - destruct (probe s base_url today [0; 1; 2]%Z) as [r res] eqn:Hp.
    intros [= <- ->]. by apply probe_url in Hp as [? _].
  - by intros [= <- <- <-].
  - destruct (probe s base_url today [0; 1; 2]%Z) as [r res] eqn:Hp.
    intros [= <- ->]. by apply probe_url in Hp as [? _].
Qed.

(** Every resolution starts with the one request for the index page and
    sends no download request. *)
Lemma find_latest_available_requests (s : session) (base_url : list N) (today : Z) :
  exists heads,
    fst (find_latest_available s base_url today) = GetIndex base_url :: heads
    /\ Forall (fun r => exists u, r = Head u) heads.
Proof.
  unfold find_latest_available.
  destruct (list_zip_dates_from_index s base_url) as [[|d0 ds]|e].
  - pose proof (probe_requests s base_url today [0; 1; 2]%Z) as Hp.
    destruct (probe s base_url today [0; 1; 2]%Z) as [r res]. by exists r.
  - exists []. split; [done|constructor].
  - pose proof (probe_requests s base_url today [0; 1; 2]%Z) as Hp.
    destruct (probe s base_url today [0; 1; 2]%Z) as [r res]. by exists r.
Qed.

(** With a non-empty list of index dates the answer is one of them, after
    the index request alone. *)
Lemma find_latest_available_listed (s : session) (base_url : list N) (today : Z)
    (dates : list Z) :
  list_zip_dates_from_index s base_url = Ok dates -> dates <> [] ->
  exists best,
    find_latest_available s base_url today
    = ([GetIndex base_url], Ok (compose_url_for_date base_url best, best))
    /\ best ∈ dates.
Proof.
  intros Hidx Hne. unfold find_latest_available. rewrite Hidx.
  destruct dates as [|d0 ds]; [done|].
  destruct (filter (fun d => (d <= today)%Z) (d0 :: ds)) as [|e0 es] eqn:Hf.
  - exists (max_date d0 ds). split; [done|]. apply max_date_elem_of.
  - exists (max_date e0 es). split; [done|].
    pose proof (max_date_elem_of e0 es) as Hin. rewrite <- Hf in Hin.
    by apply list_elem_of_filter in Hin as [_ ?].
Qed.

(** X21: over a network, when the index page can be read and holds the
    name of at least one archive whose eight digits [strptime] reads as a
    date, [find_latest_available] answers after that one request, without
    any [HEAD] request, with the address of an archive the page names;
    when the page cannot be read or names no such archive, the answer is
    that of the [HEAD] probes, where only the status 200 counts as
    found. *)
Theorem discovery_follows_the_index_page (net : network) (base_url : list N)
    (today : Z) :
  (forall text,
      get_text net base_url = Ok text -> index_dates text <> [] ->
      exists best ymd pre post,
        find_latest_available (session_on net) base_url today
        = ([GetIndex base_url], Ok (compose_url_for_date base_url best, best))
        /\ text = pre ++ zip_name ymd ++ post
        /\ strptime_ymd ymd = Ok best)
  /\ (((exists text, get_text net base_url = Ok text /\ index_dates text = [])
       \/ exists e, get_text net base_url = Raise e) ->
      find_latest_available (session_on net) base_url today
      = (GetIndex base_url :: fst (probe (session_on net) base_url today [0; 1; 2]%Z),
         snd (probe (session_on net) base_url today [0; 1; 2]%Z)))
  /\ (forall url, try_head (session_on net) url = true <-> head_status net url = Some 200%nat).
Proof.
  split; [|split].
  - intros text Htext Hne.
    destruct (find_latest_available_listed (session_on net) base_url today
                (index_dates text)) as (best & Hfind & Hin); [|done|].
    { simpl. by rewrite Htext. }
    apply (proj1 (index_dates_member text best)) in Hin
      as (ymd & pre & post & Heq & _ & _ & Hparse).
    by exists best, ymd, pre, post.
  - intros Hnone. unfold find_latest_available.
    change (list_zip_dates_from_index (session_on net) base_url)
      with (rbind (get_text net base_url) (fun text => Ok (index_dates text))).
    destruct Hnone as [(text & -> & Hnil)|[e ->]]; cbn [rbind].
    + rewrite Hnil.
      by destruct (probe (session_on net) base_url today [0; 1; 2]%Z).
    + by destruct (probe (session_on net) base_url today [0; 1; 2]%Z).
  - intros url. simpl. destruct (head_status net url) as [code|]; [|done].
    rewrite Nat.eqb_eq. split; [by intros ->|by intros [= ->]].
Qed.

(** X21 on three pages: one names the archive of 2025-11-03 and an archive
    with the month 13, which is passed over; one names the archive of
    2025-11-03 with its year in Arabic-Indic digits, which [\d] and
    [strptime] read; the last names no archive, and yesterday's archive
    answers 200. *)
Lemma discovery_follows_the_index_page_witness :
  (exists best ymd pre post,
      find_latest_available (session_on net_listed) feed_url 20395
      = ([GetIndex feed_url], Ok (compose_url_for_date feed_url best, best))
      /\ page_listed = pre ++ zip_name ymd ++ post
      /\ strptime_ymd ymd = Ok best)
  /\ find_latest_available (session_on net_listed) feed_url 20395
     = ([GetIndex feed_url], Ok (compose_url_for_date feed_url 20395, 20395%Z))
  /\ (exists best ymd pre post,
        find_latest_available (session_on net_arabic) feed_url 20395
        = ([GetIndex feed_url], Ok (compose_url_for_date feed_url best, best))
        /\ page_arabic = pre ++ zip_name ymd ++ post
        /\ strptime_ymd ymd = Ok best)
  /\ find_latest_available (session_on net_arabic) feed_url 20395
     = ([GetIndex feed_url], Ok (compose_url_for_date feed_url 20395, 20395%Z))
  /\ find_latest_available (session_on net_unlisted) feed_url 20395
     = (GetIndex feed_url
          :: fst (probe (session_on net_unlisted) feed_url 20395 [0; 1; 2]%Z),
        snd (probe (session_on net_unlisted) feed_url 20395 [0; 1; 2]%Z))
  /\ find_latest_available (session_on net_unlisted) feed_url 20395
     = ([GetIndex feed_url;
         Head (compose_url_for_date feed_url 20395);
         Head (compose_url_for_date feed_url 20394)],
        Ok (compose_url_for_date feed_url 20394, 20394%Z)).
Proof.
  split; [|split; [|split; [|split; [|split]]]].
  - apply (proj1 (discovery_follows_the_index_page net_listed feed_url 20395)
             page_listed).
    + reflexivity.
    + vm_compute. discriminate.
  - vm_compute. reflexivity.
  - apply (proj1 (discovery_follows_the_index_page net_arabic feed_url 20395)
             page_arabic).
    + reflexivity.
    + vm_compute. discriminate.
  - vm_compute. reflexivity.
  - apply (proj1 (proj2 (discovery_follows_the_index_page net_unlisted feed_url 20395))).
    left. exists (py "<html>no archive yet</html>"). split; [reflexivity|].
    vm_compute. reflexivity.
  - vm_compute. reflexivity.
Defined.

End Discovery.


(** ** The fetch loop *)

Section FetchLoop.

Variable out : outside.
Variable base_url : list N.
Variable today : Z.
Variable save_zip_dir : list N.

Lemma count_events_app (kind : event -> bool) (a b : list event) :
  count_events kind (a ++ b) = (count_events kind a + count_events kind b)%nat.
Proof. unfold count_events. by rewrite filter_app, length_app. Qed.

Lemma count_nap_index (seconds : Z) :
  count_events is_index_request [Slept seconds] = 0%nat.
Proof. reflexivity. Qed.

Lemma count_nap_nap (seconds : Z) : count_events is_nap [Slept seconds] = 1%nat.
Proof. reflexivity. Qed.

Lemma count_events_requests (s : session) :
  count_events is_index_request
    (map Sent (fst (find_latest_available s base_url today))) = 1%nat
  /\ count_events is_nap
       (map Sent (fst (find_latest_available s base_url today))) = 0%nat
  /\ count_events is_download
       (map Sent (fst (find_latest_available s base_url today))) = 0%nat.
Proof.
  destruct (find_latest_available_requests s base_url today) as (heads & -> & Hh).
  unfold count_events. cbn [map]. rewrite !filter_cons.
  cbn [is_index_request is_nap is_download].
  rewrite decide_True by done. rewrite !decide_False by done.
  assert (H : forall kind : event -> bool,
             (forall u, kind (Sent (Head u)) = false) ->
             filter (fun e => kind e = true) (map Sent heads) = []).
  { intros kind Hk. induction Hh as [|r heads [u ->] _ IH]; [done|].
    cbn [map]. rewrite filter_cons, Hk. rewrite decide_False by done. done. }
  rewrite !H by done. done.
Qed.

(** One pass sends one index request and never sleeps. *)
Lemma try_fetch_events (k : nat) (st : Fetched) :
  count_events is_index_request (try_fetch out base_url today save_zip_dir k st).1.1
  = 1%nat
  /\ count_events is_nap (try_fetch out base_url today save_zip_dir k st).1.1 = 0%nat.
Proof.
  unfold try_fetch.
  destruct (count_events_requests (session_on (net_at out k))) as (Hi & Hn & _).
  destruct (find_latest_available (session_on (net_at out k)) base_url today)
    as [reqs [[url d]|e]]; simpl in Hi, Hn; [|done].
  destruct (download_bytes (session_on (net_at out k)) url) as [data|e].
  - destruct (truthy save_zip_dir).
    + destruct (write_at out k _); cbn [fst]; rewrite !count_events_app, Hi, Hn; done.
    + cbn [fst]. rewrite !count_events_app, Hi, Hn. done.
  - cbn [fst]. rewrite !count_events_app, Hi, Hn. done.
Qed.

(** A pass whose attempt fails leaves the data as they were and does not
    end the loop. *)
Lemma try_fetch_failed (k : nat) (st : Fetched) (e : exn) :
  attempt_outcome out base_url today k = Raise e ->
  (try_fetch out base_url today save_zip_dir k st).2 = false
  /\ f_data_bytes (try_fetch out base_url today save_zip_dir k st).1.2
     = f_data_bytes st
  /\ count_events is_download (try_fetch out base_url today save_zip_dir k st).1.1
     <= 1.
Proof.
  unfold attempt_outcome, fetch_attempt, try_fetch.
  destruct (count_events_requests (session_on (net_at out k))) as (_ & _ & Hd).
  destruct (find_latest_available (session_on (net_at out k)) base_url today)
    as [reqs [[url d]|e0]]; simpl in Hd.
  - cbn [snd]. destruct (download_bytes (session_on (net_at out k)) url) as [data|e1];
      [discriminate|].
    intros _. cbn [fst snd]. rewrite count_events_app, Hd. split; [done|].
    split; [done|]. unfold count_events. simpl. lia.
  - intros _. cbn [fst snd]. rewrite Hd. split; [done|]. split; [done|]. lia.
Qed.

(** A pass whose attempt downloads holds the data, the date and the name
    of that attempt, and ends the loop when no copy is to be saved. *)
Lemma try_fetch_downloaded (k : nat) (st : Fetched) (url : list N) (d : Z)
    (data : list N) :
  attempt_outcome out base_url today k = Ok (url, d, data) ->
  f_data_bytes (try_fetch out base_url today save_zip_dir k st).1.2 = Some data
  /\ f_file_date (try_fetch out base_url today save_zip_dir k st).1.2 = Some d
  /\ f_source_name (try_fetch out base_url today save_zip_dir k st).1.2
     = after_last SLASH url
  /\ url = compose_url_for_date base_url d
  /\ (save_zip_dir = [] ->
      (try_fetch out base_url today save_zip_dir k st).2 = true
      /\ last (try_fetch out base_url today save_zip_dir k st).1.1
         = Some (Sent (Download url))).
Proof.
  unfold attempt_outcome, fetch_attempt, try_fetch.
  destruct (find_latest_available (session_on (net_at out k)) base_url today)
    as [reqs [[url0 d0]|e0]] eqn:Hfind; [|discriminate].
  apply find_latest_available_url in Hfind. cbn [snd].
  destruct (download_bytes (session_on (net_at out k)) url0) as [data0|e1];
    [|discriminate].
  intros [= <- <- <-].
  destruct (truthy save_zip_dir) eqn:Hdir.
  - destruct (write_at out k _); cbn [fst snd f_data_bytes f_file_date f_source_name failed];
      (split; [done|]; split; [done|]; split; [done|]; split; [done|]);
      intros ->; discriminate Hdir.
  - cbn [fst snd f_data_bytes f_file_date f_source_name].
    split; [done|]. split; [done|]. split; [done|]. split; [done|].
    intros _. split; [done|]. apply last_snoc.
Qed.

(** A pass never loses data, and it ends the loop only with data. *)
Lemma try_fetch_data (k : nat) (st : Fetched) :
  (f_data_bytes st <> None ->
   f_data_bytes (try_fetch out base_url today save_zip_dir k st).1.2 <> None)
  /\ ((try_fetch out base_url today save_zip_dir k st).2 = true ->
      f_data_bytes (try_fetch out base_url today save_zip_dir k st).1.2 <> None).
Proof.
  unfold try_fetch.
  destruct (find_latest_available (session_on (net_at out k)) base_url today)
    as [reqs [[url d]|e]]; [|by split].
  destruct (download_bytes (session_on (net_at out k)) url) as [data|e]; [|by split].
  destruct (truthy save_zip_dir); [destruct (write_at out k _)|]; by split.
Qed.

(** A pass keeps the recorded name and date together. *)
Lemma try_fetch_names_its_date (k : nat) (st : Fetched) :
  names_its_date st ->
  names_its_date (try_fetch out base_url today save_zip_dir k st).1.2.
Proof.
  intros [Hname Hdata]. unfold try_fetch.
  destruct (find_latest_available (session_on (net_at out k)) base_url today)
    as [reqs [[url d]|e]] eqn:Hfind; [|by split].
  apply find_latest_available_url in Hfind. subst url.
  assert (Hafter : after_last SLASH (compose_url_for_date base_url d)
                   = zip_name (strftime_ymd d)).
  { rewrite compose_url_shape.
    apply after_last_app, zip_name_no_slash, strftime_ymd_decimal. }
  destruct (download_bytes (session_on (net_at out k)) _) as [data|e].
  - destruct (truthy save_zip_dir); [destruct (write_at out k _)|];
      (split; [by intros d' [= <-]|done]).
  - split; [by intros d' [= <-]|done].
Qed.

Section Loop.

Variable retries : Z.
Variable retry_seconds : Z.

#[local] Abbreviation loop :=
  (fetch_loop out base_url today retries retry_seconds save_zip_dir).

Lemma fetch_loop_names_its_date (k todo : nat) (st : Fetched) :
  names_its_date st -> names_its_date (loop k todo st).2.
Proof.
  revert k st. induction todo as [|todo IH]; intros k st Hst; [done|].
  cbn [fetch_loop].
  pose proof (try_fetch_names_its_date k st Hst) as Hst'.
  destruct (try_fetch out base_url today save_zip_dir k st) as [[evs st'] stop].
  cbn [fst snd] in Hst'. destruct stop; [done|].
  specialize (IH (S k) st' Hst'). by destruct (loop (S k) todo st').
Qed.

Lemma fetch_loop_keeps_data (k todo : nat) (st : Fetched) :
  f_data_bytes st <> None -> f_data_bytes (loop k todo st).2 <> None.
Proof.
  revert k st. induction todo as [|todo IH]; intros k st Hst; [done|].
  cbn [fetch_loop].
  pose proof (proj1 (try_fetch_data k st) Hst) as Hst'.
  destruct (try_fetch out base_url today save_zip_dir k st) as [[evs st'] stop].
  cbn [fst snd] in Hst'. destruct stop; [done|].
  specialize (IH (S k) st' Hst'). by destruct (loop (S k) todo st').
Qed.

(** When every attempt left fails, the loop runs all its passes, sleeps
    between them and not after the last, and holds no more data than
    before. *)
Lemma fetch_loop_all_fail (k todo : nat) (st : Fetched) :
  (forall j, (k <= j < k + todo)%nat ->
             exists e, attempt_outcome out base_url today j = Raise e) ->
  Z.of_nat (k + todo) = (retries + 1)%Z ->
  f_data_bytes (loop k todo st).2 = f_data_bytes st
  /\ count_events is_index_request (loop k todo st).1 = todo
  /\ count_events is_nap (loop k todo st).1 = pred todo
  /\ Forall (fun e => is_nap e = true -> e = Slept retry_seconds) (loop k todo st).1.
Proof.
  revert k st. induction todo as [|todo IH]; intros k st Hfail Hlast.
  { cbn [fetch_loop fst snd]. repeat split; constructor. }
  cbn [fetch_loop].
  destruct (Hfail k) as [e He]; [lia|].
  destruct (try_fetch_failed k st e He) as (Hstop & Hdata & _).
  destruct (try_fetch_events k st) as (Hidx & Hnap).
  assert (Hnaps : Forall (fun e => is_nap e = true -> e = Slept retry_seconds)
                    (try_fetch out base_url today save_zip_dir k st).1.1).
  { apply Forall_forall. intros ev Hev Hk. exfalso.
    unfold count_events in Hnap. apply length_zero_iff_nil in Hnap.
    assert (Hin : ev ∈ filter (fun e => is_nap e = true)
                         (try_fetch out base_url today save_zip_dir k st).1.1)
      by (by apply list_elem_of_filter).
    rewrite Hnap in Hin. by apply elem_of_nil in Hin. }
  destruct (try_fetch out base_url today save_zip_dir k st) as [[evs st'] stop].
  cbn [fst snd] in *. subst stop.
  destruct (IH (S k) st') as (IHd & IHi & IHn & IHs).
  { intros j Hj. apply Hfail. lia. }
  { lia. }
  destruct (loop (S k) todo st') as [evs' st''] eqn:Hloop. cbn [fst snd] in *.
  split; [congruence|].
  rewrite !count_events_app, Hidx, Hnap, IHi, IHn.
  destruct (Z.ltb_spec (Z.of_nat k) retries) as [Hlt|Hge].
  - rewrite count_nap_index, count_nap_nap. split; [done|]. split.
    + destruct todo; [lia|]. simpl. lia.
    + apply Forall_app. split; [done|]. apply Forall_app. split; [|done].
      by repeat constructor.
  - assert (Ht : todo = 0%nat) by lia. rewrite Ht.
    split; [reflexivity|]. split; [reflexivity|].
    apply Forall_app. split; [done|]. apply Forall_app. split; [constructor|done].
Qed.

(** When an attempt left downloads, the loop ends with data. *)
Lemma fetch_loop_some_download (k todo j : nat) (st : Fetched) (url : list N)
    (d : Z) (data : list N) :
  (k <= j < k + todo)%nat ->
  attempt_outcome out base_url today j = Ok (url, d, data) ->
  f_data_bytes (loop k todo st).2 <> None.
Proof.
  revert k st. induction todo as [|todo IH]; intros k st Hj Hok; [lia|].
  cbn [fetch_loop].
  pose proof (try_fetch_data k st) as [_ Hstop].
  destruct (decide (j = k)) as [->|Hne].
  - destruct (try_fetch_downloaded k st url d data Hok) as (Hdata & _).
    destruct (try_fetch out base_url today save_zip_dir k st) as [[evs st'] stop].
    cbn [fst snd] in *. destruct stop; cbn [fst snd]; [by rewrite Hdata|].
    pose proof (fetch_loop_keeps_data (S k) todo st') as Hkeep.
    destruct (loop (S k) todo st') as [evs' st'']. cbn [snd] in *.
    apply Hkeep. by rewrite Hdata.
  - destruct (try_fetch out base_url today save_zip_dir k st) as [[evs st'] stop].
    cbn [fst snd] in *. destruct stop; cbn [fst snd]; [by apply Hstop|].
    specialize (IH (S k) st'). destruct (loop (S k) todo st') as [evs' st''].
    cbn [snd] in *. apply IH; [lia|done].
Qed.

(** Without a copy to save, the loop ends at the first attempt that
    downloads. *)
Lemma fetch_loop_first_download (k todo i : nat) (st : Fetched) (url : list N)
    (d : Z) (data : list N) :
  save_zip_dir = [] ->
  (forall j, (k <= j < k + i)%nat ->
             exists e, attempt_outcome out base_url today j = Raise e) ->
  attempt_outcome out base_url today (k + i) = Ok (url, d, data) ->
  (i < todo)%nat ->
  Z.of_nat (k + todo) = (retries + 1)%Z ->
  f_data_bytes (loop k todo st).2 = Some data
  /\ f_file_date (loop k todo st).2 = Some d
  /\ f_source_name (loop k todo st).2 = after_last SLASH url
  /\ count_events is_index_request (loop k todo st).1 = S i
  /\ count_events is_nap (loop k todo st).1 = i
  /\ last (loop k todo st).1 = Some (Sent (Download url)).
Proof.
  intros Hdir. revert k todo st.
  induction i as [|i IH]; intros k todo st Hfail Hok Hi Hlast.
  - rewrite Nat.add_0_r in Hok. destruct todo as [|todo]; [lia|]. cbn [fetch_loop].
    destruct (try_fetch_downloaded k st url d data Hok)
      as (Hdata & Hdate & Hname & _ & Hstop).
    destruct (Hstop Hdir) as [Hstop' Hlastev].
    destruct (try_fetch_events k st) as (Hidx & Hnap).
    destruct (try_fetch out base_url today save_zip_dir k st) as [[evs st'] stop].
    cbn [fst snd] in *. subst stop. cbn [fst snd]. done.
  - destruct todo as [|todo]; [lia|]. cbn [fetch_loop].
    destruct (Hfail k) as [e He]; [lia|].
    destruct (try_fetch_failed k st e He) as (Hstop & _ & _).
    destruct (try_fetch_events k st) as (Hidx & Hnap).
    destruct (try_fetch out base_url today save_zip_dir k st) as [[evs st'] stop] eqn:Htry.
    cbn [fst snd] in *. subst stop.
    destruct (IH (S k) todo st') as (IHd & IHdate & IHname & IHi & IHn & IHl).
    { intros j Hj. apply Hfail. lia. }
    { by replace (S k + i)%nat with (k + S i)%nat by lia. }
    { lia. }
    { lia. }
    destruct (loop (S k) todo st') as [evs' st''] eqn:Hloop. cbn [fst snd] in *.
    split; [done|]. split; [done|]. split; [done|].
    rewrite !count_events_app, Hidx, Hnap, IHi, IHn.
    destruct (Z.ltb_spec (Z.of_nat k) retries) as [Hlt|Hge]; [|lia].
    rewrite count_nap_index, count_nap_nap.
    split; [done|]. split; [done|].
    destruct evs' as [|ev evs'] using rev_ind; [discriminate IHl|].
    rewrite !app_assoc, last_snoc. by rewrite last_snoc in IHl.
Qed.

End Loop.

End FetchLoop.


(** ** The command as a whole *)

Section Fetch.

Variable out : outside.
Variable o : Options.
Variable today : Z.

Lemma retries_last :
  Z.of_nat (1 + Z.to_nat (Z.max 1 (opt_retries o)))
  = (Z.max 1 (opt_retries o) + 1)%Z.
Proof. lia. Qed.

(** X22: the fetch loop gives up, with [CommandError], exactly when none
    of its [max(1, retries)] attempts downloads an archive; it has then
    sent one index request per attempt and slept [max(0, retry_seconds)]
    between the attempts, not after the last one. *)
Theorem fetch_gives_up_when_no_attempt_downloads :
  let n := Z.to_nat (Z.max 1 (opt_retries o)) in
  let base_url := strip (opt_base_url o) in
  (forall e, snd (fetch out o today) = Raise e ->
     e = CommandError
     /\ (forall k, (1 <= k <= n)%nat ->
                   exists e', attempt_outcome out base_url today k = Raise e')
     /\ count_events is_index_request (fst (fetch out o today)) = n
     /\ count_events is_nap (fst (fetch out o today)) = pred n
     /\ Forall (fun ev => is_nap ev = true ->
                          ev = Slept (Z.max 0 (opt_retry_seconds o)))
          (fst (fetch out o today)))
  /\ ((forall k, (1 <= k <= n)%nat ->
                 exists e', attempt_outcome out base_url today k = Raise e') ->
      snd (fetch out o today) = Raise CommandError).
Proof.
  intros n base_url.
  assert (Hall : (forall k, (1 <= k <= n)%nat ->
                    exists e', attempt_outcome out base_url today k = Raise e') ->
                 forall j, (1 <= j < 1 + n)%nat ->
                   exists e', attempt_outcome out base_url today j = Raise e').
  { intros H j Hj. apply H. lia. }
  split.
  - intros e He.
    assert (Hfail : forall k, (1 <= k <= n)%nat ->
                      exists e', attempt_outcome out base_url today k = Raise e').
    { intros k Hk.
      destruct (attempt_outcome out base_url today k) as [[[url d] data]|e'] eqn:Hk';
        [|by exists e'].
      exfalso.
      pose proof (fetch_loop_some_download out base_url today
                    (strip (opt_save_zip_dir o)) (Z.max 1 (opt_retries o))
                    (Z.max 0 (opt_retry_seconds o)) 1 n k not_fetched url d data)
        as Hsome.
      revert He. unfold fetch. fold base_url. fold n.
      destruct (fetch_loop _ _ _ _ _ _ 1 n not_fetched) as [evs st].
      cbn [snd] in Hsome.
      destruct (f_data_bytes st); [discriminate|]. intros _.
      apply Hsome; [lia|done|done]. }
    pose proof (fetch_loop_all_fail out base_url today (strip (opt_save_zip_dir o))
                  (Z.max 1 (opt_retries o)) (Z.max 0 (opt_retry_seconds o))
                  1 n not_fetched (Hall Hfail) retries_last)
      as (Hdata & Hidx & Hnap & Hsecs).
    revert He Hdata Hidx Hnap Hsecs. unfold fetch. fold base_url. fold n.
    destruct (fetch_loop _ _ _ _ _ _ 1 n not_fetched) as [evs st].
    cbn [fst snd]. destruct (f_data_bytes st); [discriminate|].
    cbn [fst snd]. intros [= <-]. done.
  - intros Hfail.
    pose proof (fetch_loop_all_fail out base_url today (strip (opt_save_zip_dir o))
                  (Z.max 1 (opt_retries o)) (Z.max 0 (opt_retry_seconds o))
                  1 n not_fetched (Hall Hfail) retries_last)
      as (Hdata & _).
    revert Hdata. unfold fetch. fold base_url. fold n.
    destruct (fetch_loop _ _ _ _ _ _ 1 n not_fetched) as [evs st].
    cbn [fst snd]. by intros ->.
Qed.

(** X23: when no copy of the archive is to be saved, the fetch loop ends
    at the first attempt that downloads: it returns the bytes of that
    attempt, its date, and as source name the name of the archive of that
    date; it has sent one index request per attempt made, slept between
    them, and its last request is the download. *)
Theorem fetch_returns_the_first_download (k : nat) (url : list N) (d : Z)
    (data : list N) :
  let n := Z.to_nat (Z.max 1 (opt_retries o)) in
  let base_url := strip (opt_base_url o) in
  strip (opt_save_zip_dir o) = [] ->
  (1 <= k <= n)%nat ->
  (forall j, (1 <= j < k)%nat ->
             exists e, attempt_outcome out base_url today j = Raise e) ->
  attempt_outcome out base_url today k = Ok (url, d, data) ->
  exists st,
    snd (fetch out o today) = Ok (st, data)
    /\ f_file_date st = Some d
    /\ f_source_name st = zip_name (strftime_ymd d)
    /\ url = compose_url_for_date base_url d
    /\ count_events is_index_request (fst (fetch out o today)) = k
    /\ count_events is_nap (fst (fetch out o today)) = pred k
    /\ last (fst (fetch out o today)) = Some (Sent (Download url)).
Proof.
  intros n base_url Hdir Hk Hfail Hok.
  destruct k as [|i]; [lia|].
  pose proof (fetch_loop_first_download out base_url today (strip (opt_save_zip_dir o))
                (Z.max 1 (opt_retries o)) (Z.max 0 (opt_retry_seconds o))
                1 n i not_fetched url d data Hdir) as Hloop.
  destruct Hloop as (Hdata & Hdate & Hname & Hidx & Hnap & Hlast).
  { intros j Hj. apply Hfail. lia. }
  { done. }
  { lia. }
  { apply retries_last. }
  destruct (try_fetch_downloaded out base_url today (strip (opt_save_zip_dir o))
              (S i) not_fetched url d data Hok) as (_ & _ & _ & Hurl & _).
  revert Hdata Hdate Hname Hidx Hnap Hlast. unfold fetch. fold base_url. fold n.
  destruct (fetch_loop _ _ _ _ _ _ 1 n not_fetched) as [evs st].
  cbn [fst snd]. intros Hdata Hdate Hname Hidx Hnap Hlast. rewrite Hdata.
  exists st. cbn [fst snd]. split; [done|]. split; [done|]. split.
  - rewrite Hname, Hurl, compose_url_shape.
    apply after_last_app, zip_name_no_slash, strftime_ymd_decimal.
  - done.
Qed.

(** Whatever the loop returns carries a date and the name of the archive
    of that date. *)
Lemma fetch_names_its_date (st : Fetched) (data : list N) :
  snd (fetch out o today) = Ok (st, data) ->
  exists d, f_file_date st = Some d
            /\ f_source_name st = zip_name (strftime_ymd d).
Proof.
  unfold fetch.
  pose proof (fetch_loop_names_its_date out (strip (opt_base_url o)) today
                (strip (opt_save_zip_dir o)) (Z.max 1 (opt_retries o))
                (Z.max 0 (opt_retry_seconds o)) 1
                (Z.to_nat (Z.max 1 (opt_retries o))) not_fetched) as Hinv.
  destruct (fetch_loop _ _ _ _ _ _ 1 _ not_fetched) as [evs st0].
  cbn [snd] in Hinv. destruct Hinv as [Hname Hdate]; [by split|].
  destruct (f_data_bytes st0) as [data0|] eqn:Hdata; [|discriminate].
  cbn [snd]. intros [= <- <-].
  destruct (f_file_date st0) as [d|] eqn:Hd.
  - exists d. split; [done|]. by apply Hname.
  - exfalso. apply Hdate; congruence.
Qed.

(** Among the attempts, either all fail or one is the first to download. *)
Lemma first_download_or_none (base_url : list N) (n : nat) :
  (forall j, (1 <= j <= n)%nat ->
             exists e, attempt_outcome out base_url today j = Raise e)
  \/ exists k url d data,
       (1 <= k <= n)%nat
       /\ attempt_outcome out base_url today k = Ok (url, d, data)
       /\ forall j, (1 <= j < k)%nat ->
                    exists e, attempt_outcome out base_url today j = Raise e.
Proof.
  induction n as [|n [IH|(k & url & d & data & Hk & Hok & Hfail)]].
  - left. intros j Hj. lia.
  - destruct (attempt_outcome out base_url today (S n)) as [[[url d] data]|e] eqn:Hn.
    + right. exists (S n), url, d, data. split; [lia|]. split; [done|].
      intros j Hj. apply IH. lia.
    + left. intros j Hj. destruct (decide (j = S n)) as [->|Hne]; [by exists e|].
      apply IH. lia.
  - right. exists k, url, d, data. split; [lia|done].
Qed.

(** Without a copy to save, what the loop returns comes from the first
    attempt that downloads. *)
Lemma fetch_ok_first_download (st : Fetched) (data : list N) :
  strip (opt_save_zip_dir o) = [] ->
  snd (fetch out o today) = Ok (st, data) ->
  exists k url d,
    (1 <= k <= Z.to_nat (Z.max 1 (opt_retries o)))%nat
    /\ (forall j, (1 <= j < k)%nat ->
          exists e, attempt_outcome out (strip (opt_base_url o)) today j = Raise e)
    /\ attempt_outcome out (strip (opt_base_url o)) today k = Ok (url, d, data)
    /\ f_file_date st = Some d.
Proof.
  intros Hdir Hfetch.
  set (n := Z.to_nat (Z.max 1 (opt_retries o))).
  set (base_url := strip (opt_base_url o)).
  destruct (first_download_or_none base_url n)
    as [Hfail|(k & url & d & data' & Hk & Hok & Hfail)].
  - exfalso.
    pose proof (fetch_loop_all_fail out base_url today (strip (opt_save_zip_dir o))
                  (Z.max 1 (opt_retries o)) (Z.max 0 (opt_retry_seconds o))
                  1 n not_fetched) as Hall.
    destruct Hall as (Hdata & _); [intros j Hj; apply Hfail; lia|apply retries_last|].
    revert Hfetch Hdata. unfold fetch. fold base_url. fold n.
    destruct (fetch_loop _ _ _ _ _ _ 1 n not_fetched) as [evs st0].
    cbn [fst snd]. intros Hfetch Hdata. rewrite Hdata in Hfetch.
    discriminate Hfetch.
  - destruct k as [|i]; [lia|].
    pose proof (fetch_loop_first_download out base_url today (strip (opt_save_zip_dir o))
                  (Z.max 1 (opt_retries o)) (Z.max 0 (opt_retry_seconds o))
                  1 n i not_fetched url d data' Hdir) as Hloop.
    destruct Hloop as (Hdata & Hdate & _).
    { intros j Hj. apply Hfail. lia. }
    { done. }
    { lia. }
    { apply retries_last. }
    revert Hfetch Hdata Hdate. unfold fetch. fold base_url. fold n.
    destruct (fetch_loop _ _ _ _ _ _ 1 n not_fetched) as [evs st0].
    cbn [fst snd]. intros Hfetch Hdata Hdate. rewrite Hdata in Hfetch.
    injection Hfetch as <- <-.
    exists (S i), url, d. split; [lia|]. split; [done|]. split; [done|done].
Qed.

End Fetch.

Section Whole.

Variable slugify : list N -> list N.
Variable faults : nat -> bool.
Variable read_archive : list N -> result Bundle.

(** X24: when the command raises -- no archive could be downloaded, the
    archive cannot be opened, or the import fails -- the database is the
    one it started from.  When it returns, the last [FetchLog] row carries
    the base address with its surrounding whitespace taken off, the totals
    returned, and a date with the name of the archive of that date.  When
    no copy of the archive is to be saved, that date is the date of the
    archive imported: it is the date of the first attempt that downloaded,
    and the command did what the import of the tables read from the bytes
    of that attempt does.  (With a copy to save the two can differ, see
    [log_names_a_later_archive_when_saving_fails].) *)
Theorem command_logs_the_archive_it_read (out : outside) (o : Options)
    (now today duration : Z) (d : DB) :
  (forall e, snd (snd (command slugify faults read_archive out o now today duration d))
             = Raise e ->
     fst (snd (command slugify faults read_archive out o now today duration d)) = d)
  /\ (forall t, snd (snd (command slugify faults read_archive out o now today duration d))
                = Ok t ->
        exists day,
          last (fetch_logs (fst (snd (command slugify faults read_archive out o
                                        now today duration d))))
          = Some {| file_date := Some day;
                    source_url := strip (opt_base_url o);
                    source_name := zip_name (strftime_ymd day);
                    items_total := t_items_total t;
                    items_added := t_added t;
                    items_updated := t_updated t;
                    items_marked_sold := t_marked_sold t;
                    duration_seconds := duration |}
          /\ (strip (opt_save_zip_dir o) = [] ->
              exists k url data b,
                (1 <= k <= Z.to_nat (Z.max 1 (opt_retries o)))%nat
                /\ (forall j, (1 <= j < k)%nat ->
                      exists e, attempt_outcome out (strip (opt_base_url o)) today j
                                = Raise e)
                /\ attempt_outcome out (strip (opt_base_url o)) today k
                   = Ok (url, day, data)
                /\ read_archive data = Ok b
                /\ snd (command slugify faults read_archive out o now today duration d)
                   = run slugify faults b
                       {| r_base_url := strip (opt_base_url o);
                          r_source_name := zip_name (strftime_ymd day);
                          r_file_date := Some day;
                          r_now := now;
                          r_duration := duration;
                          r_do_mark_sold := negb (opt_no_mark_sold o) |} d)).
Proof.
  unfold command.
  pose proof (fetch_names_its_date out o today) as Hname.
  pose proof (fetch_ok_first_download out o today) as Hfirst.
  destruct (fetch out o today) as [evs [[st data]|e0]]; cbn [fst snd] in *.
  - destruct (read_archive data) as [b|e1] eqn:Hread; cbn [fst snd].
    + set (info := {| r_base_url := strip (opt_base_url o);
                      r_source_name := f_source_name st;
                      r_file_date := f_file_date st; r_now := now;
                      r_duration := duration;
                      r_do_mark_sold := negb (opt_no_mark_sold o) |}).
      split.
      * intros e. unfold run, handle, atomic.
        destruct (import_body slugify faults b info {| db := d; calls := 0 |})
          as [w [t|e']]; simpl; [discriminate|done].
      * intros t Ht. destruct (Hname st data eq_refl) as (day & Hday & Hsrc).
        exists day. split.
        -- destruct (run slugify faults b info d) as [d' res] eqn:Hrun.
           cbn [fst snd] in *. subst res.
           apply run_ok in Hrun as (_ & _ & _ & Hlogs & _).
           rewrite Hlogs, last_snoc. unfold log_of, info. cbn. by rewrite Hday, Hsrc.
        -- intros Hdir.
           destruct (Hfirst st data Hdir eq_refl) as (k & url & d0 & Hk & Hfail & Hok & Hd0).
           assert (d0 = day) as -> by congruence.
           exists k, url, data, b. split; [done|]. split; [done|]. split; [done|].
           split; [done|]. unfold info. by rewrite Hday, Hsrc.
    + split; [done|discriminate].
  - split; [done|discriminate].
Qed.

End Whole.

(** X22 on a server that answers nothing, with two attempts allowed. *)
Lemma fetch_gives_up_when_no_attempt_downloads_witness :
  snd (fetch out_down (demo_options 2) 20395) = Raise CommandError
  /\ count_events is_index_request (fst (fetch out_down (demo_options 2) 20395))
     = 2%nat
  /\ count_events is_nap (fst (fetch out_down (demo_options 2) 20395)) = 1%nat.
Proof.
  destruct (fetch_gives_up_when_no_attempt_downloads out_down (demo_options 2) 20395)
    as [Hraised Hgives_up].
  assert (Hfail : forall k : nat,
             (1 <= k <= Z.to_nat (Z.max 1 (opt_retries (demo_options 2))))%nat ->
             exists e', attempt_outcome out_down
                          (strip (opt_base_url (demo_options 2))) 20395 k = Raise e').
  { intros k _. exists RuntimeError. vm_compute. reflexivity. }
  pose proof (Hgives_up Hfail) as Hraise.
  destruct (Hraised CommandError Hraise) as (_ & _ & Hidx & Hnap & _).
  split; [exact Hraise|]. split; [exact Hidx|exact Hnap].
Defined.

(** X23 on a server that answers nothing during the first two attempts
    and lists the archive of 2025-11-03 from the third on. *)
Lemma fetch_returns_the_first_download_witness :
  exists st,
    snd (fetch out_late (demo_options 5) 20395) = Ok (st, [80; 75]%N)
    /\ f_file_date st = Some 20395%Z
    /\ f_source_name st = zip_name (strftime_ymd 20395)
    /\ compose_url_for_date feed_url 20395
       = compose_url_for_date (strip (opt_base_url (demo_options 5))) 20395
    /\ count_events is_index_request (fst (fetch out_late (demo_options 5) 20395))
       = 3%nat
    /\ count_events is_nap (fst (fetch out_late (demo_options 5) 20395)) = 2%nat
    /\ last (fst (fetch out_late (demo_options 5) 20395))
       = Some (Sent (Download (compose_url_for_date feed_url 20395))).
Proof.
  apply (fetch_returns_the_first_download out_late (demo_options 5) 20395 3
           (compose_url_for_date feed_url 20395) 20395 [80; 75]%N).
  - vm_compute. reflexivity.
  - vm_compute. split; apply Nat.leb_le; reflexivity.
  - intros j Hj. exists RuntimeError.
    assert (Hcases : j = 1%nat \/ j = 2%nat) by lia.
    destruct Hcases as [-> | ->]; vm_compute; reflexivity.
  - vm_compute. reflexivity.
Defined.

(** X24 on the same server: the import of [demo_bundle] is logged under
    the archive of 2025-11-03, which the third attempt downloaded; on the
    server that answers nothing the database stays [demo_db]. *)
Lemma command_logs_the_archive_it_read_witness :
  (exists day,
      last (fetch_logs (fst (snd (command demo_slugify no_faults demo_read_archive
                                    out_late (demo_options 5) 100 20395 2 demo_db))))
      = Some {| file_date := Some day;
                source_url := strip (opt_base_url (demo_options 5));
                source_name := zip_name (strftime_ymd day);
                items_total := t_items_total demo_totals;
                items_added := t_added demo_totals;
                items_updated := t_updated demo_totals;
                items_marked_sold := t_marked_sold demo_totals;
                duration_seconds := 2 |}
      /\ (strip (opt_save_zip_dir (demo_options 5)) = [] ->
          exists k url data b,
            (1 <= k <= Z.to_nat (Z.max 1 (opt_retries (demo_options 5))))%nat
            /\ (forall j, (1 <= j < k)%nat ->
                  exists e,
                    attempt_outcome out_late (strip (opt_base_url (demo_options 5)))
                      20395 j = Raise e)
            /\ attempt_outcome out_late (strip (opt_base_url (demo_options 5))) 20395 k
               = Ok (url, day, data)
            /\ demo_read_archive data = Ok b
            /\ snd (command demo_slugify no_faults demo_read_archive out_late
                      (demo_options 5) 100 20395 2 demo_db)
               = run demo_slugify no_faults b
                   {| r_base_url := strip (opt_base_url (demo_options 5));
                      r_source_name := zip_name (strftime_ymd day);
                      r_file_date := Some day;
                      r_now := 100;
                      r_duration := 2;
                      r_do_mark_sold := negb (opt_no_mark_sold (demo_options 5)) |}
                   demo_db))
  /\ strip (opt_save_zip_dir (demo_options 5)) = []
  /\ fst (snd (command demo_slugify no_faults demo_read_archive out_down
                 (demo_options 2) 100 20395 2 demo_db)) = demo_db.
Proof.
  split; [|split].
  - apply (proj2 (command_logs_the_archive_it_read demo_slugify no_faults
                    demo_read_archive out_late (demo_options 5) 100 20395 2 demo_db)
             demo_totals).
    vm_compute. reflexivity.
  - vm_compute. reflexivity.
  - apply (proj1 (command_logs_the_archive_it_read demo_slugify no_faults
                    demo_read_archive out_down (demo_options 2) 100 20395 2 demo_db)
             CommandError).
    vm_compute. reflexivity.
Defined.

(** With a copy to save: the first attempt downloads the archive of
    2025-11-03 and fails to save it, the second resolves the archive of
    2025-11-04 and fails to download it.  The bytes imported are those of
    the first attempt; the log names the archive of the second. *)
Lemma log_names_a_later_archive_when_saving_fails :
  attempt_outcome out_unsaved (strip (opt_base_url save_options)) 20396 1
  = Ok (compose_url_for_date feed_url 20395, 20395%Z, [80; 75]%N)
  /\ attempt_outcome out_unsaved (strip (opt_base_url save_options)) 20396 2
     = Raise RuntimeError
  /\ snd (snd (command demo_slugify no_faults demo_read_archive out_unsaved
                 save_options 100 20396 2 demo_db)) = Ok demo_totals
  /\ last (fetch_logs (fst (snd (command demo_slugify no_faults demo_read_archive
                                   out_unsaved save_options 100 20396 2 demo_db))))
     = Some {| file_date := Some 20396%Z;
               source_url := feed_url;
               source_name := py "NOMADESMARKETING20251104.zip";
               items_total := 3; items_added := 1; items_updated := 2;
               items_marked_sold := 1; duration_seconds := 2 |}.
Proof. repeat split; vm_compute; reflexivity. Qed.


(** ** The standalone script beside the command *)

Section Script.

Lemma startswith_app (s prefix : list N) :
  startswith s prefix = true <-> exists rest, s = prefix ++ rest.
Proof.
  revert s. induction prefix as [|p prefix IH]; intros s; simpl.
  - split; [intros _; by exists s|intros _; by destruct s].
  - destruct s as [|c s]; [split; [discriminate|intros [? ?]; discriminate]|].
    cbn [startswith]. rewrite andb_true_iff, N.eqb_eq, IH. split.
    + intros [-> [rest ->]]. by exists rest.
    + intros [rest [= -> ->]]. split; [done|by exists rest].
Qed.

(** A text that starts with [http] still does once cleaned. *)
Lemma clean_keeps_http (s : list N) :
  startswith s (py "http") = true -> startswith (clean s) (py "http") = true.
Proof.
  intros [rest ->]%startswith_app.
  change (py "http") with [104; 116; 116; 112]%N. cbn [app].
  assert (Hstrip : forall (p : N -> bool) (t : list N),
             p 104%N = false -> p 112%N = false ->
             exists t', strip_by p (104 :: 116 :: 116 :: 112 :: t)%N
                        = (104 :: 116 :: 116 :: 112 :: t')%N).
  { intros p t Hh Hp. unfold strip_by. rewrite lstrip_by_stop by done.
    change (104 :: 116 :: 116 :: 112 :: t)%N with ([104; 116; 116]%N ++ 112%N :: t).
    rewrite rstrip_by_keep by done. by eexists. }
  unfold clean, strip_chars, strip.
  destruct (Hstrip isspace rest) as [t' ->]; [done|done|].
  destruct (Hstrip (fun c => bool_decide (c ∈ [QUOTE])) t') as [t'' ->]; [done|done|].
  apply startswith_app. by exists t''.
Qed.

(** X25: every url the script's [extract_photos] keeps is one the
    command's [extract_photos] keeps too, and the script keeps them in the
    order of the table: the script tests the raw column, so a url written
    after a space or a quote is dropped where the command keeps it, and it
    does not sort by sequence number. *)
Theorem script_photos_are_among_the_commands (photo_rows : list (list (list N))) :
  parse_centris_zip.photo_urls photo_rows
  `sublist_of` map snd (import_centris.photo_pairs photo_rows)
  /\ (forall u, u ∈ parse_centris_zip.photo_urls photo_rows ->
                u ∈ map snd (import_centris.extract_photos photo_rows)).
Proof.
  assert (Hsub : parse_centris_zip.photo_urls photo_rows
                 `sublist_of` map snd (import_centris.photo_pairs photo_rows)).
  { unfold parse_centris_zip.photo_urls, import_centris.photo_pairs.
    induction photo_rows as [|r rows IH]; [done|].
    rewrite !omap_cons.
    destruct (7 <=? length r)%nat; cbn [andb]; [|done].
    destruct (startswith (get r 6) (py "http")) eqn:Hraw.
    - pose proof (clean_keeps_http _ Hraw) as Hclean. rewrite Hclean.
      assert (Ht : truthy (clean (get r 6)) = true).
      { apply truthy_true. by apply (startswith_nonempty _ (py "http")). }
      rewrite Ht. cbn [andb map snd]. by apply sublist_skip.
    - destruct (truthy (clean (get r 6)) && startswith (clean (get r 6)) (py "http"));
        [|done].
      cbn [map]. by apply sublist_cons. }
  split; [done|]. intros u Hu.
  pose proof (sublist_subseteq _ _ Hsub u Hu) as Hin.
  change (u ∈ snd <$> import_centris.photo_pairs photo_rows) in Hin.
  apply list_elem_of_fmap in Hin as (p & -> & Hp).
  change (p.2 ∈ snd <$> import_centris.extract_photos photo_rows).
  apply list_elem_of_fmap. exists p. split; [done|].
  unfold import_centris.extract_photos. by rewrite sort_by_perm.
Qed.

End Script.


(** ** The records of the standalone script *)

Section ScriptRecords.

Lemma field_get (r : list (list N)) (i : nat) :
  (i < length r)%nat -> field r i = Ok (get r i).
Proof.
  intros Hi. unfold field, get.
  destruct (lookup_lt_is_Some_2 r i Hi) as [x ->]. reflexivity.
Qed.

Lemma field_short (r : list (list N)) (i : nat) :
  (length r <= i)%nat -> field r i = Raise IndexError.
Proof.
  intros Hi. unfold field. by rewrite (lookup_ge_None_2 r i Hi).
Qed.

(** With three columns in every row the loop of the script renders the
    pieces the command renders. *)
Lemma car_descs_ok (carac_rows : list (list (list N))) :
  Forall (fun r => (3 <= length r)%nat) carac_rows ->
  parse_centris_zip.car_descs carac_rows
  = Ok (map fst (omap import_centris.carac_of_row carac_rows)).
Proof.
  induction 1 as [|r rows Hr _ IH]; [reflexivity|].
  rewrite omap_cons. cbn [parse_centris_zip.car_descs].
  rewrite (field_get r 1), (field_get r 2) by lia. cbn [rbind].
  unfold import_centris.carac_of_row.
  destruct (Nat.ltb_spec (length r) 3) as [?|_]; [lia|].
  destruct (pystr_eqb (clean (get r 1)) import_centris.PROX); [exact IH|].
  rewrite IH. reflexivity.
Qed.

(** A row with fewer than three columns stops the loop of the script. *)
Lemma car_descs_short (carac_rows : list (list (list N))) :
  Exists (fun r => (length r < 3)%nat) carac_rows ->
  parse_centris_zip.car_descs carac_rows = Raise IndexError.
Proof.
  induction carac_rows as [|r rows IH]; intros Hex; [by apply Exists_nil in Hex|].
  cbn [parse_centris_zip.car_descs].
  destruct (le_lt_dec (length r) 1) as [H1|H1];
    [by rewrite (field_short r 1)|].
  rewrite (field_get r 1) by lia. cbn [rbind].
  destruct (le_lt_dec (length r) 2) as [H2|H2];
    [by rewrite (field_short r 2)|].
  rewrite (field_get r 2) by lia. cbn [rbind].
  apply Exists_cons in Hex as [?|Hex]; [lia|].
  rewrite (IH Hex).
  by destruct (pystr_eqb (clean (get r 1)) import_centris.PROX).
Qed.

(** X26: the characteristics loop of the script's [parse_zipfile_to_json]
    reads the second and third columns of every row before any test: when
    each row of the listing has three columns it renders exactly the pieces
    the command's [build_caracteristiques] renders, and as soon as one row
    is shorter it raises [IndexError], also for a row the command would
    skip. *)
Theorem script_characteristics_need_three_columns
    (carac_rows : list (list (list N))) :
  parse_centris_zip.car_descs carac_rows
  = if forallb (fun r => (3 <=? length r)%nat) carac_rows
    then Ok (map fst (omap import_centris.carac_of_row carac_rows))
    else Raise IndexError.
Proof.
  destruct (forallb _ carac_rows) eqn:Hall.
  - apply car_descs_ok. apply Forall_forall. intros r Hr.
    apply list_elem_of_In in Hr.
    rewrite forallb_forall in Hall. by apply Nat.leb_le, Hall.
  - apply car_descs_short.
    destruct (decide (Forall (fun r => (3 <= length r)%nat) carac_rows))
      as [Hf|Hf].
    + exfalso. assert (forallb (fun r => (3 <=? length r)%nat) carac_rows = true);
        [|congruence].
      apply forallb_forall. intros r Hr. apply Nat.leb_le.
      rewrite Forall_forall in Hf. by apply Hf, list_elem_of_In.
    + apply not_Forall_Exists in Hf; [|apply _].
      eapply Exists_impl; [exact Hf|]. intros r Hr. simpl in Hr. lia.
Qed.

(** The text the command stores for the characteristics, from the pieces. *)
Lemma build_caracteristiques_text (carac_rows : list (list (list N))) :
  (import_centris.build_caracteristiques carac_rows).1
  = match map fst (omap import_centris.carac_of_row carac_rows) with
    | [] => []
    | descs => join import_centris.COMMA_SPACE descs
    end.
Proof.
  unfold import_centris.build_caracteristiques. cbn [fst].
  by destruct (map fst _).
Qed.

Lemma car_descs_inv (carac_rows : list (list (list N))) (descs : list (list N)) :
  parse_centris_zip.car_descs carac_rows = Ok descs ->
  descs = map fst (omap import_centris.carac_of_row carac_rows).
Proof.
  intros Hd.
  destruct (decide (Forall (fun r => (3 <= length r)%nat) carac_rows)) as [Hf|Hf].
  - rewrite (car_descs_ok _ Hf) in Hd. congruence.
  - apply not_Forall_Exists in Hf; [|apply _].
    rewrite car_descs_short in Hd; [discriminate|].
    eapply Exists_impl; [exact Hf|]. intros r Hr. simpl in Hr. lia.
Qed.

(** X27: when the script builds a record for a primary row, the command
    extracts the same row without an error, and both agree on the price,
    the address, the counts of rooms, the year and the text of the
    characteristics, where the script writes [None] for the empty text the
    command stores. *)
Theorem script_record_agrees_with_the_command
    (b : Bundle) (r : list (list N)) (id_ : list N) (rec : Rec) :
  record_of b r id_ = Ok rec ->
  exists e,
    extract_row b r id_ = Ok e
    /\ rec_id rec = id_
    /\ rec_slug rec = py "listing-" ++ id_
    /\ rec_prix rec = x_prix e
    /\ or_else (rec_adresse rec) [] = x_adresse e
    /\ rec_nombre_pieces rec = x_n_pieces e
    /\ rec_nombre_chambres rec = x_n_chambres e
    /\ rec_nombre_sdb rec = x_n_sdb e
    /\ rec_annee_construction rec = x_annee e
    /\ or_else (rec_caracteristiques rec) [] = x_car_text e.
Proof.
  unfold record_of, extract_row.
  unfold parse_centris_zip.extract_price, parse_centris_zip.extract_address,
    parse_centris_zip.extract_units, parse_centris_zip.extract_year.
  destruct (import_centris.extract_price r) as [prix_|?]; [|discriminate].
  cbn [rbind].
  destruct (import_centris.extract_units _ _) as [[[pieces chambres] sdb]|?];
    [|discriminate].
  cbn [rbind].
  destruct (import_centris.extract_year r) as [annee|?]; [|discriminate].
  cbn [rbind].
  destruct (parse_centris_zip.car_descs _) as [descs|?] eqn:Hd; [|discriminate].
  cbn [rbind]. apply car_descs_inv in Hd.
  pose proof (build_caracteristiques_text (rows_of (group_by_id (rows_car b)) id_))
    as Htext.
  destruct (import_centris.build_caracteristiques _) as [car_text car_arr].
  cbn [fst] in Htext.
  destruct (import_centris.extract_proximites _ _) as [ptext parr].
  intros [= <-]. eexists. split; [reflexivity|]. cbn.
  repeat split. rewrite Htext, <- Hd. by destruct descs.
Qed.

(** The primary row of listing 1001 of [demo_bundle]. *)
Lemma script_record_agrees_with_the_command_witness :
  exists rec,
    record_of demo_bundle [py "1001"; []; []; []; []; []; py "250000"] (py "1001")
    = Ok rec
    /\ exists e,
      extract_row demo_bundle [py "1001"; []; []; []; []; []; py "250000"] (py "1001")
      = Ok e
      /\ rec_id rec = py "1001"
      /\ rec_slug rec = py "listing-" ++ py "1001"
      /\ rec_prix rec = x_prix e
      /\ or_else (rec_adresse rec) [] = x_adresse e
      /\ rec_nombre_pieces rec = x_n_pieces e
      /\ rec_nombre_chambres rec = x_n_chambres e
      /\ rec_nombre_sdb rec = x_n_sdb e
      /\ rec_annee_construction rec = x_annee e
      /\ or_else (rec_caracteristiques rec) [] = x_car_text e.
Proof.
  eexists. split; [vm_compute; reflexivity|].
  apply (script_record_agrees_with_the_command demo_bundle).
  vm_compute. reflexivity.
Defined.

Lemma record_of_id (b : Bundle) (r : list (list N)) (id_ : list N) (rec : Rec) :
  record_of b r id_ = Ok rec ->
  rec_id rec = id_ /\ rec_slug rec = py "listing-" ++ id_.
Proof.
  unfold record_of.
  destruct (parse_centris_zip.extract_price r); [|discriminate]. cbn [rbind].
  destruct (parse_centris_zip.extract_units _ _) as [[[? ?] ?]|?]; [|discriminate].
  cbn [rbind].
  destruct (parse_centris_zip.extract_year r); [|discriminate]. cbn [rbind].
  destruct (parse_centris_zip.car_descs _); [|discriminate]. cbn [rbind].
  by intros [= <-].
Qed.

Lemma records_of_ids (b : Bundle) (rows : list (list (list N))) (recs : list Rec) :
  records_of b rows = Ok recs ->
  map rec_id recs = omap row_id rows
  /\ Forall (fun rec => rec_slug rec = py "listing-" ++ rec_id rec) recs.
Proof.
  revert recs. induction rows as [|r rows IH]; intros recs.
  - intros [= <-]. by split.
  - cbn [records_of]. rewrite omap_cons.
    destruct (row_id r) as [id_|]; [|by apply IH].
    destruct (record_of b r id_) as [rec|?] eqn:Hrec; [|discriminate].
    cbn [rbind].
    destruct (records_of b rows) as [recs'|?]; [|discriminate].
    cbn [rbind]. intros [= <-].
    apply record_of_id in Hrec as [Hid Hslug].
    destruct (IH recs' eq_refl) as [Hids Hslugs].
    split; [cbn [map]; by rewrite Hid, Hids|].
    apply Forall_cons. split; [by rewrite Hslug, Hid|done].
Qed.

(** X28: when the script's [parse_zipfile_to_json] returns, it has made
    one record for each primary row whose cleaned identifier is not empty,
    in the order of the table and with a repeated identifier kept as often
    as it comes; the slug of each record is [listing-] followed by its
    identifier. *)
Theorem script_makes_a_record_per_primary_row (b : Bundle) (recs : list Rec) :
  parse_zipfile_to_json b = Ok recs ->
  map rec_id recs = omap row_id (rows_ins b)
  /\ Forall (fun rec => rec_slug rec = py "listing-" ++ rec_id rec) recs.
Proof. apply records_of_ids. Qed.

(** [demo_bundle], where listing 1001 comes twice. *)
Lemma script_makes_a_record_per_primary_row_witness :
  exists recs,
    parse_zipfile_to_json demo_bundle = Ok recs
    /\ map rec_id recs = [py "1001"; py "1002"; py "1001"]
    /\ Forall (fun rec => rec_slug rec = py "listing-" ++ rec_id rec) recs.
Proof.
  eexists. split; [vm_compute; reflexivity|].
  apply (script_makes_a_record_per_primary_row demo_bundle).
  vm_compute. reflexivity.
Defined.

End ScriptRecords.
